(** * The xv6 driver for the Intel 8254x (E1000) network card

    A shallow embedding of [e1000.c]: the device record, the platform the
    driver runs on (port I/O, flat byte memory, the page allocator, the log),
    and the driver's functions as computations over that platform. *)

From Stdlib Require Import ZArith List String Lia Bool.
Import ListNotations.
Local Open Scope Z_scope.

(** ** C integers

    [uint], [ushort] and [uchar] values are integers reduced modulo their
    width; every arithmetic result of the source is wrapped where the C
    type wraps it. *)

Definition u32 (x : Z) : Z := x mod 2 ^ 32.
Definition u16 (x : Z) : Z := x mod 2 ^ 16.
Definition u8 (x : Z) : Z := x mod 2 ^ 8.

(** ** Memory

    One flat, byte addressed, little endian 32-bit address space: kernel
    pages and the card's register window are both reached by plain loads
    and stores, as in the source. *)

Definition mem := Z -> Z.

Definition load8 (m : mem) (a : Z) : Z := u8 (m (u32 a)).

Definition store8 (m : mem) (a v : Z) : mem :=
  fun x => if x =? u32 a then u8 v else m x.

Definition load32 (m : mem) (a : Z) : Z :=
  load8 m a + 2 ^ 8 * load8 m (a + 1) + 2 ^ 16 * load8 m (a + 2)
  + 2 ^ 24 * load8 m (a + 3).

Definition store32 (m : mem) (a v : Z) : mem :=
  store8 (store8 (store8 (store8 m a v) (a + 1) (v / 2 ^ 8))
            (a + 2) (v / 2 ^ 16)) (a + 3) (v / 2 ^ 24).

(** [memset(a, c, n)]: the [n] bytes from [a] on, wrapping with the
    address space. *)
Definition memset (m : mem) (a c n : Z) : mem :=
  fun x => if u32 (x - a) <? n then u8 c else m x.

(** ** Link-layer records

    [eth.h] declares the two structures the receive path fills in and
    dumps; the driver itself only reads [ether_type]. *)

(** Modelled from the spec: [struct eth_hdr] of [eth.h], which is not part
    of the sources at hand: destination address (6 bytes), source address
    (6 bytes), ether-type (16 bits). *)
Record eth_hdr := mk_eth_hdr {
  eth_dst : list Z;
  eth_src : list Z;
  ether_type : Z
}.

(** Modelled from the spec: [struct arp_packet] of [eth.h], which is not
    part of the sources at hand: hardware and protocol type, address
    lengths, operation, sender and target hardware and protocol addresses. *)
Record arp_packet := mk_arp_packet {
  arp_htype : Z;
  arp_ptype : Z;
  arp_hlen : Z;
  arp_plen : Z;
  arp_oper : Z;
  arp_sha : list Z;
  arp_spa : list Z;
  arp_tha : list Z;
  arp_tpa : list Z
}.

(** ** What the kernel headers provide

    [mmu.h], [memlayout.h], [traps.h] and [eth.h] are not among the sources
    at hand; their constants and the two buffer decoders are taken as
    parameters of the development. *)
Class Platform := {
  PGSIZE : Z;                 (* mmu.h *)
  KERNBASE : Z;               (* memlayout.h: V2P and P2V shift by it *)
  IRQ_PCI0 : Z;               (* traps.h *)
  sizeof_eth_hdr : Z;         (* sizeof(struct eth_hdr) *)
  sizeof_arp_packet : Z;      (* sizeof(struct arp_packet) *)
  eth_hdr_from_buf : mem -> Z -> eth_hdr;
  arp_packet_from_buf : mem -> Z -> arp_packet
}.

(** ** Observable actions

    Port writes, stores to the register window, log output and the calls
    into [eth.h] and the interrupt controller are recorded in program
    order; [RxDescLoad idx] records the read of [e1000.rx[idx]]. *)
Inductive event :=
| Outdw (port value : Z)
| MmioStore (addr value : Z)
| RxDescLoad (idx : Z)
| Cprintf (fmt : string) (args : list Z)
| EthHdrFromBuf (buf : Z)
| ArpPacketFromBuf (buf : Z)
| DumpEthHdr (h : eth_hdr)
| DumpArpPacket (p : arp_packet)
| Ioapicenable (irq cpu : Z).

(** ** The driver's global and the machine around it *)

Record e1000_t := mk_e1000 {
  mmio_base : Z;       (* base address of the card's MMIO region *)
  mac : list Z;        (* char mac[6] *)
  rx : Z;              (* struct rx_desc *rx *)
  rx_count : Z;
  rx_buf : Z;          (* char **rx_buf *)
  tx : Z;
  packet_count : Z
}.

Record world := mk_world {
  e1000 : e1000_t;
  memory : mem;
  pci_addr : Z;              (* last value written to PCI_CONFIG_ADDR *)
  pci_space : Z -> Z;        (* configuration space, by address word *)
  free_pages : list Z;       (* what successive kalloc() calls return *)
  device : list (option Z);  (* what the card does before each register load *)
  trace : list event
}.

Definition set_e1000 (d : e1000_t) (w : world) : world :=
  mk_world d (memory w) (pci_addr w) (pci_space w) (free_pages w) (device w) (trace w).
Definition set_memory (m : mem) (w : world) : world :=
  mk_world (e1000 w) m (pci_addr w) (pci_space w) (free_pages w) (device w) (trace w).
Definition set_pci_addr (a : Z) (w : world) : world :=
  mk_world (e1000 w) (memory w) a (pci_space w) (free_pages w) (device w) (trace w).
Definition set_free_pages (l : list Z) (w : world) : world :=
  mk_world (e1000 w) (memory w) (pci_addr w) (pci_space w) l (device w) (trace w).
Definition set_device (l : list (option Z)) (w : world) : world :=
  mk_world (e1000 w) (memory w) (pci_addr w) (pci_space w) (free_pages w) l (trace w).
Definition set_trace (t : list event) (w : world) : world :=
  mk_world (e1000 w) (memory w) (pci_addr w) (pci_space w) (free_pages w) (device w) t.

(** ** Computations

    A driver function either returns, stops in [panic], spins for ever in
    the EEPROM poll, or takes a divide fault. *)
Inductive outcome (A : Type) :=
| Done (a : A) (w : world)
| Panic (msg : string) (w : world)
| Hang (w : world)
| Fault (w : world).
Arguments Done {A} a w.
Arguments Panic {A} msg w.
Arguments Hang {A} w.
Arguments Fault {A} w.

Definition M (A : Type) := world -> outcome A.

Definition ret {A} (a : A) : M A := fun w => Done a w.

Definition bind {A B} (c : M A) (k : A -> M B) : M B :=
  fun w => match c w with
           | Done a w' => k a w'
           | Panic msg w' => Panic msg w'
           | Hang w' => Hang w'
           | Fault w' => Fault w'
           end.

Notation "x <- c ;; k" := (bind c (fun x => k))
  (at level 61, c at next level, right associativity).
Notation "c ;; k" := (bind c (fun _ => k))
  (at level 61, right associativity).

Definition panic {A} (msg : string) : M A := fun w => Panic msg w.
Definition divide_fault {A} : M A := fun w => Fault w.

Definition get_dev : M e1000_t := fun w => Done (e1000 w) w.
Definition put_dev (d : e1000_t) : M unit := fun w => Done tt (set_e1000 d w).
Definition emit (e : event) : M unit :=
  fun w => Done tt (set_trace (trace w ++ [e]) w).

Fixpoint foldM {A X} (f : A -> X -> M A) (l : list X) (a : A) : M A :=
  match l with
  | [] => ret a
  | x :: rest => a' <- f a x ;; foldM f rest a'
  end.

Fixpoint forM_ {X} (f : X -> M unit) (l : list X) : M unit :=
  match l with
  | [] => ret tt
  | x :: rest => f x ;; forM_ f rest
  end.

(** ** Platform primitives *)

Definition PCI_CONFIG_ADDR : Z := 0xCF8.
Definition PCI_CONFIG_DATA : Z := 0xCFC.

(** [outdw(port, data)]: the write is recorded; a write to the
    configuration address port also selects what the data port shows. *)
Definition outdw (port data : Z) : M unit :=
  fun w =>
    let w' := set_trace (trace w ++ [Outdw port data]) w in
    Done tt (if port =? PCI_CONFIG_ADDR then set_pci_addr data w' else w').

(** [inb(port)]: the byte of configuration space under the selected
    address word. *)
Definition inb (port : Z) : M Z :=
  fun w => Done (if port =? PCI_CONFIG_DATA then u8 (pci_space w (pci_addr w)) else 0) w.

(** [kalloc()]: the next entry of the allocator's answers; an entry 0, or
    no entry at all, is a failed allocation. *)
Definition kalloc : M Z :=
  fun w => match free_pages w with
           | [] => Done 0 w
           | p :: rest => Done (u32 p) (set_free_pages rest w)
           end.

Definition ram_load32 (a : Z) : M Z := fun w => Done (load32 (memory w) a) w.
Definition ram_store32 (a v : Z) : M unit :=
  fun w => Done tt (set_memory (store32 (memory w) a v) w).
Definition ram_memset (a c n : Z) : M unit :=
  fun w => Done tt (set_memory (memset (memory w) a c n) w).

(** A load from the register window: the card may have replaced the
    register's content since the last access ([Some v]) or left it alone. *)
Definition mmio_load (a : Z) : M Z :=
  fun w => match device w with
           | Some v :: rest =>
               let m := store32 (memory w) a v in
               Done (load32 m a) (set_device rest (set_memory m w))
           | None :: rest => Done (load32 (memory w) a) (set_device rest w)
           | [] => Done (load32 (memory w) a) w
           end.

Definition mmio_store (a v : Z) : M unit :=
  fun w => Done tt (set_trace (trace w ++ [MmioStore (u32 a) (u32 v)])
                      (set_memory (store32 (memory w) a v) w)).

Definition cprintf (fmt : string) (args : list Z) : M unit := emit (Cprintf fmt args).
Definition ioapicenable (irq cpu : Z) : M unit := emit (Ioapicenable irq cpu).

(** ** The driver *)

(** Device constants. *)
Definition VENDOR_ID : Z := 0x8086.
Definition DEVICE_ID : Z := 0x100E.

(** E1000 registers. *)
Definition EERD : Z := 0x0014.
Definition ICR : Z := 0x000C0.
Definition IMS : Z := 0x000D0.
Definition RCTL : Z := 0x00100.
Definition TIPG : Z := 0x00410.
Definition RDBAL : Z := 0x02800.
Definition RDBAH : Z := 0x02804.
Definition RDLEN : Z := 0x02808.
Definition RDH : Z := 0x02810.
Definition RDT : Z := 0x02818.
Definition TDBAL : Z := 0x03800.
Definition TDBAH : Z := 0x03804.
Definition TDLEN : Z := 0x03808.
Definition TDH : Z := 0x03810.
Definition TDT : Z := 0x03818.
Definition TCTL : Z := 0x00400.
Definition RAL : Z := 0x05400.
Definition RAH : Z := 0x05404.

(** Ethernet constants. *)
Definition ETH_TYPE_IPV4 : Z := 0x0800.
Definition ETH_TYPE_IPV6 : Z := 0x86DD.
Definition ETH_TYPE_ARP : Z := 0x0806.

(** [sizeof(struct rx_desc)]: two [uint addr] and two [uint fields]. *)
Definition sizeof_rx_desc : Z := 16.

Definition EEPROM_DONE : Z := 0x00000010.

(** Read a main function register. *)
Definition read_reg (reg : Z) : M Z :=
  dev <- get_dev ;; mmio_load (u32 (mmio_base dev + reg)).

(** Write a main function register. *)
Definition write_reg (reg value : Z) : M unit :=
  dev <- get_dev ;; mmio_store (u32 (mmio_base dev + reg)) value.

(** One byte of configuration space: select, then read the data port. *)
Definition pci_byte (addr_word : Z) : M Z :=
  outdw PCI_CONFIG_ADDR addr_word ;; inb PCI_CONFIG_DATA.

(** [0x80000000 | dev << 11] *)
Definition pci_dev_addr (dev : Z) : Z := Z.lor 0x80000000 (Z.shiftl dev 11).

(** The inner loops of the probe: [i] is the byte offset, [j] the byte's
    place in the assembled value. *)
Definition pci_read_bytes (wrap : Z -> Z) (addr : Z) (ij : list (Z * Z)) : M Z :=
  foldM (fun acc '(i, j) =>
           data <- pci_byte (Z.lor addr i) ;;
           ret (wrap (Z.lor acc (Z.shiftl data (j * 8)))))
        ij 0.

Definition read_vendor_id (addr : Z) : M Z :=
  pci_read_bytes u16 addr [(1, 1); (0, 0)].

Definition read_device_id (addr : Z) : M Z :=
  pci_read_bytes u16 addr [(3, 1); (2, 0)].

(** The probe loop of [e1000init]: the first device of [devs] with the
    card's identifiers, or -1. *)
Fixpoint probe (devs : list Z) : M Z :=
  match devs with
  | [] => ret (-1)
  | dev :: rest =>
      let addr := pci_dev_addr dev in
      vendor_id <- read_vendor_id addr ;;
      device_id <- read_device_id addr ;;
      if (vendor_id =? VENDOR_ID) && (device_id =? DEVICE_ID)
      then ret dev
      else probe rest
  end.

Fixpoint upd {A} (l : list A) (n : nat) (v : A) : list A :=
  match l, n with
  | [], _ => []
  | _ :: t, O => v :: t
  | h :: t, S k => h :: upd t k v
  end.

(** [while (!(result & EEPROM_DONE)) result = *addr;] *)
Fixpoint eerd_poll (fuel : nat) (addr : Z) : M unit :=
  match fuel with
  | O => fun w => Hang w
  | S f =>
      result <- mmio_load addr ;;
      if Z.land result EEPROM_DONE =? 0 then eerd_poll f addr else ret tt
  end.

(** One round of the MAC loop of [e1000init]. Once the card has nothing
    more to say a register keeps its content, so [length (device w)] loads
    and one more decide the poll. *)
Definition read_mac_word (i : Z) : M unit :=
  dev <- get_dev ;;
  let addr := u32 (mmio_base dev + EERD) in
  mmio_store addr (Z.lor 0x00000001 (Z.shiftl i 8)) ;;
  (fun w => eerd_poll (S (List.length (device w))) addr w) ;;
  v <- mmio_load addr ;;
  let part := u16 (Z.shiftr v 16) in
  dev <- get_dev ;;
  let k := Z.to_nat (i * 2) in
  put_dev (mk_e1000 (mmio_base dev)
             (upd (upd (mac dev) k (u8 part)) (S k) (u8 (Z.shiftr part 8)))
             (rx dev) (rx_count dev) (rx_buf dev) (tx dev) (packet_count dev)).

Section Driver.
Context {P : Platform}.

Definition V2P (a : Z) : Z := u32 (a - KERNBASE).
Definition P2V (a : Z) : Z := u32 (a + KERNBASE).

Definition mac_byte (dev : e1000_t) (k : nat) : Z := u8 (nth k (mac dev) 0).

(** The body of the buffer loop of [init_rx]. *)
Definition init_rx_slot (i : Z) : M unit :=
  dev <- get_dev ;;
  let slot := u32 (rx_buf dev + 4 * i) in
  p <- kalloc ;;
  ram_store32 slot p ;;
  b <- ram_load32 slot ;;
  if b =? 0 then panic "failed to allocate buffer\n" else
  b <- ram_load32 slot ;;
  ram_memset b 0 PGSIZE ;;
  b <- ram_load32 slot ;;
  let d := u32 (rx dev + sizeof_rx_desc * i) in
  ram_store32 d (V2P b) ;;
  ram_store32 (d + 4) 0 ;;
  ram_store32 (d + 8) 0 ;;
  ram_store32 (d + 12) 0.

(** [for (uint i = ...; i < e1000.rx_count; i++)], [n] rounds from [i] on. *)
Fixpoint init_rx_slots (n : nat) (i : Z) : M unit :=
  match n with
  | O => ret tt
  | S k => init_rx_slot i ;; init_rx_slots k (i + 1)
  end.

Definition RCTL_VALUE : Z :=
  Z.lor (Z.shiftl 1 1) (Z.lor (Z.shiftl 1 2) (Z.lor (Z.shiftl 1 3)
  (Z.lor (Z.shiftl 1 4) (Z.lor (Z.shiftl 1 5) (Z.lor (Z.shiftl 1 15)
  (Z.lor (Z.shiftl 3 16) (Z.shiftl 1 25))))))).

(** Receive initialization. *)
Definition init_rx : M unit :=
  dev <- get_dev ;;
  let mac_low := mac_byte dev 0 + 2 ^ 8 * mac_byte dev 1
                 + 2 ^ 16 * mac_byte dev 2 + 2 ^ 24 * mac_byte dev 3 in
  let mac_high := mac_byte dev 4 + 2 ^ 8 * mac_byte dev 5 in
  write_reg RAL mac_low ;;
  write_reg RAH mac_high ;;
  r <- kalloc ;;
  dev <- get_dev ;;
  put_dev (mk_e1000 (mmio_base dev) (mac dev) r (rx_count dev) (rx_buf dev)
             (tx dev) (packet_count dev)) ;;
  if r =? 0 then panic "failed to allocate recieve descriptor buffer\n" else
  ram_memset r 0 PGSIZE ;;
  dev <- get_dev ;;
  put_dev (mk_e1000 (mmio_base dev) (mac dev) (rx dev)
             (u32 (PGSIZE / sizeof_rx_desc)) (rx_buf dev)
             (tx dev) (packet_count dev)) ;;
  write_reg RDBAL (V2P r) ;;
  write_reg RDBAH 0 ;;
  write_reg RDLEN PGSIZE ;;
  write_reg RDH 0 ;;
  write_reg RDT 0 ;;
  l <- kalloc ;;
  dev <- get_dev ;;
  put_dev (mk_e1000 (mmio_base dev) (mac dev) (rx dev) (rx_count dev) l
             (tx dev) (packet_count dev)) ;;
  dev <- get_dev ;;
  init_rx_slots (Z.to_nat (rx_count dev)) 0 ;;
  dev <- get_dev ;;
  write_reg RDT (u32 (rx_count dev - 1)) ;;
  write_reg RCTL RCTL_VALUE.

Definition TCTL_VALUE : Z :=
  Z.lor (Z.shiftl 1 1) (Z.lor (Z.shiftl 1 3)
  (Z.lor (Z.shiftl 0xF 4) (Z.shiftl 0x200 12))).

(** Transmission initialization. *)
Definition init_tx : M unit :=
  t <- kalloc ;;
  dev <- get_dev ;;
  put_dev (mk_e1000 (mmio_base dev) (mac dev) (rx dev) (rx_count dev)
             (rx_buf dev) t (packet_count dev)) ;;
  if t =? 0 then panic "failed to allocate transmission buffer\n" else
  ram_memset t 0 PGSIZE ;;
  write_reg TDBAL (V2P t) ;;
  write_reg TDBAH 0 ;;
  write_reg TDLEN PGSIZE ;;
  write_reg TDH 0 ;;
  write_reg TDT 0 ;;
  write_reg TCTL TCTL_VALUE ;;
  write_reg TIPG 0xA.

Definition IMS_VALUE : Z :=
  Z.lor (Z.shiftl 1 0) (Z.lor (Z.shiftl 1 2) (Z.lor (Z.shiftl 1 3)
  (Z.lor (Z.shiftl 1 4) (Z.lor (Z.shiftl 1 6) (Z.shiftl 1 7))))).

(** Initialize interrupts. *)
Definition init_intr : M unit := write_reg IMS IMS_VALUE.

(** Initialize an E1000 family ethernet card. *)
Definition e1000init : M unit :=
  target_dev <- probe [0; 1; 2; 3] ;;
  if target_dev =? -1 then ret tt else
  let addr := pci_dev_addr target_dev in
  command <- pci_read_bytes u32 addr [(5, 1); (4, 0)] ;;
  let command := Z.lor command (Z.shiftl 1 2) in
  outdw PCI_CONFIG_ADDR (Z.lor addr 4) ;;
  outdw PCI_CONFIG_DATA command ;;
  mmio_addr <- pci_read_bytes u32 addr [(19, 3); (18, 2); (17, 1); (16, 0)] ;;
  if mmio_addr =? 0 then panic "failed to determine base address" else
  dev <- get_dev ;;
  put_dev (mk_e1000 mmio_addr (mac dev) (rx dev) (rx_count dev) (rx_buf dev)
             (tx dev) (packet_count dev)) ;;
  forM_ read_mac_word [0; 1; 2] ;;
  init_rx ;;
  init_tx ;;
  init_intr ;;
  ioapicenable IRQ_PCI0 0.

(** *** The receive path *)

Definition DD : Z := Z.shiftl 1 0.
Definition EOP : Z := Z.shiftl 1 1.

(** [tail % (e1000.rx_count - 1)] *)
Definition rx_start (count tail : Z) : Z := tail mod u32 (count - 1).

(** [head > tail ? head - tail : (e1000.rx_count - tail - 1) + head] *)
Definition rx_avail (count head tail : Z) : Z :=
  if head >? tail then u32 (head - tail)
  else u32 (u32 (u32 (count - tail) - 1) + head).

(** [(i + j) % (e1000.rx_count - 1)] *)
Definition rx_idx (count i j : Z) : Z := u32 (i + j) mod u32 (count - 1).

(** [head == 0 ? e1000.rx_count - 1 : head - 1] *)
Definition rx_new_tail (count head : Z) : Z :=
  if head =? 0 then u32 (count - 1) else u32 (head - 1).

(** The [switch] on the ether-type, with the calls it makes. *)
Definition dispatch_ether_type (hdr : eth_hdr) (buffer offset : Z) : M unit :=
  if ether_type hdr =? ETH_TYPE_IPV4 then cprintf "ETH_TYPE_IPV4\n" []
  else if ether_type hdr =? ETH_TYPE_IPV6 then cprintf "ETH_TYPE_IPV6\n" []
  else if ether_type hdr =? ETH_TYPE_ARP then
    cprintf "ETH_TYPE_ARP\n" [] ;;
    emit (ArpPacketFromBuf (u32 (buffer + offset))) ;;
    packet <- (fun w => Done (arp_packet_from_buf (memory w) (u32 (buffer + offset))) w) ;;
    emit (DumpArpPacket packet)
  else cprintf "ETH_TYPE_UNKNOWN\n" [].

(** The body of the descriptor loop of [read_packets]. *)
Definition read_packet (i j : Z) : M unit :=
  dev <- get_dev ;;
  let idx := rx_idx (rx_count dev) i j in
  emit (RxDescLoad idx) ;;
  let d := u32 (rx dev + sizeof_rx_desc * idx) in
  addr0 <- ram_load32 d ;;
  fields0 <- ram_load32 (d + 8) ;;
  fields1 <- ram_load32 (d + 12) ;;
  let end_of_packet := Z.shiftr (Z.land fields1 EOP) 1 in
  let buffer := P2V addr0 in
  cprintf "packet count: %d\n" [packet_count dev] ;;
  cprintf "buffer: 0x%x\n" [buffer] ;;
  cprintf "packet size: %d\n" [Z.land fields0 0xFF] ;;
  cprintf "end of packet: %d\n" [end_of_packet] ;;
  (if end_of_packet =? 0 then ret tt else
     emit (EthHdrFromBuf buffer) ;;
     hdr <- (fun w => Done (eth_hdr_from_buf (memory w) buffer) w) ;;
     let offset := u32 (0 + sizeof_eth_hdr) in
     dispatch_ether_type hdr buffer offset ;;
     emit (DumpEthHdr hdr)) ;;
  cprintf "\n\n" [] ;;
  dev <- get_dev ;;
  put_dev (mk_e1000 (mmio_base dev) (mac dev) (rx dev) (rx_count dev)
             (rx_buf dev) (tx dev) (u32 (packet_count dev + 1))).

(** [for (uint j = ...; j < n; j++)], [k] rounds from [j] on. *)
Fixpoint read_packet_loop (k : nat) (i j : Z) : M unit :=
  match k with
  | O => ret tt
  | S k' => read_packet i j ;; read_packet_loop k' i (j + 1)
  end.

(** Dump all incoming packets. *)
Definition read_packets : M unit :=
  tail <- read_reg RDT ;;
  head <- read_reg RDH ;;
  dev <- get_dev ;;
  if u32 (rx_count dev - 1) =? 0 then divide_fault else
  let i := rx_start (rx_count dev) tail in
  let n := rx_avail (rx_count dev) head tail in
  read_packet_loop (Z.to_nat n) i 0 ;;
  dev <- get_dev ;;
  write_reg RDT (rx_new_tail (rx_count dev) head).

Definition TXDW : Z := Z.shiftl 1 0.
Definition RXT0 : Z := Z.shiftl 1 7.

(** Main interrupt handler. *)
Definition e1000_intr : M unit :=
  mask <- read_reg ICR ;;
  if negb (Z.land mask TXDW =? 0) then
    cprintf "transmit descriptor writeback\n" [mask]
  else if negb (Z.land mask RXT0 =? 0) then read_packets
  else ret tt.

(** The register stores of [init_rx] up to the allocation of the buffer
    list, and those after the buffer loop. *)
Definition init_rx_first_stores (dev : e1000_t) (ring : Z) : list event :=
  let reg r := u32 (u32 (mmio_base dev + r)) in
  [MmioStore (reg RAL)
     (u32 (mac_byte dev 0 + 2 ^ 8 * mac_byte dev 1
           + 2 ^ 16 * mac_byte dev 2 + 2 ^ 24 * mac_byte dev 3));
   MmioStore (reg RAH) (u32 (mac_byte dev 4 + 2 ^ 8 * mac_byte dev 5))]
  ++ if ring =? 0 then [] else
  [MmioStore (reg RDBAL) (u32 (V2P ring));
   MmioStore (reg RDBAH) (u32 0);
   MmioStore (reg RDLEN) (u32 PGSIZE);
   MmioStore (reg RDH) (u32 0);
   MmioStore (reg RDT) (u32 0)].

Definition init_rx_last_stores (dev : e1000_t) : list event :=
  let reg r := u32 (u32 (mmio_base dev + r)) in
  [MmioStore (reg RDT) (u32 (u32 (u32 (PGSIZE / sizeof_rx_desc) - 1)));
   MmioStore (reg RCTL) (u32 RCTL_VALUE)].

End Driver.

(** ** Reading a run *)

Definition world_of {A} (o : outcome A) : world :=
  match o with
  | Done _ w | Panic _ w | Hang w | Fault w => w
  end.

(** The descriptor indices read, in order. *)
Fixpoint desc_loads (t : list event) : list Z :=
  match t with
  | [] => []
  | RxDescLoad idx :: rest => idx :: desc_loads rest
  | _ :: rest => desc_loads rest
  end.

(** The stores to one register of the window, in order. *)
Fixpoint stores_to (a : Z) (t : list event) : list Z :=
  match t with
  | [] => []
  | MmioStore a' v :: rest =>
      if a' =? a then v :: stores_to a rest else stores_to a rest
  | _ :: rest => stores_to a rest
  end.

Definition is_arp_parse (e : event) : bool :=
  match e with
  | ArpPacketFromBuf _ | DumpArpPacket _ => true
  | _ => false
  end.

Definition is_config_select (e : event) : bool :=
  match e with
  | Outdw port _ => port =? PCI_CONFIG_ADDR
  | _ => false
  end.

Definition returned {A} (o : outcome A) : bool :=
  match o with
  | Done _ _ => true
  | _ => false
  end.

(** What the next [kalloc()] returns. *)
Definition first_page (l : list Z) : Z :=
  match l with
  | [] => 0
  | p :: _ => u32 p
  end.

Definition next_page (w : world) : Z := first_page (free_pages w).

(** The next [n] allocations all succeed. *)
Fixpoint pages_suffice (n : nat) (l : list Z) : bool :=
  match n with
  | O => true
  | S k => match l with
           | [] => false
           | p :: rest => negb (u32 p =? 0) && pages_suffice k rest
           end
  end.

(** ** Reference notions of the specification *)

(** The forward circular distance from [pos] to [head] on a ring of
    [slots] positions, by brute force: step forward, wrapping at [slots],
    and count the steps until [head] is reached. *)
Fixpoint ring_walk (fuel : nat) (slots pos head steps : Z) : option Z :=
  if pos =? head then Some steps
  else match fuel with
       | O => None
       | S f => ring_walk f slots ((pos + 1) mod slots) head (steps + 1)
       end.

Definition circular_distance (slots tail head : Z) : option Z :=
  ring_walk (Z.to_nat slots) slots tail head 0.

(** The card may write the slots from [head] up to, not including, [tail],
    going round a ring of [count] slots. *)
Definition hw_may_write (count head tail i : Z) : bool :=
  (i - head) mod count <? (tail - head) mod count.

(** The slots of the ring the card may not write. *)
Definition reserved_slots (count head tail : Z) : list Z :=
  filter (fun i => negb (hw_may_write count head tail i))
         (map Z.of_nat (seq 0 (Z.to_nat count))).

(** The identifiers of a slot as the configuration header lays them out:
    vendor in bytes 0-1, device in bytes 2-3, low byte first. *)
Definition vendor_of (space : Z -> Z) (dev : Z) : Z :=
  u8 (space (Z.lor (pci_dev_addr dev) 0))
  + 2 ^ 8 * u8 (space (Z.lor (pci_dev_addr dev) 1)).

Definition device_of (space : Z -> Z) (dev : Z) : Z :=
  u8 (space (Z.lor (pci_dev_addr dev) 2))
  + 2 ^ 8 * u8 (space (Z.lor (pci_dev_addr dev) 3)).

Definition slot_matches (space : Z -> Z) (dev : Z) : bool :=
  (vendor_of space dev =? VENDOR_ID) && (device_of space dev =? DEVICE_ID).

(** The first matching slot of [devs], or -1. *)
Definition first_match (space : Z -> Z) (devs : list Z) : Z :=
  match find (slot_matches space) devs with
  | Some dev => dev
  | None => -1
  end.

(** The EEPROM read request for word [i]. *)
Definition eerd_request (i : Z) : Z := Z.lor 0x00000001 (Z.shiftl i 8).

(** ** A concrete machine

    The values of xv6 on 32-bit x86 and wire-format decoders, used to run
    the driver on examples. *)

Definition bytes_at (m : mem) (a : Z) (n : nat) : list Z :=
  map (fun k => load8 m (a + Z.of_nat k)) (seq 0 n).

Definition be16 (m : mem) (a : Z) : Z := 2 ^ 8 * load8 m a + load8 m (a + 1).

(** Modelled from the spec: [eth_hdr_from_buf] of [eth.h], which is not
    part of the sources at hand: destination address, source address, then
    the ether-type in network byte order. *)
Definition wire_eth_hdr (m : mem) (a : Z) : eth_hdr :=
  mk_eth_hdr (bytes_at m a 6) (bytes_at m (a + 6) 6) (be16 m (a + 12)).

(** Modelled from the spec: [arp_packet_from_buf] of [eth.h], which is not
    part of the sources at hand: the fields of the standard ARP wire format
    for Ethernet and IPv4, in order. *)
Definition wire_arp_packet (m : mem) (a : Z) : arp_packet :=
  mk_arp_packet (be16 m a) (be16 m (a + 2)) (load8 m (a + 4)) (load8 m (a + 5))
    (be16 m (a + 6)) (bytes_at m (a + 8) 6) (bytes_at m (a + 14) 4)
    (bytes_at m (a + 18) 6) (bytes_at m (a + 24) 4).

Definition xv6_platform : Platform := {|
  PGSIZE := 4096;
  KERNBASE := 0x80000000;
  IRQ_PCI0 := 11;
  sizeof_eth_hdr := 14;
  sizeof_arp_packet := 28;
  eth_hdr_from_buf := wire_eth_hdr;
  arp_packet_from_buf := wire_arp_packet
|}.

(** A machine with 64-byte pages, hence a ring of four descriptors. *)
Definition tiny_platform : Platform := {|
  PGSIZE := 64;
  KERNBASE := 0x80000000;
  IRQ_PCI0 := 11;
  sizeof_eth_hdr := 14;
  sizeof_arp_packet := 28;
  eth_hdr_from_buf := wire_eth_hdr;
  arp_packet_from_buf := wire_arp_packet
|}.

Definition sample_mmio_base : Z := 0xFEBC0000.

(** Kernel pages, [size] bytes each. *)
Definition sample_pages (size : Z) (n : nat) : list Z :=
  map (fun k => 0x80400000 + size * Z.of_nat k) (seq 0 n).

(** The machine after a successful probe and MAC read: the register window
    is known, nothing is allocated yet. *)
Definition probed_world (free : list Z) (card : list (option Z)) : world :=
  mk_world (mk_e1000 sample_mmio_base [0x52; 0x54; 0x00; 0x12; 0x34; 0x56] 0 0 0 0 0)
    (fun _ => 0) 0 (fun _ => 0) free card [].

(** A machine whose ring of [count] descriptors is set up, with the tail
    and head registers holding [tail] and [head], and a quiet card. *)
Definition ring_world (count tail head : Z) : world :=
  mk_world (mk_e1000 sample_mmio_base [0x52; 0x54; 0x00; 0x12; 0x34; 0x56]
              0x80400000 count 0x80401000 0x80402000 0)
    (store32 (store32 (fun _ => 0) (sample_mmio_base + RDT) tail)
       (sample_mmio_base + RDH) head)
    0 (fun _ => 0) [] [] [].

(** A configuration space with the card in slot [slot] and nothing else. *)
Definition space_with_card (slot : Z) : Z -> Z :=
  fun a =>
    if a =? Z.lor (pci_dev_addr slot) 0 then 0x86
    else if a =? Z.lor (pci_dev_addr slot) 1 then 0x80
    else if a =? Z.lor (pci_dev_addr slot) 2 then 0x0E
    else if a =? Z.lor (pci_dev_addr slot) 3 then 0x10
    else if a =? Z.lor (pci_dev_addr slot) 18 then 0xBC
    else if a =? Z.lor (pci_dev_addr slot) 19 then 0xFE
    else 0xFF.

Definition boot_world (space : Z -> Z) (free : list Z) (card : list (option Z)) : world :=
  mk_world (mk_e1000 0 [0; 0; 0; 0; 0; 0] 0 0 0 0 0)
    (fun _ => 0) 0 space free card [].

(** The machine once [init_rx] has run on 4096-byte pages. *)
Definition initialized_world : world :=
  world_of (init_rx (P := xv6_platform)
              (probed_world (sample_pages 4096 258) [])).

(** The card has completed descriptors 0, 1 and 2 and moved the head to 3;
    then the receive path runs twice with no card activity in between. *)
Definition first_drain : world :=
  world_of (read_packets (P := xv6_platform)
              (set_device [None; Some 3] initialized_world)).

Definition second_drain : world :=
  world_of (read_packets (P := xv6_platform) first_drain).

(** A machine taking an interrupt with [mask] in the cause register while
    three completed descriptors wait in the ring. *)
Definition intr_world (mask : Z) : world :=
  set_memory (store32 (memory (ring_world 256 255 3)) (sample_mmio_base + ICR) mask)
    (ring_world 256 255 3).

(** A ring whose descriptor 0 is complete, with the end-of-packet flag, and
    points at a buffer holding a frame of ether-type [ty]. *)
Definition frame_world (ty : Z) : world :=
  let w := ring_world 256 255 1 in
  let m := store32 (memory w) 0x80400000 0x00500000 in
  let m := store32 m (0x80400000 + 8) 42 in
  let m := store32 m (0x80400000 + 12) 3 in
  let m := store8 m (0x80500000 + 12) (ty / 2 ^ 8) in
  let m := store8 m (0x80500000 + 13) ty in
  set_memory m w.

(** The allocator serves the descriptor ring, fails on the buffer list, and
    then serves every data buffer. *)
Definition list_alloc_fails_world : world :=
  probed_world (0x80400000 :: 0 :: tl (sample_pages 4096 257)) [].

(** After a probe the machine differs only in the selected configuration
    address and in the port writes that selected it. *)
Definition probe_only (w w' : world) : Prop :=
  e1000 w' = e1000 w /\ memory w' = memory w /\ pci_space w' = pci_space w
  /\ free_pages w' = free_pages w /\ device w' = device w
  /\ exists evs, trace w' = trace w ++ evs
                 /\ forallb is_config_select evs = true.

(** What the card answers to the loads of one EEPROM read: the register
    without the done bit for a while ([busy]), then with it ([ready]), then
    the value the driver takes the data from ([data]). *)
Definition eerd_answers (busy : list Z) (ready data : Z) : list (option Z) :=
  map Some busy ++ [Some ready; Some data].


(** ** Reference notions for the probe and the activation *)

(** The configuration reads the probe spends on one slot: the vendor
    identifier's bytes 1 and 0, then the device identifier's bytes 3 and 2. *)
Definition probe_selects (dev : Z) : list event :=
  map (fun i => Outdw PCI_CONFIG_ADDR (Z.lor (pci_dev_addr dev) i)) [1; 0; 3; 2].

(** The slots of [devs] up to and including the first that matches. *)
Fixpoint scanned (space : Z -> Z) (devs : list Z) : list Z :=
  match devs with
  | [] => []
  | dev :: rest =>
      dev :: (if slot_matches space dev then [] else scanned space rest)
  end.

(** The command register (bytes 4-5) and the first base address register
    (bytes 16-19) of a slot, low byte first. *)
Definition command_of (space : Z -> Z) (dev : Z) : Z :=
  u8 (space (Z.lor (pci_dev_addr dev) 4))
  + 2 ^ 8 * u8 (space (Z.lor (pci_dev_addr dev) 5)).

Definition bar0_of (space : Z -> Z) (dev : Z) : Z :=
  u8 (space (Z.lor (pci_dev_addr dev) 16))
  + 2 ^ 8 * u8 (space (Z.lor (pci_dev_addr dev) 17))
  + 2 ^ 16 * u8 (space (Z.lor (pci_dev_addr dev) 18))
  + 2 ^ 24 * u8 (space (Z.lor (pci_dev_addr dev) 19)).

(** The port writes, in order. *)
Fixpoint port_writes (t : list event) : list (Z * Z) :=
  match t with
  | [] => []
  | Outdw port v :: rest => (port, v) :: port_writes rest
  | _ :: rest => port_writes rest
  end.

(** The dwords written to configuration space, in order, each with the
    address word selected at the time of the write; [sel] is the address
    word selected at the start. *)
Fixpoint config_writes (sel : Z) (t : list event) : list (Z * Z) :=
  match t with
  | [] => []
  | Outdw port v :: rest =>
      if port =? PCI_CONFIG_ADDR then config_writes v rest
      else if port =? PCI_CONFIG_DATA then (sel, v) :: config_writes sel rest
      else config_writes sel rest
  | _ :: rest => config_writes sel rest
  end.

(** The calls of [ioapicenable], in order. *)
Fixpoint ioapic_calls (t : list event) : list (Z * Z) :=
  match t with
  | [] => []
  | Ioapicenable irq cpu :: rest => (irq, cpu) :: ioapic_calls rest
  | _ :: rest => ioapic_calls rest
  end.

(** What [e1000init] goes on to do once it knows the register window. *)
Definition bring_up {P : Platform} : M unit :=
  forM_ read_mac_word [0; 1; 2] ;;
  init_rx ;;
  init_tx ;;
  init_intr ;;
  ioapicenable IRQ_PCI0 0.

(** The port writes of the activation of slot [t]: the command register is
    read, written back with bit 2 set, and the base address is read. *)
Definition activation_writes (space : Z -> Z) (t : Z) : list event :=
  let addr := pci_dev_addr t in
  [Outdw PCI_CONFIG_ADDR (Z.lor addr 5); Outdw PCI_CONFIG_ADDR (Z.lor addr 4);
   Outdw PCI_CONFIG_ADDR (Z.lor addr 4);
   Outdw PCI_CONFIG_DATA (Z.lor (command_of space t) (Z.shiftl 1 2));
   Outdw PCI_CONFIG_ADDR (Z.lor addr 19); Outdw PCI_CONFIG_ADDR (Z.lor addr 18);
   Outdw PCI_CONFIG_ADDR (Z.lor addr 17); Outdw PCI_CONFIG_ADDR (Z.lor addr 16)].

(** The machine after the probe found slot [t] and activated it, with [d]
    as the driver's record. *)
Definition activated (w : world) (t : Z) (d : e1000_t) : world :=
  mk_world d (memory w) (Z.lor (pci_dev_addr t) 16) (pci_space w)
    (free_pages w) (device w)
    (trace w ++ flat_map probe_selects (scanned (pci_space w) [0; 1; 2; 3])
     ++ activation_writes (pci_space w) t).

(** The register stores of a successful [init_tx], in order. *)
Definition init_tx_stores {P : Platform} (dev : e1000_t) (ring : Z) : list event :=
  let reg r := u32 (u32 (mmio_base dev + r)) in
  [MmioStore (reg TDBAL) (u32 (V2P ring));
   MmioStore (reg TDBAH) (u32 0);
   MmioStore (reg TDLEN) (u32 PGSIZE);
   MmioStore (reg TDH) (u32 0);
   MmioStore (reg TDT) (u32 0);
   MmioStore (reg TCTL) (u32 TCTL_VALUE);
   MmioStore (reg TIPG) (u32 0xA)].

(** Events that are neither a store to the register at [a], nor a call of
    [ioapicenable], nor a port write. *)
Definition stores_elsewhere (a : Z) (evs : list event) : Prop :=
  stores_to a evs = [] /\ ioapic_calls evs = [] /\ port_writes evs = [].

(** A configuration space with the card in slot [slot], its first base
    address register holding [bar], and zero everywhere else. *)
Definition space_with_window (slot bar : Z) : Z -> Z :=
  fun a =>
    if a =? Z.lor (pci_dev_addr slot) 0 then 0x86
    else if a =? Z.lor (pci_dev_addr slot) 1 then 0x80
    else if a =? Z.lor (pci_dev_addr slot) 2 then 0x0E
    else if a =? Z.lor (pci_dev_addr slot) 3 then 0x10
    else if a =? Z.lor (pci_dev_addr slot) 16 then u8 bar
    else if a =? Z.lor (pci_dev_addr slot) 17 then u8 (bar / 2 ^ 8)
    else if a =? Z.lor (pci_dev_addr slot) 18 then u8 (bar / 2 ^ 16)
    else if a =? Z.lor (pci_dev_addr slot) 19 then u8 (bar / 2 ^ 24)
    else 0.

Definition is_port_write (e : event) : bool :=
  match e with
  | Outdw _ _ => true
  | _ => false
  end.

(** A machine at boot with configuration space [space], 260 free pages and
    an EEPROM that answers at once. *)
Definition card_world (space : Z -> Z) : world :=
  boot_world space (sample_pages 4096 260)
    (eerd_answers [] 0x54520011 0x54520011
     ++ eerd_answers [] 0x12000111 0x12000111
     ++ eerd_answers [] 0x56340211 0x56340211).

(** ** Memory layout *)

(** Two regions of the address space, given by start and size, do not
    overlap. *)
Definition apart (a sa b sb : Z) : Prop := a + sa <= b \/ b + sb <= a.

(** The pages are not null, end at or below [top], and no two of them
    overlap. *)
Definition distinct_pages (size top : Z) (pages : list Z) : Prop :=
  Forall (fun p => 0 < p /\ p + size <= top) pages
  /\ ForallOrdPairs (fun p q => apart p size q size) pages.

Section RingLayout.
Context {P : Platform}.

(** Slot [j] of the receive ring at [ring], with the buffer list at [list],
    is linked to the buffer page [p]: the list entry holds [p], the
    descriptor holds the page's physical address and zero in its other
    three words (length, checksum, status, errors), and the page is blank. *)
Definition slot_linked (m : mem) (ring list j p : Z) : Prop :=
  load32 m (list + 4 * j) = p
  /\ load32 m (ring + sizeof_rx_desc * j) = V2P p
  /\ load32 m (ring + sizeof_rx_desc * j + 4) = 0
  /\ load32 m (ring + sizeof_rx_desc * j + 8) = 0
  /\ load32 m (ring + sizeof_rx_desc * j + 12) = 0
  /\ forall x, 0 <= x < PGSIZE -> load8 m (p + x) = 0.

End RingLayout.

(** What [e1000init] goes on to do once it has the station address. *)
Definition finish_up {P : Platform} : M unit :=
  init_rx ;;
  init_tx ;;
  init_intr ;;
  ioapicenable IRQ_PCI0 0.

(** The same pages handed out from the highest address down, as an
    allocator does whose free list was filled from the lowest address up. *)
Definition descending_pages (size : Z) (n : nat) : list Z :=
  rev (sample_pages size n).

(** A machine at boot with 64-byte pages to give out: six for the receive
    side, one more for the transmit ring; the card sits in slot 2 and its
    EEPROM answers at once. *)
Definition tiny_card_world : world :=
  boot_world (space_with_window 2 sample_mmio_base)
    (descending_pages 64 6 ++ [0x80500000])
    (eerd_answers [] 0x54520011 0x54520011
     ++ eerd_answers [] 0x12000111 0x12000111
     ++ eerd_answers [] 0x56340211 0x56340211).

(** Unfolding the computation primitives. *)
Ltac run :=
  unfold cprintf, ioapicenable;
  unfold bind, ret, get_dev, put_dev, emit, ram_load32, ram_store32,
    ram_memset, panic, divide_fault, set_trace, set_e1000, set_memory,
    set_device, set_free_pages, set_pci_addr;
  cbn [e1000 memory pci_addr pci_space free_pages device trace
       mmio_base mac rx rx_count rx_buf tx packet_count].

(** * Properties

    ** Words and memory *)

Lemma u32_range x : 0 <= u32 x < 2 ^ 32.
Proof. unfold u32. apply Z.mod_pos_bound. lia. Qed.

Lemma u32_small x : 0 <= x < 2 ^ 32 -> u32 x = x.
Proof. unfold u32. intros. apply Z.mod_small. assumption. Qed.

Lemma u32_u32 x : u32 (u32 x) = u32 x.
Proof. unfold u32. apply Z.mod_mod. lia. Qed.

Lemma u8_range x : 0 <= u8 x < 256.
Proof. unfold u8. apply Z.mod_pos_bound. lia. Qed.

Lemma u32_shift_neq a k : 0 < k < 2 ^ 32 -> u32 (a + k) <> u32 a.
Proof.
  unfold u32. intros Hk E.
  assert (H : (a + k - a) mod 2 ^ 32 = 0).
  { rewrite Zminus_mod, E, Z.sub_diag. reflexivity. }
  replace (a + k - a) with k in H by lia.
  rewrite Z.mod_small in H; lia.
Qed.

Lemma u32_shift_neq2 a j k :
  0 <= j < k -> k < 2 ^ 32 -> u32 (a + k) <> u32 (a + j).
Proof.
  intros Hj Hk. replace (a + k) with ((a + j) + (k - j)) by lia.
  apply u32_shift_neq. lia.
Qed.

Lemma u8_u8 v : u8 (u8 v) = u8 v.
Proof. unfold u8. apply Z.mod_mod. lia. Qed.

Lemma bytes_of_u32 v :
  u8 v + 2 ^ 8 * u8 (v / 2 ^ 8) + 2 ^ 16 * u8 (v / 2 ^ 16)
  + 2 ^ 24 * u8 (v / 2 ^ 24) = u32 v.
Proof.
  unfold u8, u32.
  change (2 ^ 8) with 256. change (2 ^ 16) with 65536.
  change (2 ^ 24) with 16777216. change (2 ^ 32) with 4294967296.
  Z.div_mod_to_equations. lia.
Qed.

Lemma load32_store32 m a v : load32 (store32 m a v) a = u32 v.
Proof.
  unfold load32, store32, load8, store8.
  pose proof (u32_shift_neq a 1 ltac:(lia)) as N1.
  pose proof (u32_shift_neq a 2 ltac:(lia)) as N2.
  pose proof (u32_shift_neq a 3 ltac:(lia)) as N3.
  pose proof (u32_shift_neq2 a 1 2 ltac:(lia) ltac:(lia)) as N21.
  pose proof (u32_shift_neq2 a 1 3 ltac:(lia) ltac:(lia)) as N31.
  pose proof (u32_shift_neq2 a 2 3 ltac:(lia) ltac:(lia)) as N32.
  repeat match goal with
         | |- context [?x =? ?y] =>
             first [ rewrite (Z.eqb_refl x)
                   | rewrite (proj2 (Z.eqb_neq x y)) by congruence ]
         end.
  rewrite !u8_u8. apply bytes_of_u32.
Qed.

(** ** Ring arithmetic *)

Lemma mod_near (x m : Z) :
  - m <= x < m -> x mod m = if x <? 0 then x + m else x.
Proof.
  intros H. destruct (x <? 0) eqn:E.
  - apply Z.ltb_lt in E. symmetry. apply (Z.mod_unique x m (-1)); lia.
  - apply Z.ltb_ge in E. apply Z.mod_small. lia.
Qed.

Lemma ring_walk_reaches fuel : forall slots pos head steps,
  0 <= pos < slots -> 0 <= head < slots ->
  (head - pos) mod slots <= Z.of_nat fuel ->
  ring_walk fuel slots pos head steps = Some (steps + (head - pos) mod slots).
Proof.
  induction fuel as [|f IH]; intros slots pos head steps Hp Hh Hd.
  - rewrite mod_near in Hd |- * by lia. simpl.
    destruct (pos =? head) eqn:E.
    + apply Z.eqb_eq in E. subst. rewrite Z.sub_diag. simpl. f_equal. lia.
    + apply Z.eqb_neq in E. destruct (head - pos <? 0) eqn:E2;
        [apply Z.ltb_lt in E2 | apply Z.ltb_ge in E2]; lia.
  - cbn [ring_walk]. destruct (pos =? head) eqn:E.
    + apply Z.eqb_eq in E. subst. rewrite Z.sub_diag, Z.mod_0_l by lia.
      f_equal. lia.
    + apply Z.eqb_neq in E.
      assert (Hn : 0 <= (pos + 1) mod slots < slots)
        by (apply Z.mod_pos_bound; lia).
      assert (Hs : (head - (pos + 1) mod slots) mod slots
                   = (head - pos) mod slots - 1).
      { rewrite Zminus_mod_idemp_r.
        replace (head - (pos + 1)) with (head - pos - 1) by lia.
        rewrite (mod_near (head - pos)) by lia.
        destruct (head - pos <? 0) eqn:E2;
          [apply Z.ltb_lt in E2 | apply Z.ltb_ge in E2].
        - rewrite mod_near by lia.
          destruct (head - pos - 1 <? 0) eqn:E3;
            [apply Z.ltb_lt in E3 | apply Z.ltb_ge in E3]; lia.
        - rewrite mod_near by lia.
          destruct (head - pos - 1 <? 0) eqn:E3;
            [apply Z.ltb_lt in E3 | apply Z.ltb_ge in E3]; lia. }
      rewrite IH by lia. rewrite Hs. f_equal. lia.
Qed.

Lemma circular_distance_mod slots tail head :
  0 <= tail < slots -> 0 <= head < slots ->
  circular_distance slots tail head = Some ((head - tail) mod slots).
Proof.
  intros Ht Hh. unfold circular_distance.
  rewrite ring_walk_reaches; auto.
  pose proof (Z.mod_pos_bound (head - tail) slots ltac:(lia)). lia.
Qed.

Lemma rx_avail_in_range count head tail :
  0 <= count < 2 ^ 32 ->
  0 <= head < count - 1 -> 0 <= tail < count - 1 ->
  rx_avail count head tail
  = if head >? tail then head - tail else count - 1 - tail + head.
Proof.
  intros Hc Hh Ht. unfold rx_avail.
  destruct (head >? tail) eqn:E.
  - apply Z.gtb_lt in E. apply u32_small. lia.
  - rewrite Z.gtb_ltb in E. apply Z.ltb_ge in E.
    rewrite (u32_small (count - tail)) by lia.
    rewrite (u32_small (count - tail - 1)) by lia.
    rewrite u32_small by lia. lia.
Qed.

(** ** Traces *)

Lemma desc_loads_app t1 t2 : desc_loads (t1 ++ t2) = desc_loads t1 ++ desc_loads t2.
Proof.
  induction t1 as [|e t1 IH]; simpl; [reflexivity|].
  destruct e; simpl; rewrite ?IH; reflexivity.
Qed.

Lemma stores_to_app a t1 t2 : stores_to a (t1 ++ t2) = stores_to a t1 ++ stores_to a t2.
Proof.
  induction t1 as [|e t1 IH]; simpl; [reflexivity|].
  destruct e; simpl; rewrite ?IH; try reflexivity.
  destruct (addr =? a); simpl; rewrite ?IH; reflexivity.
Qed.

(** ** Running a computation step by step *)

Lemma bind_assoc {A B C} (c : M A) (k1 : A -> M B) (k : B -> M C) w :
  bind (bind c k1) k w = bind c (fun x => bind (k1 x) k) w.
Proof. unfold bind. destruct (c w); reflexivity. Qed.

Lemma kalloc_run w :
  kalloc w = Done (first_page (free_pages w))
               (set_free_pages (tl (free_pages w)) w).
Proof.
  unfold kalloc, first_page, set_free_pages.
  destruct w as [d m a s f c t]. cbn. destruct f; reflexivity.
Qed.

Lemma first_page_u32 l : u32 (first_page l) = first_page l.
Proof. destruct l; [reflexivity|apply u32_u32]. Qed.

Lemma bind_done {A B} (c : M A) (k : A -> M B) w a w' :
  c w = Done a w' -> bind c k w = k a w'.
Proof. intros H. unfold bind. rewrite H. reflexivity. Qed.

Lemma bind_panic {A B} (c : M A) (k : A -> M B) w msg w' :
  c w = Panic msg w' -> bind c k w = Panic msg w'.
Proof. intros H. unfold bind. rewrite H. reflexivity. Qed.

Lemma pci_byte_run a w :
  pci_byte a w
  = Done (u8 (pci_space w a))
      (set_pci_addr a (set_trace (trace w ++ [Outdw PCI_CONFIG_ADDR a]) w)).
Proof. reflexivity. Qed.

(** One primitive at a time, keeping the machine in normal form. *)
Ltac run_prim c w :=
  let r := eval cbv beta iota delta
             [ret get_dev put_dev emit cprintf ioapicenable ram_load32
              ram_store32 ram_memset mmio_store write_reg panic bind
              set_trace set_e1000 set_memory set_device set_free_pages
              set_pci_addr] in (c w) in
  eval cbn [e1000 memory pci_addr pci_space free_pages device trace
            mmio_base mac rx rx_count rx_buf tx packet_count] in r.

Ltac step :=
  match goal with
  | |- context [@bind ?A ?B ?c ?k ?w] =>
      let r := run_prim c w in
      lazymatch r with
      | Done ?a ?w' =>
          rewrite (bind_done c k w a w' (eq_refl : c w = Done a w'))
      | Panic ?m ?w' =>
          rewrite (bind_panic c k w m w' (eq_refl : c w = Panic m w'))
      end
  end;
  cbv beta zeta;
  cbn [e1000 memory pci_addr pci_space free_pages device trace
       mmio_base mac rx rx_count rx_buf tx packet_count].

Ltac finish c w :=
  let r := run_prim c w in change (c w) with r.

Ltac step_kalloc :=
  match goal with
  | |- context [@bind ?A ?B kalloc ?k ?w] =>
      rewrite (bind_done kalloc k w _ _ (kalloc_run w));
      unfold set_free_pages;
      cbn [e1000 memory pci_addr pci_space free_pages device trace
           mmio_base mac rx rx_count rx_buf tx packet_count];
      cbv beta zeta
  end.

Ltac step_pci :=
  match goal with
  | |- context [@bind ?A ?B (pci_byte ?a) ?k ?w] =>
      rewrite (bind_done (pci_byte a) k w _ _ (pci_byte_run a w));
      unfold set_pci_addr, set_trace;
      cbn [e1000 memory pci_addr pci_space free_pages device trace
           mmio_base mac rx rx_count rx_buf tx packet_count];
      cbv beta zeta
  end.

Ltac exec :=
  cbv beta zeta;
  repeat (first [rewrite bind_assoc; cbv beta zeta
                | step | step_kalloc | step_pci]).

Section ReceivePath.
Context {P : Platform}.

(** One round of the descriptor loop always returns; it reads exactly the
    descriptor [rx_idx], bumps the packet counter and touches nothing else
    of the machine. *)
Lemma read_packet_run i j w :
  exists evs,
    read_packet i j w
    = Done tt (mk_world
                 (mk_e1000 (mmio_base (e1000 w)) (mac (e1000 w)) (rx (e1000 w))
                    (rx_count (e1000 w)) (rx_buf (e1000 w)) (tx (e1000 w))
                    (u32 (packet_count (e1000 w) + 1)))
                 (memory w) (pci_addr w) (pci_space w) (free_pages w) (device w)
                 (trace w ++ RxDescLoad (rx_idx (rx_count (e1000 w)) i j) :: evs))
    /\ desc_loads evs = []
    /\ forall a, stores_to a evs = [].
Proof.
  unfold read_packet, dispatch_ether_type. exec.
  destruct (Z.shiftr _ 1 =? 0); exec.
  - match goal with |- context [put_dev ?d ?w] => finish (put_dev d) w end.
    eexists. split; [rewrite <- !app_assoc; reflexivity | split; reflexivity].
  - destruct (ether_type _ =? ETH_TYPE_IPV4); exec;
      [|destruct (ether_type _ =? ETH_TYPE_IPV6); exec;
        [|destruct (ether_type _ =? ETH_TYPE_ARP); exec]];
      match goal with |- context [put_dev ?d ?w] => finish (put_dev d) w end;
      (eexists; split; [rewrite <- !app_assoc; reflexivity | split; reflexivity]).
Qed.

Lemma read_packet_loop_run k : forall i j w,
  exists w',
    read_packet_loop k i j w = Done tt w'
    /\ mmio_base (e1000 w') = mmio_base (e1000 w)
    /\ rx_count (e1000 w') = rx_count (e1000 w)
    /\ memory w' = memory w
    /\ device w' = device w
    /\ stores_to (u32 (mmio_base (e1000 w) + RDT)) (trace w')
       = stores_to (u32 (mmio_base (e1000 w) + RDT)) (trace w)
    /\ desc_loads (trace w')
       = desc_loads (trace w)
         ++ map (fun n => rx_idx (rx_count (e1000 w)) i (j + Z.of_nat n)) (seq 0 k).
Proof.
  induction k as [|k IH]; intros i j w.
  - exists w. simpl. rewrite app_nil_r. repeat split; reflexivity.
  - destruct (read_packet_run i j w) as (evs & Hrun & Hevs & Hst).
    cbn [read_packet_loop]. unfold bind at 1. rewrite Hrun.
    match goal with |- context [read_packet_loop k i (j + 1) ?w1] =>
      destruct (IH i (j + 1) w1) as (w' & Hl & Hb & Hc & Hm & Hd & Hs & Ht)
    end.
    exists w'. cbn in Hb, Hc, Hm, Hd, Hs, Ht.
    repeat split; try assumption.
    + rewrite Hs, stores_to_app. cbn [stores_to]. rewrite Hst.
      apply app_nil_r.
    + rewrite Ht, desc_loads_app. cbn [desc_loads]. rewrite Hevs.
      rewrite <- app_assoc. f_equal. cbn [seq map app].
      rewrite Z.add_0_r. f_equal. rewrite <- seq_shift, map_map.
      apply map_ext. intros n. f_equal. lia.
Qed.

Lemma load8_range m a : 0 <= load8 m a < 256.
Proof. apply u8_range. Qed.

Lemma load32_range m a : 0 <= load32 m a < 2 ^ 32.
Proof.
  unfold load32.
  pose proof (load8_range m a). pose proof (load8_range m (a + 1)).
  pose proof (load8_range m (a + 2)). pose proof (load8_range m (a + 3)).
  change (2 ^ 8) with 256. change (2 ^ 16) with 65536.
  change (2 ^ 24) with 16777216. change (2 ^ 32) with 4294967296. lia.
Qed.

Lemma mmio_load_inv a w v w1 :
  mmio_load a w = Done v w1 ->
  e1000 w1 = e1000 w /\ trace w1 = trace w /\ 0 <= v < 2 ^ 32.
Proof.
  unfold mmio_load. destruct (device w) as [|[x|] rest]; intros H;
    inversion H; subst; cbn; repeat split; apply load32_range.
Qed.

Lemma read_reg_inv reg w v w1 :
  read_reg reg w = Done v w1 ->
  e1000 w1 = e1000 w /\ trace w1 = trace w /\ 0 <= v < 2 ^ 32.
Proof. unfold read_reg. run. apply mmio_load_inv. Qed.

Lemma read_reg_done reg w : exists v w1, read_reg reg w = Done v w1.
Proof.
  unfold read_reg, mmio_load. run.
  destruct (device w) as [|[x|] rest]; eauto.
Qed.

(** [read_packets] on a ring of at least two descriptors: it returns, reads
    the descriptors [rx_idx count (rx_start count tail) j] for [j] below
    [rx_avail count head tail], in order, and stores [rx_new_tail count head]
    into the tail register. *)
Lemma read_packets_run w tail head w1 w2 :
  read_reg RDT w = Done tail w1 ->
  read_reg RDH w1 = Done head w2 ->
  2 <= rx_count (e1000 w) < 2 ^ 32 ->
  let count := rx_count (e1000 w) in
  let rdt := u32 (mmio_base (e1000 w) + RDT) in
  exists w',
    read_packets w = Done tt w'
    /\ rx_count (e1000 w') = count
    /\ mmio_base (e1000 w') = mmio_base (e1000 w)
    /\ device w' = device w2
    /\ desc_loads (trace w')
       = desc_loads (trace w)
         ++ map (fun n => rx_idx count (rx_start count tail) (Z.of_nat n))
              (seq 0 (Z.to_nat (rx_avail count head tail)))
    /\ stores_to rdt (trace w')
       = stores_to rdt (trace w) ++ [u32 (rx_new_tail count head)]
    /\ load32 (memory w') rdt = u32 (rx_new_tail count head).
Proof.
  intros H1 H2 Hc count rdt.
  destruct (read_reg_inv _ _ _ _ H1) as (E1 & T1 & _).
  destruct (read_reg_inv _ _ _ _ H2) as (E2 & T2 & _).
  unfold read_packets. unfold bind at 1. rewrite H1.
  unfold bind at 1. rewrite H2. run.
  rewrite E2, E1. fold count.
  assert (Hm : (u32 (count - 1) =? 0) = false).
  { apply Z.eqb_neq. rewrite u32_small; subst count; lia. }
  rewrite Hm.
  destruct (read_packet_loop_run (Z.to_nat (rx_avail count head tail))
              (rx_start count tail) 0 w2)
    as (w' & Hl & Hb & Hcnt & Hmem & Hdev & Hs & Ht).
  rewrite Hl. unfold write_reg, mmio_store. run.
  rewrite E2, E1 in Hb, Hcnt, Hs, Ht. rewrite T2, T1 in Hs, Ht.
  fold count in Hcnt, Ht. fold rdt in Hs.
  rewrite Hb, Hcnt. fold rdt.
  eexists. split; [reflexivity|]. cbn.
  repeat split; try assumption.
  - rewrite desc_loads_app, Ht. simpl. rewrite app_nil_r. reflexivity.
  - rewrite stores_to_app, Hs. simpl.
    replace (u32 rdt) with rdt by (symmetry; apply u32_u32).
    rewrite Z.eqb_refl. reflexivity.
  - apply load32_store32.
Qed.

End ReceivePath.

(** ** The count of newly available descriptors *)

(** C1, counterexample. With head and tail both 7 on the 256-descriptor
    ring, the forward circular distance from tail to head is 0, but the
    receive path computes 255 and reads 255 descriptors. *)
Lemma rx_avail_equal_indices_not_distance :
  0 <= 7 < 256 - 1
  /\ circular_distance (256 - 1) 7 7 = Some 0
  /\ rx_avail 256 7 7 = 255
  /\ circular_distance (256 - 1) 7 7 <> Some (rx_avail 256 7 7)
  /\ List.length (desc_loads (trace (world_of
       (read_packets (P := xv6_platform) (ring_world 256 7 7))))) = 255%nat.
Proof.
  split; [lia|]. split; [reflexivity|]. split; [reflexivity|].
  split; [discriminate|]. vm_compute. reflexivity.
Qed.

(** C1, as amended. For head and tail in [0, capacity - 1) and different
    from each other, the count the receive path computes is the forward
    circular distance from tail to head on the ring of capacity - 1 usable
    slots, in the non-wrapped and in the wrapped case; for head equal to
    tail the count is capacity - 1, a full turn, while the distance is 0. *)
Theorem rx_avail_is_circular_distance count head tail :
  2 <= count < 2 ^ 32 ->
  0 <= head < count - 1 ->
  0 <= tail < count - 1 ->
  (head <> tail ->
   circular_distance (count - 1) tail head = Some (rx_avail count head tail))
  /\ (head = tail ->
      rx_avail count head tail = count - 1
      /\ circular_distance (count - 1) tail head = Some 0).
Proof.
  intros Hc Hh Ht.
  rewrite circular_distance_mod by lia.
  rewrite rx_avail_in_range by lia.
  rewrite mod_near by lia.
  destruct (head >? tail) eqn:E; [apply Z.gtb_lt in E|];
    [|rewrite Z.gtb_ltb in E; apply Z.ltb_ge in E];
    (destruct (head - tail <? 0) eqn:E2;
     [apply Z.ltb_lt in E2 | apply Z.ltb_ge in E2]);
    (split; intros; [f_equal; lia | split; [lia | f_equal; lia]]).
Qed.

Lemma rx_avail_is_circular_distance_witness :
  (3 <> 250 -> circular_distance (256 - 1) 250 3 = Some (rx_avail 256 3 250))
  /\ (3 = 250 ->
      rx_avail 256 3 250 = 256 - 1
      /\ circular_distance (256 - 1) 250 3 = Some 0).
Proof. apply (rx_avail_is_circular_distance 256 3 250); lia. Defined.

(** The receive path reads as many descriptors as [rx_avail] says. *)
Lemma read_packets_count (P : Platform) w tail head w1 w2 :
  read_reg RDT w = Done tail w1 ->
  read_reg RDH w1 = Done head w2 ->
  2 <= rx_count (e1000 w) < 2 ^ 32 ->
  List.length (desc_loads (trace (world_of (read_packets w))))
  = (List.length (desc_loads (trace w))
     + Z.to_nat (rx_avail (rx_count (e1000 w)) head tail))%nat.
Proof.
  intros H1 H2 Hc.
  destruct (read_packets_run w tail head w1 w2 H1 H2 Hc)
    as (w' & Hr & _ & _ & _ & Hl & _).
  rewrite Hr. cbn [world_of]. rewrite Hl.
  rewrite length_app, length_map, length_seq. reflexivity.
Qed.

(** Seen from a ring of the full capacity, the wrapped count is one short
    of the distance from tail to head. *)
Lemma rx_avail_wrapped_full_ring count head tail :
  2 <= count < 2 ^ 32 ->
  0 <= head < count - 1 -> 0 <= tail < count - 1 -> head < tail ->
  circular_distance count tail head = Some (rx_avail count head tail + 1).
Proof.
  intros Hc Hh Ht Hlt.
  rewrite circular_distance_mod by lia.
  rewrite rx_avail_in_range by lia.
  rewrite mod_near by lia.
  destruct (head >? tail) eqn:E; [apply Z.gtb_lt in E; lia|].
  destruct (head - tail <? 0) eqn:E2;
    [apply Z.ltb_lt in E2 | apply Z.ltb_ge in E2]; f_equal; lia.
Qed.

(** ** Draining twice *)

(** What the second of two back-to-back drains computes: the tail written
    by the first against the unchanged head. *)
Lemma rx_avail_after_drain count head :
  1 <= count < 2 ^ 32 -> 0 <= head < 2 ^ 32 ->
  rx_avail count head (rx_new_tail count head) = if head =? 0 then 0 else 1.
Proof.
  intros Hc Hh. unfold rx_avail, rx_new_tail.
  destruct (head =? 0) eqn:E0.
  - apply Z.eqb_eq in E0. subst head.
    rewrite (u32_small (count - 1)) by lia.
    destruct (0 >? count - 1) eqn:E; [apply Z.gtb_lt in E; lia|].
    replace (count - (count - 1)) with 1 by lia.
    reflexivity.
  - apply Z.eqb_neq in E0. rewrite (u32_small (head - 1)) by lia.
    destruct (head >? head - 1) eqn:E.
    + replace (head - (head - 1)) with 1 by lia. reflexivity.
    + rewrite Z.gtb_ltb in E. apply Z.ltb_ge in E. lia.
Qed.

(** C2, the code at the failing input. After initialization the card fills
    descriptors 0 to 2 (head 3). The first drain reads them and writes tail
    2, which is head - 1. The second drain, run at once, does not find zero
    descriptors: it reads descriptor 2 a second time and counts a fourth
    packet. *)
Theorem second_drain_rereads_last_descriptor :
  rx_count (e1000 initialized_world) = 256
  /\ desc_loads (trace first_drain) = [0; 1; 2]
  /\ stores_to (sample_mmio_base + RDT) (trace first_drain) = [0; 255; 3 - 1]
  /\ packet_count (e1000 first_drain) = 3
  /\ device first_drain = []
  /\ desc_loads (trace second_drain) = [0; 1; 2] ++ [2]
  /\ packet_count (e1000 second_drain) = 4.
Proof. vm_compute. repeat split; reflexivity. Qed.

(** ** The order of the descriptors read *)

(** C3, the code at the failing input. With tail 2 and head 5 on the
    256-descriptor ring the receive path reads descriptors 2, 3, 4, where
    (tail + 1 + j) mod 256 is 3, 4, 5; with tail 254 and head 1 it reads
    254 and then 0, where (tail + 1 + j) mod 256 is 255, 0. *)
Theorem read_packets_starts_at_tail :
  desc_loads (trace (world_of
    (read_packets (P := xv6_platform) (ring_world 256 2 5)))) = [2; 3; 4]
  /\ map (fun j => (2 + 1 + j) mod 256) [0; 1; 2] = [3; 4; 5]
  /\ desc_loads (trace (world_of
       (read_packets (P := xv6_platform) (ring_world 256 254 1)))) = [254; 0]
  /\ map (fun j => (254 + 1 + j) mod 256) [0; 1] = [255; 0].
Proof. vm_compute. repeat split; reflexivity. Qed.

(** What the receive path does read when both registers are within the
    ring: the j-th descriptor is the one at
    [(tail mod (count - 1) + j) mod (count - 1)]. *)
Lemma read_packets_order (P : Platform) w tail head w1 w2 :
  read_reg RDT w = Done tail w1 ->
  read_reg RDH w1 = Done head w2 ->
  2 <= rx_count (e1000 w) < 2 ^ 31 ->
  tail < rx_count (e1000 w) -> head < rx_count (e1000 w) ->
  let count := rx_count (e1000 w) in
  desc_loads (trace (world_of (read_packets w)))
  = desc_loads (trace w)
    ++ map (fun n => (tail mod (count - 1) + Z.of_nat n) mod (count - 1))
         (seq 0 (Z.to_nat (rx_avail count head tail))).
Proof.
  intros H1 H2 Hc Ht Hh count.
  assert (Hc' : 2 <= rx_count (e1000 w) < 2 ^ 32) by lia.
  destruct (read_packets_run w tail head w1 w2 H1 H2 Hc')
    as (w' & Hr & _ & _ & _ & Hl & _).
  rewrite Hr. cbn [world_of]. rewrite Hl. fold count. f_equal.
  destruct (read_reg_inv _ _ _ _ H1) as (_ & _ & Ht0).
  destruct (read_reg_inv _ _ _ _ H2) as (_ & _ & Hh0).
  fold count in Hc, Ht, Hh.
  assert (Hn : rx_avail count head tail <= count - 1).
  { unfold rx_avail. destruct (head >? tail) eqn:E.
    - apply Z.gtb_lt in E. rewrite u32_small; lia.
    - rewrite Z.gtb_ltb in E. apply Z.ltb_ge in E.
      rewrite (u32_small (count - tail)) by lia.
      rewrite (u32_small (count - tail - 1)) by lia.
      rewrite u32_small; lia. }
  apply map_ext_in. intros n Hin. apply in_seq in Hin.
  unfold rx_idx, rx_start. rewrite (u32_small (count - 1)) by lia.
  f_equal. apply u32_small.
  pose proof (Z.mod_pos_bound tail (count - 1) ltac:(lia)). lia.
Qed.

(** ** Descriptor reads stay inside the ring *)

Lemma rx_idx_bound count i j :
  2 <= count < 2 ^ 32 -> 0 <= rx_idx count i j < count - 1.
Proof.
  intros Hc. unfold rx_idx. rewrite (u32_small (count - 1)) by lia.
  apply Z.mod_pos_bound. lia.
Qed.

(** C10. Whatever the head and tail registers hold, on a ring of at least
    two descriptors the receive path returns and every descriptor index it
    reads is below rx_count - 1: no read leaves the ring page and the last
    slot, rx_count - 1, is never read. *)
Theorem read_packets_reads_in_bounds (P : Platform) w :
  2 <= rx_count (e1000 w) < 2 ^ 32 ->
  exists w' idxs,
    read_packets w = Done tt w'
    /\ desc_loads (trace w') = desc_loads (trace w) ++ idxs
    /\ Forall (fun idx => 0 <= idx < rx_count (e1000 w) - 1) idxs.
Proof.
  intros Hc.
  destruct (read_reg_done RDT w) as (tail & w1 & H1).
  destruct (read_reg_done RDH w1) as (head & w2 & H2).
  destruct (read_packets_run w tail head w1 w2 H1 H2 Hc)
    as (w' & Hr & _ & _ & _ & Hl & _).
  exists w'. eexists. split; [exact Hr|]. split; [exact Hl|].
  apply Forall_forall. intros idx Hin. apply in_map_iff in Hin.
  destruct Hin as (n & <- & _). apply rx_idx_bound. exact Hc.
Qed.

Lemma read_packets_reads_in_bounds_witness :
  exists w' idxs,
    read_packets (P := xv6_platform) (ring_world 256 0xFFFFFFFF 0x12345678)
    = Done tt w'
    /\ desc_loads (trace w')
       = desc_loads (trace (ring_world 256 0xFFFFFFFF 0x12345678)) ++ idxs
    /\ Forall (fun idx => 0 <= idx < 256 - 1) idxs.
Proof.
  apply (read_packets_reads_in_bounds xv6_platform
           (ring_world 256 0xFFFFFFFF 0x12345678)).
  cbn. lia.
Defined.

(** ** Testing one bit *)

Lemma land_bit x k :
  0 <= k -> Z.land x (Z.shiftl 1 k) = if Z.testbit x k then 2 ^ k else 0.
Proof.
  intros Hk. rewrite Z.shiftl_1_l. apply Z.bits_inj'. intros n Hn.
  rewrite Z.land_spec, Z.pow2_bits_eqb by assumption.
  destruct (Z.eqb_spec k n) as [->|Hne].
  - destruct (Z.testbit x n) eqn:E; simpl.
    + rewrite Z.pow2_bits_true; auto.
    + rewrite Z.bits_0. reflexivity.
  - rewrite andb_false_r. destruct (Z.testbit x k).
    + rewrite Z.pow2_bits_false; auto.
    + rewrite Z.bits_0. reflexivity.
Qed.

Lemma land_bit_zero x k :
  0 <= k -> (Z.land x (Z.shiftl 1 k) =? 0) = negb (Z.testbit x k).
Proof.
  intros Hk. rewrite land_bit by assumption.
  destruct (Z.testbit x k); simpl; [|reflexivity].
  apply Z.eqb_neq. pose proof (Z.pow_pos_nonneg 2 k ltac:(lia) Hk). lia.
Qed.

(** ** The interrupt handler *)

(** C5, counterexample. With cause bits 0 and 7 both set (mask 0x81) the
    handler logs the transmit write-back and does not run the receive path,
    which would have read the three waiting descriptors and written the
    tail register. *)
Lemma e1000_intr_both_causes_skips_receive :
  Z.testbit 0x81 7 = true
  /\ load32 (memory (intr_world 0x81)) (sample_mmio_base + ICR) = 0x81
  /\ trace (world_of (e1000_intr (P := xv6_platform) (intr_world 0x81)))
     = [Cprintf "transmit descriptor writeback\n" [0x81]]
  /\ desc_loads (trace (world_of
       (read_packets (P := xv6_platform) (intr_world 0x81)))) = [0; 1; 2]
  /\ e1000_intr (P := xv6_platform) (intr_world 0x81)
     <> read_packets (P := xv6_platform) (intr_world 0x81).
Proof.
  split; [reflexivity|]. split; [vm_compute; reflexivity|].
  split; [vm_compute; reflexivity|]. split; [vm_compute; reflexivity|].
  intros H. apply (f_equal (fun o => desc_loads (trace (world_of o)))) in H.
  vm_compute in H. discriminate H.
Qed.

(** C5, as amended. For every value read from the interrupt cause
    register: if bit 0 (transmit descriptor write-back) is set the handler
    makes one log entry and does nothing else, whatever bit 7 is; if bit 0
    is clear and bit 7 (receive timer) is set it runs the receive path; if
    both are clear it does nothing, whatever the other bits are. *)
Theorem e1000_intr_dispatch (P : Platform) w mask w1 :
  read_reg ICR w = Done mask w1 ->
  (Z.testbit mask 0 = true ->
   e1000_intr w
   = Done tt (set_trace
                (trace w1 ++ [Cprintf "transmit descriptor writeback\n" [mask]]) w1))
  /\ (Z.testbit mask 0 = false -> Z.testbit mask 7 = true ->
      e1000_intr w = read_packets w1)
  /\ (Z.testbit mask 0 = false -> Z.testbit mask 7 = false ->
      e1000_intr w = Done tt w1).
Proof.
  intros H. unfold e1000_intr, bind. rewrite H.
  unfold TXDW, RXT0. rewrite !land_bit_zero, !negb_involutive by lia.
  repeat split; intros; repeat match goal with
    | E : Z.testbit _ _ = _ |- _ => rewrite E; clear E end; reflexivity.
Qed.

Lemma e1000_intr_dispatch_witness :
  (Z.testbit 0x80 0 = true ->
   e1000_intr (P := xv6_platform) (intr_world 0x80)
   = Done tt (set_trace
                (trace (intr_world 0x80)
                 ++ [Cprintf "transmit descriptor writeback\n" [0x80]])
                (intr_world 0x80)))
  /\ (Z.testbit 0x80 0 = false -> Z.testbit 0x80 7 = true ->
      e1000_intr (P := xv6_platform) (intr_world 0x80)
      = read_packets (P := xv6_platform) (intr_world 0x80))
  /\ (Z.testbit 0x80 0 = false -> Z.testbit 0x80 7 = false ->
      e1000_intr (P := xv6_platform) (intr_world 0x80) = Done tt (intr_world 0x80)).
Proof.
  apply (e1000_intr_dispatch xv6_platform (intr_world 0x80) 0x80 (intr_world 0x80)).
  unfold read_reg, mmio_load. run. f_equal. vm_compute. reflexivity.
Defined.

(** ** Header dispatch *)

Lemma u32_add_u32_r a b : u32 (a + u32 b) = u32 (a + b).
Proof. unfold u32. apply Zplus_mod_idemp_r. Qed.

(** One round of the receive loop on a descriptor whose end-of-packet flag
    (bit 1 of the second status word) is set: the Ethernet header at the
    start of the buffer is decoded and dumped whatever the ether-type; for
    ether-type 0x0806 an ARP packet right behind the Ethernet header is
    decoded and dumped; for 0x0800 and 0x86DD only the type name is logged;
    every other type is logged as unknown. *)
Lemma read_packet_round_dispatch (P : Platform) w i j :
  let dev := e1000 w in
  let idx := rx_idx (rx_count dev) i j in
  let d := u32 (rx dev + sizeof_rx_desc * idx) in
  let buffer := P2V (load32 (memory w) d) in
  let hdr := eth_hdr_from_buf (memory w) buffer in
  let arp_at := u32 (buffer + sizeof_eth_hdr) in
  Z.testbit (load32 (memory w) (d + 12)) 1 = true ->
  exists lines mid,
    trace (world_of (read_packet i j w))
    = trace w ++ RxDescLoad idx :: lines
      ++ [EthHdrFromBuf buffer] ++ mid ++ [DumpEthHdr hdr; Cprintf "\n\n" []]
    /\ lines = [Cprintf "packet count: %d\n" [packet_count dev];
                Cprintf "buffer: 0x%x\n" [buffer];
                Cprintf "packet size: %d\n" [Z.land (load32 (memory w) (d + 8)) 0xFF];
                Cprintf "end of packet: %d\n" [1]]
    /\ (ether_type hdr = 0x0806 ->
        mid = [Cprintf "ETH_TYPE_ARP\n" []; ArpPacketFromBuf arp_at;
               DumpArpPacket (arp_packet_from_buf (memory w) arp_at)])
    /\ (ether_type hdr = 0x0800 ->
        mid = [Cprintf "ETH_TYPE_IPV4\n" []])
    /\ (ether_type hdr = 0x86DD ->
        mid = [Cprintf "ETH_TYPE_IPV6\n" []])
    /\ (ether_type hdr <> 0x0806 -> ether_type hdr <> 0x0800 ->
        ether_type hdr <> 0x86DD ->
        mid = [Cprintf "ETH_TYPE_UNKNOWN\n" []])
    /\ (ether_type hdr <> 0x0806 -> existsb is_arp_parse mid = false).
Proof.
  intros dev idx d buffer hdr arp_at Heop.
  assert (Hflag : Z.shiftr (Z.land (load32 (memory w) (d + 12)) EOP) 1 = 1).
  { unfold EOP. rewrite land_bit, Heop by lia. reflexivity. }
  subst arp_at hdr buffer d idx dev.
  unfold read_packet, dispatch_ether_type. exec.
  rewrite Hflag. change (1 =? 0) with false. cbv iota. exec.
  rewrite u32_add_u32_r.
  unfold ETH_TYPE_IPV4, ETH_TYPE_IPV6, ETH_TYPE_ARP.
  set (hdr := eth_hdr_from_buf (memory w) _).
  set (lines := [Cprintf "packet count: %d\n" _; _; _; Cprintf "end of packet: %d\n" _]).
  exists lines.
  destruct (Z.eqb_spec (ether_type hdr) 2048) as [E4|E4];
    [|destruct (Z.eqb_spec (ether_type hdr) 34525) as [E6|E6];
      [|destruct (Z.eqb_spec (ether_type hdr) 2054) as [Ea|Ea]]];
    exec;
    match goal with |- context [put_dev ?d ?w] => finish (put_dev d) w end;
    cbn [world_of trace]; rewrite <- !app_assoc; cbn [app].
  - exists [Cprintf "ETH_TYPE_IPV4\n" []].
    repeat split; intros; try reflexivity; congruence.
  - exists [Cprintf "ETH_TYPE_IPV6\n" []].
    repeat split; intros; try reflexivity; congruence.
  - eexists [Cprintf "ETH_TYPE_ARP\n" []; ArpPacketFromBuf _; DumpArpPacket _].
    repeat split; intros; try reflexivity; congruence.
  - exists [Cprintf "ETH_TYPE_UNKNOWN\n" []].
    repeat split; intros; try reflexivity; congruence.
Qed.

(** The descriptor loop returns and only adds to the trace. *)
Lemma read_packet_loop_extends {P : Platform} k : forall i j w,
  exists w' post,
    read_packet_loop k i j w = Done tt w'
    /\ trace w' = trace w ++ post
    /\ mmio_base (e1000 w') = mmio_base (e1000 w)
    /\ rx_count (e1000 w') = rx_count (e1000 w).
Proof.
  induction k as [|k IH]; intros i j w.
  - exists w, []. rewrite app_nil_r. repeat split.
  - destruct (read_packet_run i j w) as (evs & Hrun & _).
    cbn [read_packet_loop]. rewrite (bind_done _ _ _ _ _ Hrun).
    match goal with |- context [read_packet_loop k i (j + 1) ?w1] =>
      destruct (IH i (j + 1) w1) as (w' & post & Hl & Ht & Hb & Hc)
    end.
    cbn [trace e1000 mmio_base rx_count] in Ht, Hb, Hc.
    eexists w', (_ :: evs ++ post). split; [exact Hl|].
    split; [|split; assumption].
    rewrite Ht, <- app_assoc. reflexivity.
Qed.

(** Round [n] of the descriptor loop: it starts in a machine with the
    memory and the ring of the start of the loop, after the [n] earlier
    descriptors have been read, and what it logs is part of what the loop
    logs. *)
Lemma read_packet_loop_round {P : Platform} k : forall i j w n,
  (n < k)%nat ->
  exists w' wn pre post,
    read_packet_loop k i j w = Done tt w'
    /\ memory wn = memory w
    /\ rx (e1000 wn) = rx (e1000 w)
    /\ rx_count (e1000 wn) = rx_count (e1000 w)
    /\ trace wn = trace w ++ pre
    /\ desc_loads pre
       = map (fun m => rx_idx (rx_count (e1000 w)) i (j + Z.of_nat m)) (seq 0 n)
    /\ trace w' = trace (world_of (read_packet i (j + Z.of_nat n) wn)) ++ post
    /\ mmio_base (e1000 w') = mmio_base (e1000 w)
    /\ rx_count (e1000 w') = rx_count (e1000 w).
Proof.
  induction k as [|k IH]; intros i j w n Hn; [lia|].
  destruct (read_packet_run i j w) as (evs & Hrun & Hevs & _).
  cbn [read_packet_loop]. rewrite (bind_done _ _ _ _ _ Hrun).
  destruct n as [|n].
  - match goal with |- context [read_packet_loop k i (j + 1) ?w1] =>
      destruct (read_packet_loop_extends k i (j + 1) w1)
        as (w' & post & Hl & Ht & Hb & Hc)
    end.
    cbn [trace e1000 mmio_base rx_count] in Ht, Hb, Hc.
    exists w', w, [], post. rewrite app_nil_r, Z.add_0_r, Hrun.
    cbn [world_of trace]. repeat split; assumption.
  - match goal with |- context [read_packet_loop k i (j + 1) ?w1] =>
      destruct (IH i (j + 1) w1 n ltac:(lia))
        as (w' & wn & pre & post & Hl & Hm & Hx & Hc & Hp & Hd & Ht & Hb & Hc')
    end.
    cbn [trace e1000 memory mmio_base rx rx_count] in Hm, Hx, Hc, Hp, Hd, Hb, Hc'.
    exists w', wn, ((RxDescLoad (rx_idx (rx_count (e1000 w)) i j) :: evs) ++ pre),
      post.
    split; [exact Hl|]. do 3 (split; [assumption|]).
    split; [rewrite Hp, <- !app_assoc; reflexivity|].
    split; [|split; [|split; assumption]].
    + rewrite desc_loads_app. cbn [desc_loads]. rewrite Hevs, Hd.
      cbn [app seq map]. rewrite Z.add_0_r. f_equal.
      rewrite <- seq_shift, map_map. apply map_ext. intros m. f_equal. lia.
    + replace (j + Z.of_nat (S n)) with (j + 1 + Z.of_nat n) by lia. exact Ht.
Qed.

(** C7. In a drain, for every descriptor the pipeline reads whose
    end-of-packet flag (bit 1 of the second status word) is set: right
    after the descriptor is read and its four lines are logged, the
    Ethernet header at the start of the buffer is decoded, and it is
    dumped whatever the ether-type; for ether-type 0x0806 an ARP packet
    right behind the Ethernet header is decoded and that very packet is
    dumped; for 0x0800 and 0x86DD only the type name is logged and no ARP
    packet is decoded; every other type is logged as unknown. The
    descriptor is the [j]-th the drain reads: exactly [j] descriptors are
    read before it. *)
Theorem read_packets_dispatch (P : Platform) w tail head w1 w2 j :
  read_reg RDT w = Done tail w1 ->
  read_reg RDH w1 = Done head w2 ->
  2 <= rx_count (e1000 w) < 2 ^ 32 ->
  let count := rx_count (e1000 w) in
  let idx := rx_idx count (rx_start count tail) j in
  let d := u32 (rx (e1000 w) + sizeof_rx_desc * idx) in
  let buffer := P2V (load32 (memory w2) d) in
  let hdr := eth_hdr_from_buf (memory w2) buffer in
  let arp_at := u32 (buffer + sizeof_eth_hdr) in
  0 <= j < rx_avail count head tail ->
  Z.testbit (load32 (memory w2) (d + 12)) 1 = true ->
  exists w' pre post c mid,
    read_packets w = Done tt w'
    /\ trace w'
       = trace w ++ pre
         ++ (RxDescLoad idx
             :: [Cprintf "packet count: %d\n" [c];
                 Cprintf "buffer: 0x%x\n" [buffer];
                 Cprintf "packet size: %d\n"
                   [Z.land (load32 (memory w2) (d + 8)) 0xFF];
                 Cprintf "end of packet: %d\n" [1]]
             ++ [EthHdrFromBuf buffer] ++ mid
             ++ [DumpEthHdr hdr; Cprintf "\n\n" []])
         ++ post
    /\ desc_loads pre
       = map (fun n => rx_idx count (rx_start count tail) (Z.of_nat n))
           (seq 0 (Z.to_nat j))
    /\ (ether_type hdr = 0x0806 ->
        mid = [Cprintf "ETH_TYPE_ARP\n" []; ArpPacketFromBuf arp_at;
               DumpArpPacket (arp_packet_from_buf (memory w2) arp_at)])
    /\ (ether_type hdr = 0x0800 ->
        mid = [Cprintf "ETH_TYPE_IPV4\n" []])
    /\ (ether_type hdr = 0x86DD ->
        mid = [Cprintf "ETH_TYPE_IPV6\n" []])
    /\ (ether_type hdr <> 0x0806 -> ether_type hdr <> 0x0800 ->
        ether_type hdr <> 0x86DD ->
        mid = [Cprintf "ETH_TYPE_UNKNOWN\n" []])
    /\ (ether_type hdr <> 0x0806 -> existsb is_arp_parse mid = false).
Proof.
  intros H1 H2 Hc count idx d buffer hdr arp_at Hj Heop.
  destruct (read_reg_inv _ _ _ _ H1) as (E1 & T1 & _).
  destruct (read_reg_inv _ _ _ _ H2) as (E2 & T2 & _).
  assert (Ew : e1000 w2 = e1000 w) by congruence.
  assert (Tw : trace w2 = trace w) by congruence.
  destruct (read_packet_loop_round (Z.to_nat (rx_avail count head tail))
              (rx_start count tail) 0 w2 (Z.to_nat j) ltac:(lia))
    as (w3 & wn & pre & post & Hl & Hm & Hx & Hn & Hp & Hd & Ht & Hb & Hc').
  rewrite Ew in Hx, Hn, Hd, Hb, Hc'. fold count in Hn, Hd, Hc'.
  rewrite Tw in Hp. rewrite Z.add_0_l, Z2Nat.id in Ht by lia.
  destruct (read_packet_round_dispatch P wn (rx_start count tail) j)
    as (lines & mid & Hr & Hlines & Hmid);
    rewrite ?Hm, ?Hx, ?Hn; fold idx d; [exact Heop|].
  rewrite Hm, Hx, Hn in Hr, Hlines, Hmid.
  fold idx d buffer hdr arp_at in Hr, Hlines, Hmid.
  rewrite Hr, Hp, Hlines in Ht.
  unfold read_packets.
  rewrite (bind_done _ _ _ _ _ H1), (bind_done _ _ _ _ _ H2). exec.
  rewrite Ew. fold count.
  rewrite (proj2 (Z.eqb_neq (u32 (count - 1)) 0))
    by (rewrite u32_small; subst count; lia).
  rewrite (bind_done _ _ _ _ _ Hl). exec.
  match goal with |- context [write_reg ?r ?v ?w] =>
    finish (write_reg r v) w end.
  exists (set_trace
            (trace w3 ++ [MmioStore (u32 (u32 (mmio_base (e1000 w3) + RDT)))
                            (u32 (rx_new_tail (rx_count (e1000 w3)) head))])
            (set_memory
               (store32 (memory w3) (u32 (mmio_base (e1000 w3) + RDT))
                  (rx_new_tail (rx_count (e1000 w3)) head)) w3)),
    pre,
    (post ++ [MmioStore (u32 (u32 (mmio_base (e1000 w3) + RDT)))
                (u32 (rx_new_tail (rx_count (e1000 w3)) head))]),
    (packet_count (e1000 wn)), mid.
  split; [reflexivity|]. split.
  - cbn [trace set_trace]. rewrite Ht, <- !app_assoc. reflexivity.
  - split; [|exact Hmid].
    rewrite Hd. apply map_ext. intros n. rewrite Z.add_0_l. reflexivity.
Qed.

Lemma read_packets_dispatch_witness :
  exists w' pre post c mid,
    read_packets (P := xv6_platform) (frame_world 0x0806) = Done tt w'
    /\ trace w'
       = trace (frame_world 0x0806) ++ pre
         ++ (RxDescLoad 0
             :: [Cprintf "packet count: %d\n" [c];
                 Cprintf "buffer: 0x%x\n" [0x80500000];
                 Cprintf "packet size: %d\n" [42];
                 Cprintf "end of packet: %d\n" [1]]
             ++ [EthHdrFromBuf 0x80500000] ++ mid
             ++ [DumpEthHdr
                   (wire_eth_hdr (memory (frame_world 0x0806)) 0x80500000);
                 Cprintf "\n\n" []])
         ++ post
    /\ desc_loads pre = []
    /\ mid = [Cprintf "ETH_TYPE_ARP\n" []; ArpPacketFromBuf (0x80500000 + 14);
              DumpArpPacket
                (wire_arp_packet (memory (frame_world 0x0806)) (0x80500000 + 14))].
Proof.
  destruct (read_packets_dispatch xv6_platform (frame_world 0x0806) 255 1
              (frame_world 0x0806) (frame_world 0x0806) 0)
    as (w' & pre & post & c & mid & Hr & Ht & Hd & Harp & _).
  - unfold read_reg, mmio_load. run. f_equal; vm_compute; reflexivity.
  - unfold read_reg, mmio_load. run. f_equal; vm_compute; reflexivity.
  - cbn. lia.
  - split; [lia|vm_compute; reflexivity].
  - vm_compute. reflexivity.
  - exists w', pre, post, c, mid. split; [exact Hr|]. split; [|split].
    + exact Ht.
    + exact Hd.
    + apply Harp. vm_compute. reflexivity.
Defined.

(** ** Receive initialization *)

Section ReceiveInit.
Context {P : Platform}.

Lemma init_rx_slot_run i w :
  exists w',
    trace w' = trace w /\ e1000 w' = e1000 w
    /\ free_pages w' = tl (free_pages w)
    /\ init_rx_slot i w
       = if next_page w =? 0
         then Panic "failed to allocate buffer\n" w' else Done tt w'.
Proof.
  unfold init_rx_slot, next_page. exec.
  rewrite load32_store32, first_page_u32.
  destruct (first_page (free_pages w) =? 0); exec.
  - eexists (mk_world _ _ _ _ _ _ _). cbn [trace e1000 free_pages].
    repeat split.
  - match goal with |- context [ram_store32 ?a ?v ?w] =>
      finish (ram_store32 a v) w end.
    eexists (mk_world _ _ _ _ _ _ _). cbn [trace e1000 free_pages].
    repeat split.
Qed.

Lemma init_rx_slots_run n : forall i w,
  exists w',
    trace w' = trace w /\ e1000 w' = e1000 w
    /\ init_rx_slots n i w
       = if pages_suffice n (free_pages w)
         then Done tt w' else Panic "failed to allocate buffer\n" w'.
Proof.
  induction n as [|n IH]; intros i w.
  - exists w. repeat split.
  - destruct (init_rx_slot_run i w) as (w1 & T1 & E1 & F1 & H1).
    cbn [init_rx_slots pages_suffice]. unfold bind. rewrite H1.
    unfold next_page, first_page.
    destruct (free_pages w) as [|p rest]; cbn [negb andb].
    + exists w1. repeat split; assumption.
    + destruct (u32 p =? 0); cbn [negb andb].
      * exists w1. repeat split; assumption.
      * destruct (IH (i + 1) w1) as (w2 & T2 & E2 & H2).
        exists w2. split; [congruence|]. split; [congruence|].
        rewrite H2, F1. reflexivity.
Qed.

(** Every run of [init_rx]: it stops in one of its two panics with the
    receive-control register not yet written, or it returns having written
    head, tail and the control register. Which of the three happens depends
    on the first allocation and on those of the buffer loop, and not on
    the allocation of the buffer list between them. *)
Lemma init_rx_outcomes w :
  let ok := pages_suffice (Z.to_nat (u32 (PGSIZE / sizeof_rx_desc)))
              (tl (tl (free_pages w))) in
  exists w',
    init_rx w
    = (if next_page w =? 0
       then Panic "failed to allocate recieve descriptor buffer\n" w'
       else if ok then Done tt w'
       else Panic "failed to allocate buffer\n" w')
    /\ trace w'
       = trace w ++ init_rx_first_stores (e1000 w) (next_page w)
         ++ (if negb (next_page w =? 0) && ok
             then init_rx_last_stores (e1000 w) else [])
    /\ mmio_base (e1000 w') = mmio_base (e1000 w)
    /\ (next_page w <> 0 ->
        rx_count (e1000 w') = u32 (PGSIZE / sizeof_rx_desc)
        /\ rx_buf (e1000 w') = first_page (tl (free_pages w))).
Proof.
  intros ok.
  unfold init_rx, init_rx_first_stores, init_rx_last_stores, next_page.
  exec.
  destruct (Z.eqb_spec (first_page (free_pages w)) 0) as [E|E]; exec.
  - eexists. split; [reflexivity|]. cbn [trace e1000 mmio_base negb andb].
    rewrite <- !app_assoc. repeat split; contradiction.
  - match goal with
    | |- context [bind (init_rx_slots ?n ?i) _ ?w1] =>
        destruct (init_rx_slots_run n i w1) as (w2 & T2 & E2 & H2)
    end.
    unfold bind at 1. rewrite H2. cbn [free_pages trace e1000] in *.
    fold ok. cbn [negb andb]. destruct ok.
    + exec.
      match goal with |- context [write_reg ?r ?v ?w] =>
        finish (write_reg r v) w end.
      rewrite E2, T2. cbn [mmio_base rx_count].
      eexists. split; [reflexivity|].
      cbn [e1000 trace mmio_base rx_count rx_buf].
      rewrite <- !app_assoc. repeat split.
    + exists w2. split; [reflexivity|].
      rewrite T2, E2. cbn [mmio_base rx_count rx_buf].
      rewrite <- !app_assoc, app_nil_r. repeat split.
Qed.

End ReceiveInit.

Lemma reg_addr_neq base r1 r2 :
  0 <= r1 < 2 ^ 32 -> 0 <= r2 < 2 ^ 32 -> r1 <> r2 ->
  (u32 (base + r1) =? u32 (base + r2)) = false.
Proof.
  intros H1 H2 Hne. apply Z.eqb_neq.
  destruct (Z.lt_total r1 r2) as [Hlt|[Heq|Hgt]]; [|contradiction|].
  - intros E. symmetry in E. revert E. apply u32_shift_neq2; lia.
  - apply u32_shift_neq2; lia.
Qed.

Lemma filter_none {A} (f : A -> bool) l :
  (forall x, In x l -> f x = false) -> filter f l = [].
Proof.
  induction l as [|a l IH]; intros H; simpl; [reflexivity|].
  rewrite (H a) by (left; reflexivity). apply IH.
  intros x Hx. apply H. right. exact Hx.
Qed.

(** With head 0 and tail [count - 1] the card may write every slot but the
    last. *)
Lemma reserved_slots_after_init count :
  1 <= count -> reserved_slots count 0 (count - 1) = [count - 1].
Proof.
  intros Hc. unfold reserved_slots.
  replace (Z.to_nat count) with (S (Z.to_nat (count - 1))) by lia.
  rewrite seq_S, map_app, filter_app. cbn [map filter Nat.add].
  rewrite filter_none.
  - unfold hw_may_write. rewrite !Z.sub_0_r, Z2Nat.id by lia.
    rewrite !Z.mod_small by lia. rewrite Z.ltb_irrefl. reflexivity.
  - intros x Hx. apply in_map_iff in Hx. destruct Hx as (n & <- & Hn).
    apply in_seq in Hn. unfold hw_may_write. rewrite !Z.sub_0_r.
    rewrite !Z.mod_small by lia.
    apply negb_false_iff. apply Z.ltb_lt. lia.
Qed.

(** C6. Once receive initialization has completed, the ring capacity is
    the page size divided by the descriptor size, head and tail were
    written 0 and the last store to the tail register wrote capacity - 1:
    of the ring's slots exactly one, the last, is not available to the
    card. *)
Theorem init_rx_ring_capacity (P : Platform) w w' :
  16 <= PGSIZE < 2 ^ 32 ->
  init_rx w = Done tt w' ->
  let count := rx_count (e1000 w') in
  let reg r := u32 (mmio_base (e1000 w) + r) in
  count = PGSIZE / sizeof_rx_desc
  /\ (exists before,
        trace w' = trace w ++ before
                   ++ [MmioStore (reg RDH) 0; MmioStore (reg RDT) 0;
                       MmioStore (reg RDT) (count - 1);
                       MmioStore (reg RCTL) RCTL_VALUE])
  /\ last (stores_to (reg RDT) (trace w')) (-1) = count - 1
  /\ reserved_slots count 0 (count - 1) = [count - 1]
  /\ List.length (reserved_slots count 0 (count - 1)) = 1%nat.
Proof.
  intros Hpg Hrun count reg.
  assert (Hq : 1 <= PGSIZE / sizeof_rx_desc < 2 ^ 32).
  { unfold sizeof_rx_desc. split.
    - apply Z.div_le_lower_bound; lia.
    - apply Z.div_lt_upper_bound; lia. }
  destruct (init_rx_outcomes w) as (w0 & H & Ht & _ & Hf).
  cbv zeta in H, Ht.
  destruct (Z.eqb_spec (next_page w) 0) as [Hn|Hn];
    [rewrite H in Hrun; discriminate Hrun|].
  destruct (pages_suffice _ _);
    [|rewrite H in Hrun; discriminate Hrun].
  rewrite H in Hrun. injection Hrun as ->.
  destruct (Hf Hn) as (Hc & _). cbn [negb andb] in Ht.
  assert (Hcount : count = PGSIZE / sizeof_rx_desc).
  { unfold count. rewrite Hc. apply u32_small. lia. }
  assert (Hres : reserved_slots count 0 (count - 1) = [count - 1]).
  { apply reserved_slots_after_init. lia. }
  assert (Hlast : init_rx_last_stores (e1000 w)
                  = [MmioStore (reg RDT) (count - 1);
                     MmioStore (reg RCTL) RCTL_VALUE]).
  { unfold init_rx_last_stores. rewrite !u32_u32. fold (reg RDT) (reg RCTL).
    rewrite (u32_small (PGSIZE / sizeof_rx_desc)) by lia.
    rewrite (u32_small (PGSIZE / sizeof_rx_desc - 1)) by lia.
    rewrite <- Hcount. reflexivity. }
  assert (Hfirst : init_rx_first_stores (e1000 w) (next_page w)
                   = firstn 5 (init_rx_first_stores (e1000 w) (next_page w))
                     ++ [MmioStore (reg RDH) 0; MmioStore (reg RDT) 0]).
  { unfold init_rx_first_stores.
    rewrite (proj2 (Z.eqb_neq _ _) Hn). rewrite !u32_u32. reflexivity. }
  split; [exact Hcount|]. split; [|split; [|split; [exact Hres|]]].
  - exists (firstn 5 (init_rx_first_stores (e1000 w) (next_page w))).
    rewrite Ht, Hlast. rewrite Hfirst at 1.
    rewrite <- !app_assoc. reflexivity.
  - rewrite Ht, Hlast. rewrite !stores_to_app.
    cbn [stores_to]. rewrite Z.eqb_refl.
    replace (reg RCTL =? reg RDT) with false
      by (symmetry; apply reg_addr_neq; unfold RCTL, RDT; lia).
    rewrite !app_assoc.
    change (count - 1 :: []) with ([count - 1]). apply last_last.
  - rewrite Hres. reflexivity.
Qed.

Lemma returned_done (o : outcome unit) :
  returned o = true -> o = Done tt (world_of o).
Proof. destruct o as [[] w| | |]; simpl; intros H; [reflexivity| | |]; discriminate H. Qed.

Lemma init_rx_ring_capacity_witness :
  exists w',
    init_rx (P := tiny_platform) (probed_world (sample_pages 64 6) []) = Done tt w'
    /\ rx_count (e1000 w') = 64 / 16
    /\ last (stores_to (u32 (sample_mmio_base + RDT)) (trace w')) (-1) = 64 / 16 - 1
    /\ reserved_slots (rx_count (e1000 w')) 0 (rx_count (e1000 w') - 1)
       = [rx_count (e1000 w') - 1].
Proof.
  assert (Hrun : init_rx (P := tiny_platform) (probed_world (sample_pages 64 6) [])
                 = Done tt (world_of (init_rx (P := tiny_platform)
                                        (probed_world (sample_pages 64 6) [])))).
  { apply returned_done. vm_compute. reflexivity. }
  destruct (init_rx_ring_capacity tiny_platform _ _ ltac:(cbn; lia) Hrun)
    as (Hc & _ & Hl & Hr & _).
  eexists. split; [exact Hrun|]. split; [exact Hc|]. split; [|exact Hr].
  rewrite Hc in Hl. exact Hl.
Defined.

(** ** Allocation failures in receive initialization *)

(** Whether [init_rx] returns is decided by the allocation of the ring and
    by those of the data buffers; the answer to the allocation of the
    buffer list, the second one, plays no part. *)
Lemma init_rx_returns_iff (P : Platform) w :
  returned (init_rx w)
  = negb (next_page w =? 0)
    && pages_suffice (Z.to_nat (u32 (PGSIZE / sizeof_rx_desc)))
         (tl (tl (free_pages w))).
Proof.
  destruct (init_rx_outcomes w) as (w' & H & _). cbv zeta in H.
  rewrite H. destruct (next_page w =? 0); [reflexivity|].
  destruct (pages_suffice _ _); reflexivity.
Qed.

(** Where [init_rx] does panic, it has a diagnostic and the receive-control
    register has not been written. *)
Lemma init_rx_panic_before_rctl (P : Platform) w msg w' :
  init_rx w = Panic msg w' ->
  (msg = "failed to allocate recieve descriptor buffer\n"%string
   \/ msg = "failed to allocate buffer\n"%string)
  /\ stores_to (u32 (mmio_base (e1000 w) + RCTL)) (trace w')
     = stores_to (u32 (mmio_base (e1000 w) + RCTL)) (trace w).
Proof.
  intros Hrun.
  assert (Hfirst : forall ring,
    stores_to (u32 (mmio_base (e1000 w) + RCTL))
      (init_rx_first_stores (e1000 w) ring) = []).
  { intros ring. unfold init_rx_first_stores. rewrite stores_to_app.
    destruct (ring =? 0); cbn [stores_to app]; rewrite !u32_u32;
      rewrite !reg_addr_neq
        by (unfold RCTL, RAL, RAH, RDBAL, RDBAH, RDLEN, RDH, RDT; lia);
      reflexivity. }
  destruct (init_rx_outcomes w) as (w0 & H & Ht & _). cbv zeta in H, Ht.
  rewrite H in Hrun.
  destruct (next_page w =? 0); cbn [negb andb] in Ht;
    [|destruct (pages_suffice _ _); [discriminate Hrun|]];
    injection Hrun as <- <-; (split; [auto|]);
    rewrite Ht, !stores_to_app, Hfirst; cbn [stores_to app];
    rewrite ?app_nil_r; reflexivity.
Qed.

(** C4, the code at the failing input. The allocator serves the descriptor
    ring, fails on the buffer list and then serves the 256 data buffers:
    [init_rx] does not stop. It keeps the null list pointer, stores the
    buffer pointers through it (the first lands at address 0) and goes on
    to write the tail and the receive-control register. *)
Theorem init_rx_buffer_list_unchecked :
  nth 1 (free_pages list_alloc_fails_world) 1 = 0
  /\ returned (init_rx (P := xv6_platform) list_alloc_fails_world) = true
  /\ rx_buf (e1000 (world_of (init_rx (P := xv6_platform) list_alloc_fails_world))) = 0
  /\ load32 (memory (world_of (init_rx (P := xv6_platform) list_alloc_fails_world))) 0
     = 0x80401000
  /\ stores_to (sample_mmio_base + RCTL)
       (trace (world_of (init_rx (P := xv6_platform) list_alloc_fails_world)))
     = [RCTL_VALUE].
Proof. vm_compute. repeat split; reflexivity. Qed.

(** With an allocator that is simply empty from the second call on, the
    first round of the buffer loop stores a null buffer pointer through the
    null list pointer and then panics. *)
Lemma init_rx_exhausted_allocator :
  init_rx (P := xv6_platform) (probed_world [0x80400000] [])
  = Panic "failed to allocate buffer\n"
      (world_of (init_rx (P := xv6_platform) (probed_world [0x80400000] [])))
  /\ rx_buf (e1000 (world_of
       (init_rx (P := xv6_platform) (probed_world [0x80400000] [])))) = 0.
Proof.
  split; [|vm_compute; reflexivity].
  destruct (init_rx_outcomes (P := xv6_platform) (probed_world [0x80400000] []))
    as (w' & H & _).
  rewrite H. reflexivity.
Qed.

(** ** Device discovery *)

Lemma lor_shiftl_low hi x k :
  0 <= k -> Z.lor (Z.shiftl hi k) (x mod 2 ^ k) = x mod 2 ^ k + 2 ^ k * hi.
Proof.
  intros Hk.
  assert (Hland : Z.land (Z.shiftl hi k) (x mod 2 ^ k) = 0).
  { apply Z.bits_inj'. intros n Hn. rewrite Z.land_spec, Z.bits_0.
    destruct (Z.lt_ge_cases n k) as [Hlt|Hge].
    - rewrite Z.shiftl_spec_low by assumption. reflexivity.
    - rewrite Z.mod_pow2_bits_high by lia. apply andb_false_r. }
  rewrite <- Z.lxor_lor by exact Hland.
  rewrite <- Z.add_nocarry_lxor by exact Hland.
  rewrite Z.shiftl_mul_pow2 by exact Hk. lia.
Qed.

(** The two bytes the probe assembles into a 16-bit identifier. *)
Lemma assemble_id b0 b1 :
  u16 (Z.lor (u16 (Z.lor 0 (Z.shiftl (u8 b1) (1 * 8)))) (Z.shiftl (u8 b0) (0 * 8)))
  = u8 b0 + 2 ^ 8 * u8 b1.
Proof.
  pose proof (u8_range b0) as H0. pose proof (u8_range b1) as H1.
  rewrite Z.lor_0_l. change (0 * 8) with 0. change (1 * 8) with 8.
  rewrite Z.shiftl_0_r, Z.shiftl_mul_pow2 by lia.
  unfold u16 at 2. rewrite (Z.mod_small (u8 b1 * 2 ^ 8)) by lia.
  rewrite <- Z.shiftl_mul_pow2 by lia.
  unfold u8 at 2. rewrite lor_shiftl_low by lia. fold (u8 b0).
  unfold u16. apply Z.mod_small. lia.
Qed.

Lemma read_ids_run dev w :
  exists w',
    (vendor_id <- read_vendor_id (pci_dev_addr dev) ;;
     device_id <- read_device_id (pci_dev_addr dev) ;;
     ret ((vendor_id =? VENDOR_ID) && (device_id =? DEVICE_ID))) w
    = Done (slot_matches (pci_space w) dev) w'
    /\ probe_only w w'.
Proof.
  unfold read_vendor_id, read_device_id, pci_read_bytes.
  cbn [foldM]. exec.
  match goal with |- context [ret ?v ?w] => finish (ret v) w end.
  rewrite !assemble_id. eexists. split; [reflexivity|].
  unfold probe_only.
  cbn [e1000 memory pci_addr pci_space free_pages device trace].
  repeat split. eexists. rewrite <- !app_assoc. split; reflexivity.
Qed.

Lemma probe_only_trans w1 w2 w3 :
  probe_only w1 w2 -> probe_only w2 w3 -> probe_only w1 w3.
Proof.
  intros (E1 & M1 & S1 & F1 & D1 & evs1 & T1 & C1)
         (E2 & M2 & S2 & F2 & D2 & evs2 & T2 & C2).
  unfold probe_only. repeat split; try congruence.
  exists (evs1 ++ evs2). rewrite T2, T1, <- app_assoc. split; [reflexivity|].
  rewrite forallb_app, C1, C2. reflexivity.
Qed.

Lemma probe_run devs : forall w,
  exists w',
    probe devs w = Done (first_match (pci_space w) devs) w'
    /\ probe_only w w'.
Proof.
  induction devs as [|dev rest IH]; intros w.
  - exists w. split; [reflexivity|]. unfold probe_only. repeat split.
    exists []. rewrite app_nil_r. split; reflexivity.
  - destruct (read_ids_run dev w) as (w1 & Hids & Hq).
    cbn [probe]. unfold bind, ret in Hids |- *.
    destruct (read_vendor_id (pci_dev_addr dev) w) as [v wv| | |];
      try discriminate Hids.
    destruct (read_device_id (pci_dev_addr dev) wv) as [d wd| | |];
      try discriminate Hids.
    injection Hids as Hm ->. rewrite Hm.
    unfold first_match. cbn [find].
    destruct (slot_matches (pci_space w) dev) eqn:E.
    + exists w1. split; [reflexivity|exact Hq].
    + destruct (IH w1) as (w2 & Hp & Hq2). exists w2.
      destruct Hq as (E1 & M1 & S1 & F1 & D1 & X1).
      rewrite Hp. unfold first_match. rewrite S1. split; [reflexivity|].
      apply (probe_only_trans w w1 w2); [|exact Hq2].
      unfold probe_only. auto 10.
Qed.

Lemma slot_matches_iff space dev :
  slot_matches space dev = true
  <-> vendor_of space dev = 0x8086 /\ device_of space dev = 0x100E.
Proof.
  unfold slot_matches, VENDOR_ID, DEVICE_ID.
  rewrite andb_true_iff, !Z.eqb_eq. reflexivity.
Qed.

(** C8. The probe looks at slots 0, 1, 2, 3 in this order and yields the
    first whose vendor identifier is 0x8086 and whose device identifier is
    0x100E, or -1 if there is none; it changes nothing but the selected
    configuration address. If there is none, [e1000init] returns at once:
    the driver's record, memory (the rings and the register window), the
    allocator and the card are as they were. *)
Theorem e1000init_discovery (P : Platform) w :
  let is_card d :=
    vendor_of (pci_space w) d = 0x8086 /\ device_of (pci_space w) d = 0x100E in
  exists target w',
    probe [0; 1; 2; 3] w = Done target w'
    /\ probe_only w w'
    /\ ((0 <= target <= 3 /\ is_card target
         /\ forall d, 0 <= d < target -> ~ is_card d)
        \/ (target = -1 /\ forall d, 0 <= d <= 3 -> ~ is_card d))
    /\ (target = -1 -> e1000init w = Done tt w').
Proof.
  intros is_card.
  destruct (probe_run [0; 1; 2; 3] w) as (w' & Hp & Hq).
  exists (first_match (pci_space w) [0; 1; 2; 3]), w'.
  split; [exact Hp|]. split; [exact Hq|]. split.
  - assert (Hyes : forall d, slot_matches (pci_space w) d = true -> is_card d)
      by (intros d H; exact (proj1 (slot_matches_iff (pci_space w) d) H)).
    assert (Hno : forall d, slot_matches (pci_space w) d = false -> ~ is_card d)
      by (intros d H C;
          rewrite (proj2 (slot_matches_iff (pci_space w) d) C) in H;
          discriminate H).
    unfold first_match. cbn [find].
    destruct (slot_matches (pci_space w) 0) eqn:E0.
    { left. split; [lia|]. split; [auto|]. intros d Hd. lia. }
    destruct (slot_matches (pci_space w) 1) eqn:E1.
    { left. split; [lia|]. split; [auto|]. intros d Hd.
      replace d with 0 by lia. auto. }
    destruct (slot_matches (pci_space w) 2) eqn:E2.
    { left. split; [lia|]. split; [auto|]. intros d Hd.
      assert (Hcase : d = 0 \/ d = 1) by lia.
      destruct Hcase as [-> | ->]; auto. }
    destruct (slot_matches (pci_space w) 3) eqn:E3.
    { left. split; [lia|]. split; [auto|]. intros d Hd.
      assert (Hcase : d = 0 \/ d = 1 \/ d = 2) by lia.
      destruct Hcase as [-> | [-> | ->]]; auto. }
    right. split; [reflexivity|]. intros d Hd.
    assert (Hcase : d = 0 \/ d = 1 \/ d = 2 \/ d = 3) by lia.
    destruct Hcase as [-> | [-> | [-> | ->]]]; auto.
  - intros Ht. unfold e1000init. unfold bind at 1. rewrite Hp, Ht. reflexivity.
Qed.

Lemma e1000init_discovery_witness :
  exists w',
    probe [0; 1; 2; 3] (boot_world (space_with_card 2) [] []) = Done 2 w'
    /\ e1000init (P := xv6_platform) (boot_world (fun _ => 0xFF) [] [])
       = Done tt (world_of (e1000init (P := xv6_platform)
                              (boot_world (fun _ => 0xFF) [] [])))
    /\ e1000 (world_of (e1000init (P := xv6_platform)
                          (boot_world (fun _ => 0xFF) [] [])))
       = e1000 (boot_world (fun _ => 0xFF) [] []).
Proof.
  destruct (e1000init_discovery xv6_platform (boot_world (space_with_card 2) [] []))
    as (t & w' & Hp & _ & Hwhich & _).
  destruct (e1000init_discovery xv6_platform (boot_world (fun _ => 0xFF) [] []))
    as (t0 & w0 & Hp0 & (He & _) & Hwhich0 & Hnone).
  assert (Ht : t = 2).
  { destruct Hwhich as [(Hr & (Hv & Hd) & Hfirst)|(_ & Hno)].
    - assert (Hc : t = 0 \/ t = 1 \/ t = 2 \/ t = 3) by lia.
      destruct Hc as [-> | [-> | [-> | ->]]]; try reflexivity;
        vm_compute in Hv; discriminate Hv.
    - exfalso. apply (Hno 2); [lia|]. split; vm_compute; reflexivity. }
  assert (Ht0 : t0 = -1).
  { destruct Hwhich0 as [(Hr & (Hv & _) & _)|(Hm & _)]; [|exact Hm].
    assert (Hc : t0 = 0 \/ t0 = 1 \/ t0 = 2 \/ t0 = 3) by lia.
    destruct Hc as [-> | [-> | [-> | ->]]]; vm_compute in Hv; discriminate Hv. }
  subst t t0. exists w'. split; [exact Hp|].
  rewrite (Hnone eq_refl). cbn [world_of]. split; [reflexivity|exact He].
Defined.

(** ** Reading the station address *)

Lemma testbit_u32 x n : 0 <= n < 32 -> Z.testbit (u32 x) n = Z.testbit x n.
Proof. intros Hn. unfold u32. apply Z.mod_pow2_bits_low. lia. Qed.

Lemma eerd_done_test x :
  (Z.land (u32 x) EEPROM_DONE =? 0) = negb (Z.testbit x 4).
Proof.
  change EEPROM_DONE with (Z.shiftl 1 4).
  rewrite land_bit_zero, testbit_u32 by lia. reflexivity.
Qed.

Lemma eerd_poll_run busy : forall fuel a w ready rest,
  device w = map Some busy ++ Some ready :: rest ->
  Forall (fun b => Z.testbit b 4 = false) busy ->
  Z.testbit ready 4 = true ->
  (List.length busy < fuel)%nat ->
  exists w',
    eerd_poll fuel a w = Done tt w'
    /\ e1000 w' = e1000 w /\ trace w' = trace w /\ device w' = rest.
Proof.
  induction busy as [|b busy IH]; intros fuel a w ready rest Hd Hb Hr Hf;
    (destruct fuel as [|fuel]; [simpl in Hf; lia|]);
    cbn [eerd_poll]; unfold bind, mmio_load; rewrite Hd; cbn [map app];
    rewrite load32_store32, eerd_done_test.
  - rewrite Hr. cbn [negb]. eexists. split; [reflexivity|]. repeat split.
  - inversion Hb as [|? ? Hb0 Hb']; subst. rewrite Hb0. cbn [negb].
    match goal with |- context [eerd_poll fuel a ?w1] =>
      destruct (IH fuel a w1 ready rest) as (w' & Hp & He & Ht & Hdev)
    end; try assumption; [reflexivity | simpl in Hf; lia |].
    exists w'. split; [exact Hp|]. repeat split; assumption.
Qed.

Lemma mac_bytes_of_word d :
  u8 (u16 (Z.shiftr (u32 d) 16)) = u8 (Z.shiftr d 16)
  /\ u8 (Z.shiftr (u16 (Z.shiftr (u32 d) 16)) 8) = u8 (Z.shiftr d 24).
Proof.
  unfold u8, u16, u32. rewrite !Z.shiftr_div_pow2 by lia.
  change (2 ^ 8) with 256. change (2 ^ 16) with 65536.
  change (2 ^ 24) with 16777216. change (2 ^ 32) with 4294967296.
  split; Z.div_mod_to_equations; lia.
Qed.

(** One round of the MAC loop. *)
Lemma read_mac_word_run i w busy ready data rest :
  device w = eerd_answers busy ready data ++ rest ->
  Forall (fun b => Z.testbit b 4 = false) busy ->
  Z.testbit ready 4 = true ->
  exists w',
    read_mac_word i w = Done tt w'
    /\ trace w' = trace w ++ [MmioStore (u32 (mmio_base (e1000 w) + EERD))
                                 (u32 (eerd_request i))]
    /\ device w' = rest
    /\ mmio_base (e1000 w') = mmio_base (e1000 w)
    /\ mac (e1000 w')
       = upd (upd (mac (e1000 w)) (Z.to_nat (i * 2)) (u8 (Z.shiftr data 16)))
           (S (Z.to_nat (i * 2))) (u8 (Z.shiftr data 24)).
Proof.
  intros Hd Hb Hr. unfold eerd_answers in Hd.
  rewrite <- app_assoc in Hd. cbn [app] in Hd.
  unfold read_mac_word, mmio_store. run.
  match goal with |- context [eerd_poll ?f ?a ?w1] =>
    destruct (eerd_poll_run busy f a w1 ready (Some data :: rest))
      as (w2 & Hp & He & Ht & Hdev)
  end; try assumption.
  { cbn. rewrite Hd, length_app, length_map. cbn. lia. }
  rewrite Hp. unfold mmio_load. rewrite Hdev. run.
  rewrite load32_store32.
  destruct (mac_bytes_of_word data) as (Hlo & Hhi). rewrite Hlo, Hhi.
  cbn in He, Ht. rewrite He, Ht. cbn.
  eexists. split; [reflexivity|]. cbn. rewrite u32_u32.
  repeat split.
Qed.



(** * Further properties of the driver

    ** Memory away from a store *)

Lemma u32_sub_cong x y a : u32 x = u32 y -> u32 (x - a) = u32 (y - a).
Proof. unfold u32. intros H. rewrite Zminus_mod, H, <- Zminus_mod. reflexivity. Qed.

Lemma u32_add_u32_l a b : u32 (u32 a + b) = u32 (a + b).
Proof. unfold u32. apply Zplus_mod_idemp_l. Qed.

Lemma u32_sub_u32_l a b : u32 (u32 a - b) = u32 (a - b).
Proof. unfold u32. apply Zminus_mod_idemp_l. Qed.

Lemma u32_sub_u32_r a b : u32 (a - u32 b) = u32 (a - b).
Proof. unfold u32. apply Zminus_mod_idemp_r. Qed.

Lemma load8_store8_other m a v x :
  u32 x <> u32 a -> load8 (store8 m a v) x = load8 m x.
Proof.
  intros H. unfold load8, store8.
  rewrite (proj2 (Z.eqb_neq _ _) H). reflexivity.
Qed.

Lemma away_neq x a k : 0 <= k < 4 -> 4 <= u32 (x - a) -> u32 x <> u32 (a + k).
Proof.
  intros Hk Hx E. apply (u32_sub_cong _ _ a) in E.
  replace (a + k - a) with k in E by lia.
  rewrite (u32_small k) in E by lia. lia.
Qed.

Lemma load8_store32_outside m a v x :
  4 <= u32 (x - a) -> load8 (store32 m a v) x = load8 m x.
Proof.
  intros H. unfold store32.
  rewrite !load8_store8_other; try reflexivity.
  - replace a with (a + 0) at 1 by lia. apply away_neq; [lia|exact H].
  - apply away_neq; [lia|exact H].
  - apply away_neq; [lia|exact H].
  - apply away_neq; [lia|exact H].
Qed.

Lemma away_shift x a j n :
  0 <= j -> 0 <= n -> n <= u32 (x - a) -> u32 (x - a) + j < 2 ^ 32 ->
  n <= u32 (x + j - a).
Proof.
  intros Hj Hn H Hlt.
  replace (x + j - a) with (x - a + j) by lia.
  rewrite <- u32_add_u32_l. rewrite u32_small; lia.
Qed.

Lemma load32_store32_outside m a v x :
  4 <= u32 (x - a) <= 2 ^ 32 - 4 ->
  load32 (store32 m a v) x = load32 m x.
Proof.
  intros H. unfold load32.
  rewrite (load8_store32_outside m a v x) by lia.
  rewrite !load8_store32_outside; try reflexivity;
    apply away_shift; lia.
Qed.

Lemma load8_memset_outside m a c n x :
  n <= u32 (x - a) -> load8 (memset m a c n) x = load8 m x.
Proof.
  intros H. unfold load8, memset. rewrite u32_sub_u32_l.
  rewrite (proj2 (Z.ltb_ge _ _) H). reflexivity.
Qed.

Lemma load8_memset_inside m a c n x :
  u32 (x - a) < n -> load8 (memset m a c n) x = u8 c.
Proof.
  intros H. unfold load8, memset. rewrite u32_sub_u32_l.
  rewrite (proj2 (Z.ltb_lt _ _) H). apply u8_u8.
Qed.

(** ** Register access *)

(** X1. With a quiet card, a register read after a write of the same
    register returns the value written, reduced to 32 bits, and the write
    leaves every register at least four bytes away as it was. *)
Theorem write_reg_read_back w reg v :
  device w = [] ->
  exists w',
    write_reg reg v w = Done tt w'
    /\ read_reg reg w' = Done (u32 v) w'
    /\ forall r, 4 <= u32 (r - reg) <= 2 ^ 32 - 4 ->
         read_reg r w'
         = Done (load32 (memory w) (u32 (mmio_base (e1000 w) + r))) w'.
Proof.
  intros Hd. eexists. split; [reflexivity|].
  unfold read_reg, mmio_load. run. rewrite Hd. split.
  - rewrite load32_store32. reflexivity.
  - intros r Hr. rewrite load32_store32_outside; [reflexivity|].
    rewrite u32_sub_u32_l, u32_sub_u32_r.
    replace (mmio_base (e1000 w) + r - (mmio_base (e1000 w) + reg))
      with (r - reg) by lia.
    exact Hr.
Qed.

Lemma write_reg_read_back_witness :
  exists w',
    write_reg RDT 5 (ring_world 256 255 3) = Done tt w'
    /\ read_reg RDT w' = Done 5 w'
    /\ read_reg RDH w' = Done 3 w'.
Proof.
  destruct (write_reg_read_back (ring_world 256 255 3) RDT 5 eq_refl)
    as (w' & Hw & Hr & Ho).
  exists w'. split; [exact Hw|]. split; [exact Hr|].
  rewrite (Ho RDH) by (vm_compute; split; discriminate).
  f_equal; vm_compute; reflexivity.
Defined.

(** ** The EEPROM poll with a silent card *)

Lemma eerd_request_not_done i : Z.testbit (eerd_request i) 4 = false.
Proof.
  unfold eerd_request. rewrite Z.lor_spec.
  rewrite Z.shiftl_spec_low by lia. reflexivity.
Qed.

Lemma eerd_poll_never_done busy : forall fuel addr w,
  device w = map Some busy ->
  Forall (fun b => Z.testbit b 4 = false) busy ->
  Z.testbit (load32 (memory w) addr) 4 = false ->
  exists w',
    eerd_poll fuel addr w = Hang w'
    /\ trace w' = trace w /\ e1000 w' = e1000 w.
Proof.
  induction busy as [|b busy IH]; intros fuel addr w Hd Hb Hm.
  - induction fuel as [|fuel IHf].
    + exists w. repeat split.
    + cbn [eerd_poll]. unfold bind, mmio_load. rewrite Hd. cbn [map].
      rewrite <- (u32_small (load32 (memory w) addr)) by apply load32_range.
      rewrite eerd_done_test, Hm. cbn [negb]. exact IHf.
  - destruct fuel as [|fuel].
    + exists w. repeat split.
    + cbn [eerd_poll]. unfold bind, mmio_load. rewrite Hd. cbn [map].
      inversion Hb as [|? ? Hb0 Hb']; subst.
      rewrite load32_store32, eerd_done_test, Hb0. cbn [negb].
      match goal with |- context [eerd_poll fuel addr ?w1] =>
        destruct (IH fuel addr w1) as (w' & Hp & Ht & He)
      end; try assumption; try reflexivity.
      { cbn [memory set_memory set_device].
        rewrite load32_store32, testbit_u32 by lia. exact Hb0. }
      exists w'. split; [exact Hp|]. split; assumption.
Qed.

(** X2. If the card never sets the done bit (bit 4) of the EEPROM read
    register, the poll after the read request does not end within any
    number of loads, and one round of the MAC loop hangs with the station
    address untouched and only the request stored. *)
Theorem read_mac_word_silent_card i w busy :
  device w = map Some busy ->
  Forall (fun b => Z.testbit b 4 = false) busy ->
  let addr := u32 (mmio_base (e1000 w) + EERD) in
  (forall fuel, exists w',
      (mmio_store addr (eerd_request i) ;; eerd_poll fuel addr) w = Hang w')
  /\ exists w',
       read_mac_word i w = Hang w'
       /\ mac (e1000 w') = mac (e1000 w)
       /\ trace w' = trace w ++ [MmioStore addr (u32 (eerd_request i))].
Proof.
  intros Hd Hb addr.
  assert (Hpoll : forall fuel, exists w',
    eerd_poll fuel addr
      (set_trace (trace w ++ [MmioStore (u32 addr) (u32 (eerd_request i))])
         (set_memory (store32 (memory w) addr (eerd_request i)) w))
    = Hang w'
    /\ trace w' = trace w ++ [MmioStore (u32 addr) (u32 (eerd_request i))]
    /\ e1000 w' = e1000 w).
  { intros fuel.
    destruct (eerd_poll_never_done busy fuel addr
                (set_trace (trace w ++ [MmioStore (u32 addr) (u32 (eerd_request i))])
                   (set_memory (store32 (memory w) addr (eerd_request i)) w)))
      as (w' & Hp & Ht & He); [exact Hd|exact Hb| |].
    - cbn [memory set_memory set_trace].
      rewrite load32_store32, testbit_u32 by lia. apply eerd_request_not_done.
    - exists w'. split; [exact Hp|]. split; [exact Ht|exact He]. }
  split.
  - intros fuel. destruct (Hpoll fuel) as (w' & Hp & _).
    exists w'. unfold bind, mmio_store. exact Hp.
  - destruct (Hpoll (S (List.length (device w)))) as (w' & Hp & Ht & He).
    exists w'. unfold read_mac_word, bind, get_dev, mmio_store.
    fold addr. unfold eerd_request, set_trace, set_memory in Hp |- *.
    cbn [device e1000 memory pci_addr pci_space free_pages trace] in Hp |- *.
    rewrite Hp. split; [reflexivity|]. rewrite He, Ht.
    unfold addr. rewrite u32_u32. split; reflexivity.
Qed.

Lemma read_mac_word_silent_card_witness :
  exists w',
    read_mac_word 0 (probed_world [] [Some 0x0001; Some 0x0101]) = Hang w'
    /\ mac (e1000 w') = [0x52; 0x54; 0x00; 0x12; 0x34; 0x56].
Proof.
  destruct (read_mac_word_silent_card 0
              (probed_world [] [Some 0x0001; Some 0x0101]) [0x0001; 0x0101])
    as (_ & w' & Hr & Hm & _).
  - reflexivity.
  - repeat constructor.
  - exists w'. split; [exact Hr|exact Hm].
Defined.

(** ** What a drain leaves behind *)

Lemma read_packet_loop_state {P : Platform} k : forall i j w,
  exists w',
    read_packet_loop k i j w = Done tt w'
    /\ memory w' = memory w /\ free_pages w' = free_pages w
    /\ device w' = device w
    /\ mmio_base (e1000 w') = mmio_base (e1000 w)
    /\ mac (e1000 w') = mac (e1000 w)
    /\ rx (e1000 w') = rx (e1000 w)
    /\ rx_count (e1000 w') = rx_count (e1000 w)
    /\ rx_buf (e1000 w') = rx_buf (e1000 w)
    /\ tx (e1000 w') = tx (e1000 w)
    /\ u32 (packet_count (e1000 w'))
       = u32 (packet_count (e1000 w) + Z.of_nat k)
    /\ (0 <= packet_count (e1000 w) < 2 ^ 32 ->
        0 <= packet_count (e1000 w') < 2 ^ 32).
Proof.
  induction k as [|k IH]; intros i j w.
  - exists w. rewrite Z.add_0_r. repeat split; tauto.
  - destruct (read_packet_run i j w) as (evs & Hrun & _).
    cbn [read_packet_loop]. unfold bind at 1. rewrite Hrun.
    match goal with |- context [read_packet_loop k i (j + 1) ?w1] =>
      destruct (IH i (j + 1) w1)
        as (w' & Hl & Hm & Hf & Hd & H1 & H2 & H3 & H4 & H5 & H6 & Hpc & Hr)
    end.
    exists w'. cbn in Hm, Hf, Hd, H1, H2, H3, H4, H5, H6, Hpc, Hr.
    repeat split; try assumption.
    + rewrite Hpc, u32_add_u32_l. f_equal. lia.
    + apply Hr. apply u32_range.
    + apply Hr. apply u32_range.
Qed.

(** X3. A drain writes nothing to memory but the tail register: the
    descriptors (their status words included) and the packet buffers are
    as the card left them, the driver record changes only in its packet
    counter, which goes up by the number of descriptors read, and no page
    is allocated or freed. *)
Theorem read_packets_touches_only_tail (P : Platform) w tail head w1 w2 :
  read_reg RDT w = Done tail w1 ->
  read_reg RDH w1 = Done head w2 ->
  2 <= rx_count (e1000 w) < 2 ^ 32 ->
  0 <= packet_count (e1000 w) < 2 ^ 32 ->
  let count := rx_count (e1000 w) in
  exists w',
    read_packets w = Done tt w'
    /\ memory w'
       = store32 (memory w2) (u32 (mmio_base (e1000 w) + RDT))
           (rx_new_tail count head)
    /\ packet_count (e1000 w')
       = u32 (packet_count (e1000 w) + rx_avail count head tail)
    /\ (mmio_base (e1000 w'), mac (e1000 w'), rx (e1000 w'), rx_count (e1000 w'),
        rx_buf (e1000 w'), tx (e1000 w'))
       = (mmio_base (e1000 w), mac (e1000 w), rx (e1000 w), rx_count (e1000 w),
          rx_buf (e1000 w), tx (e1000 w))
    /\ free_pages w' = free_pages w.
Proof.
  intros H1 H2 Hc Hpc count.
  destruct (read_reg_inv _ _ _ _ H1) as (E1 & T1 & _).
  destruct (read_reg_inv _ _ _ _ H2) as (E2 & T2 & _).
  assert (F1 : free_pages w1 = free_pages w).
  { revert H1. unfold read_reg, mmio_load. run.
    destruct (device w) as [|[x|] rest]; intros H; inversion H; reflexivity. }
  assert (F2 : free_pages w2 = free_pages w1).
  { revert H2. unfold read_reg, mmio_load. run.
    destruct (device w1) as [|[x|] rest]; intros H; inversion H; reflexivity. }
  unfold read_packets. unfold bind at 1. rewrite H1.
  unfold bind at 1. rewrite H2. run.
  rewrite E2, E1. fold count.
  assert (Hm : (u32 (count - 1) =? 0) = false).
  { apply Z.eqb_neq. rewrite u32_small; subst count; lia. }
  rewrite Hm.
  destruct (read_packet_loop_state (Z.to_nat (rx_avail count head tail))
              (rx_start count tail) 0 w2)
    as (w' & Hl & Hmem & Hf & Hd & B1 & B2 & B3 & B4 & B5 & B6 & Bpc & Br).
  rewrite Hl. unfold write_reg, mmio_store. run.
  rewrite E2, E1 in B1, B2, B3, B4, B5, B6, Bpc, Br.
  eexists. split; [reflexivity|]. cbn.
  rewrite B1, B2, B3, B4, B5, B6, Hmem, Hf, F2, F1. fold count.
  assert (Hn : 0 <= rx_avail count head tail)
    by (unfold rx_avail; destruct (head >? tail); apply u32_range).
  rewrite Z2Nat.id in Bpc by exact Hn.
  repeat split.
  rewrite <- Bpc. symmetry. apply u32_small. apply Br. exact Hpc.
Qed.

Lemma read_packets_touches_only_tail_witness :
  exists w',
    read_packets (P := xv6_platform) (ring_world 256 255 3) = Done tt w'
    /\ memory w'
       = store32 (memory (ring_world 256 255 3)) (u32 (sample_mmio_base + RDT))
           (rx_new_tail 256 3)
    /\ packet_count (e1000 w') = 3.
Proof.
  destruct (read_packets_touches_only_tail xv6_platform (ring_world 256 255 3)
              255 3 (ring_world 256 255 3) (ring_world 256 255 3))
    as (w' & Hr & Hm & Hp & _).
  - unfold read_reg, mmio_load. run. f_equal; vm_compute; reflexivity.
  - unfold read_reg, mmio_load. run. f_equal; vm_compute; reflexivity.
  - cbn. lia.
  - cbn. lia.
  - exists w'. split; [exact Hr|]. split; [exact Hm|exact Hp].
Defined.


(** X4. For a descriptor whose end-of-packet flag is clear, one round of
    the receive loop logs its four lines and the blank line and nothing
    else: no header is decoded or dumped; the packet is counted all the
    same. *)
Theorem read_packet_without_end_of_packet (P : Platform) w i j :
  let dev := e1000 w in
  let idx := rx_idx (rx_count dev) i j in
  let d := u32 (rx dev + sizeof_rx_desc * idx) in
  Z.testbit (load32 (memory w) (d + 12)) 1 = false ->
  exists w',
    read_packet i j w = Done tt w'
    /\ trace w'
       = trace w
         ++ [RxDescLoad idx;
             Cprintf "packet count: %d\n" [packet_count dev];
             Cprintf "buffer: 0x%x\n" [P2V (load32 (memory w) d)];
             Cprintf "packet size: %d\n" [Z.land (load32 (memory w) (d + 8)) 0xFF];
             Cprintf "end of packet: %d\n" [0];
             Cprintf "\n\n" []]
    /\ packet_count (e1000 w') = u32 (packet_count dev + 1).
Proof.
  intros dev idx d Heop.
  assert (Hflag : Z.shiftr (Z.land (load32 (memory w) (d + 12)) EOP) 1 = 0).
  { unfold EOP. rewrite land_bit, Heop by lia. reflexivity. }
  subst d idx dev. unfold read_packet. exec.
  rewrite Hflag. change (0 =? 0) with true. cbv iota. exec.
  match goal with |- context [put_dev ?d ?w] => finish (put_dev d) w end.
  eexists. split; [reflexivity|]. cbn [trace e1000 packet_count].
  rewrite <- !app_assoc. split; reflexivity.
Qed.

Lemma read_packet_without_end_of_packet_witness :
  exists w',
    read_packet (P := xv6_platform) 0 0 (ring_world 256 255 3) = Done tt w'
    /\ trace w'
       = [RxDescLoad 0;
          Cprintf "packet count: %d\n" [0];
          Cprintf "buffer: 0x%x\n" [0x80000000];
          Cprintf "packet size: %d\n" [0];
          Cprintf "end of packet: %d\n" [0];
          Cprintf "\n\n" []].
Proof.
  destruct (read_packet_without_end_of_packet xv6_platform (ring_world 256 255 3) 0 0)
    as (w' & Hr & Ht & _).
  - vm_compute. reflexivity.
  - exists w'. split; [exact Hr|]. rewrite Ht. vm_compute. reflexivity.
Defined.

(** X5. On a ring of a single descriptor ([rx_count - 1] is 0) the drain
    divides by zero: it reads the two registers and faults before it reads
    a descriptor, logs anything or writes the tail. *)
Theorem read_packets_single_descriptor_faults (P : Platform) w :
  u32 (rx_count (e1000 w) - 1) = 0 ->
  exists w',
    read_packets w = Fault w'
    /\ trace w' = trace w /\ e1000 w' = e1000 w.
Proof.
  intros Hc.
  destruct (read_reg_done RDT w) as (tail & w1 & H1).
  destruct (read_reg_done RDH w1) as (head & w2 & H2).
  destruct (read_reg_inv _ _ _ _ H1) as (E1 & T1 & _).
  destruct (read_reg_inv _ _ _ _ H2) as (E2 & T2 & _).
  exists w2. unfold read_packets. unfold bind at 1. rewrite H1.
  unfold bind at 1. rewrite H2. run. rewrite E2, E1, Hc.
  change (0 =? 0) with true. cbv iota.
  split; [reflexivity|]. split; congruence.
Qed.

Lemma read_packets_single_descriptor_faults_witness :
  exists w',
    read_packets (P := xv6_platform) (ring_world 1 0 0) = Fault w'
    /\ trace w' = [].
Proof.
  destruct (read_packets_single_descriptor_faults xv6_platform (ring_world 1 0 0))
    as (w' & Hr & Ht & _).
  - reflexivity.
  - exists w'. split; [exact Hr|exact Ht].
Defined.

(** ** One drain never reads a descriptor twice *)

Lemma NoDup_map_on {A B} (f : A -> B) l :
  (forall x y, In x l -> In y l -> f x = f y -> x = y) ->
  NoDup l -> NoDup (map f l).
Proof.
  induction l as [|a l IH]; intros Hinj Hnd; cbn [map]; [constructor|].
  inversion Hnd as [|? ? Hnotin Hnd']; subst. constructor.
  - intros Hin. apply in_map_iff in Hin. destruct Hin as (y & Hy & Hyin).
    assert (y = a) by (apply Hinj; [right; exact Hyin|left; reflexivity|exact Hy]).
    subst. contradiction.
  - apply IH; [|exact Hnd'].
    intros x y Hx Hy. apply Hinj; right; assumption.
Qed.

Lemma rx_avail_bound count head tail :
  2 <= count < 2 ^ 32 ->
  0 <= tail < count -> 0 <= head < count ->
  0 <= rx_avail count head tail <= count - 1.
Proof.
  intros Hc Ht Hh. unfold rx_avail. destruct (head >? tail) eqn:E.
  - apply Z.gtb_lt in E. rewrite u32_small; lia.
  - rewrite Z.gtb_ltb in E. apply Z.ltb_ge in E.
    rewrite (u32_small (count - tail)) by lia.
    rewrite (u32_small (count - tail - 1)) by lia.
    rewrite u32_small; lia.
Qed.

(** X6. When the head and tail registers hold ring positions (below
    rx_count), one drain reads at most rx_count - 1 descriptors and no
    descriptor twice. *)
Theorem read_packets_reads_each_once (P : Platform) w tail head w1 w2 :
  read_reg RDT w = Done tail w1 ->
  read_reg RDH w1 = Done head w2 ->
  2 <= rx_count (e1000 w) < 2 ^ 31 ->
  tail < rx_count (e1000 w) -> head < rx_count (e1000 w) ->
  exists w' idxs,
    read_packets w = Done tt w'
    /\ desc_loads (trace w') = desc_loads (trace w) ++ idxs
    /\ NoDup idxs
    /\ Z.of_nat (List.length idxs) <= rx_count (e1000 w) - 1.
Proof.
  intros H1 H2 Hc Ht Hh.
  destruct (read_reg_inv _ _ _ _ H1) as (_ & _ & Ht0).
  destruct (read_reg_inv _ _ _ _ H2) as (_ & _ & Hh0).
  pose proof (read_packets_order P w tail head w1 w2 H1 H2 Hc Ht Hh) as Ho.
  cbv zeta in Ho.
  destruct (read_packets_run w tail head w1 w2 H1 H2 ltac:(lia))
    as (w' & Hr & _).
  rewrite Hr in Ho. cbn [world_of] in Ho.
  pose proof (rx_avail_bound (rx_count (e1000 w)) head tail
                ltac:(lia) ltac:(lia) ltac:(lia)) as Hn.
  set (m := rx_count (e1000 w) - 1) in *.
  exists w'. eexists. split; [exact Hr|]. split; [exact Ho|]. split.
  - apply NoDup_map_on; [|apply seq_NoDup].
    intros x y Hx Hy E. apply in_seq in Hx. apply in_seq in Hy.
    pose proof (Z.mod_pos_bound tail m ltac:(lia)) as Hb.
    assert (Hm : forall n, (n < Z.to_nat (rx_avail (rx_count (e1000 w)) head tail))%nat ->
                 (tail mod m + Z.of_nat n) mod m
                 = if tail mod m + Z.of_nat n <? m
                   then tail mod m + Z.of_nat n
                   else tail mod m + Z.of_nat n - m).
    { intros n Hlt. destruct (tail mod m + Z.of_nat n <? m) eqn:C.
      - apply Z.ltb_lt in C. apply Z.mod_small. lia.
      - apply Z.ltb_ge in C. symmetry.
        apply (Z.mod_unique _ m 1); lia. }
    rewrite (Hm x), (Hm y) in E by lia.
    destruct (tail mod m + Z.of_nat x <? m) eqn:Cx;
      destruct (tail mod m + Z.of_nat y <? m) eqn:Cy;
      [apply Z.ltb_lt in Cx | apply Z.ltb_lt in Cx
      | apply Z.ltb_ge in Cx | apply Z.ltb_ge in Cx];
      [apply Z.ltb_lt in Cy | apply Z.ltb_ge in Cy
      | apply Z.ltb_lt in Cy | apply Z.ltb_ge in Cy]; lia.
  - rewrite length_map, length_seq. lia.
Qed.

Lemma read_packets_reads_each_once_witness :
  exists w' idxs,
    read_packets (P := xv6_platform) (ring_world 256 250 3) = Done tt w'
    /\ desc_loads (trace w') = desc_loads (trace (ring_world 256 250 3)) ++ idxs
    /\ NoDup idxs
    /\ Z.of_nat (List.length idxs) <= 256 - 1.
Proof.
  apply (read_packets_reads_each_once xv6_platform (ring_world 256 250 3)
           250 3 (ring_world 256 250 3) (ring_world 256 250 3)).
  - unfold read_reg, mmio_load. run. f_equal; vm_compute; reflexivity.
  - unfold read_reg, mmio_load. run. f_equal; vm_compute; reflexivity.
  - cbn. lia.
  - cbn. lia.
  - cbn. lia.
Defined.

(** ** The probe stops at the first match *)

Lemma outdw_addr_run a w :
  outdw PCI_CONFIG_ADDR a w
  = Done tt (set_pci_addr a (set_trace (trace w ++ [Outdw PCI_CONFIG_ADDR a]) w)).
Proof. reflexivity. Qed.

Lemma outdw_data_run v w :
  outdw PCI_CONFIG_DATA v w
  = Done tt (set_trace (trace w ++ [Outdw PCI_CONFIG_DATA v]) w).
Proof. reflexivity. Qed.

Lemma read_ids_trace dev w :
  (vendor_id <- read_vendor_id (pci_dev_addr dev) ;;
   device_id <- read_device_id (pci_dev_addr dev) ;;
   ret ((vendor_id =? VENDOR_ID) && (device_id =? DEVICE_ID))) w
  = Done (slot_matches (pci_space w) dev)
      (mk_world (e1000 w) (memory w) (Z.lor (pci_dev_addr dev) 2) (pci_space w)
         (free_pages w) (device w) (trace w ++ probe_selects dev)).
Proof.
  unfold read_vendor_id, read_device_id, pci_read_bytes.
  cbn [foldM]. exec.
  match goal with |- context [ret ?v ?w] => finish (ret v) w end.
  rewrite !assemble_id. unfold probe_selects. cbn [map].
  rewrite <- !app_assoc. reflexivity.
Qed.

Lemma probe_trace devs : forall w,
  exists a,
    probe devs w
    = Done (first_match (pci_space w) devs)
        (mk_world (e1000 w) (memory w) a (pci_space w) (free_pages w) (device w)
           (trace w ++ flat_map probe_selects (scanned (pci_space w) devs))).
Proof.
  induction devs as [|dev rest IH]; intros w.
  - exists (pci_addr w). cbn. rewrite app_nil_r. destruct w; reflexivity.
  - pose proof (read_ids_trace dev w) as Hids.
    cbn [probe]. unfold bind, ret in Hids |- *.
    destruct (read_vendor_id (pci_dev_addr dev) w) as [v wv| | |];
      try discriminate Hids.
    destruct (read_device_id (pci_dev_addr dev) wv) as [d wd| | |];
      try discriminate Hids.
    injection Hids as Hm ->. rewrite Hm.
    unfold first_match. cbn [find scanned flat_map].
    destruct (slot_matches (pci_space w) dev) eqn:E.
    + eexists. cbn [flat_map]. rewrite app_nil_r. reflexivity.
    + match goal with |- context [probe rest ?w1] =>
        destruct (IH w1) as (a & Hp) end.
      exists a. rewrite Hp. cbn [e1000 memory pci_space free_pages device trace].
      rewrite <- app_assoc. reflexivity.
Qed.

(** X7. The probe reads four configuration bytes per slot (bytes 1, 0, 3,
    2) for slots 0, 1, ... up to and including the first match and probes
    no slot after it; without a match it reads all four slots. It changes
    nothing but the configuration address selected. *)
Theorem probe_stops_at_first_match w :
  let t := first_match (pci_space w) [0; 1; 2; 3] in
  let probed := map Z.of_nat (seq 0 (Z.to_nat (if t =? -1 then 4 else t + 1))) in
  exists a,
    probe [0; 1; 2; 3] w
    = Done t (mk_world (e1000 w) (memory w) a (pci_space w) (free_pages w)
                (device w) (trace w ++ flat_map probe_selects probed))
    /\ List.length (flat_map probe_selects probed)
       = (4 * List.length probed)%nat.
Proof.
  intros t probed.
  destruct (probe_trace [0; 1; 2; 3] w) as (a & Hp). exists a.
  assert (Hs : scanned (pci_space w) [0; 1; 2; 3] = probed).
  { subst probed t. unfold first_match. cbn [scanned find].
    destruct (slot_matches (pci_space w) 0); [reflexivity|].
    destruct (slot_matches (pci_space w) 1); [reflexivity|].
    destruct (slot_matches (pci_space w) 2); [reflexivity|].
    destruct (slot_matches (pci_space w) 3); reflexivity. }
  rewrite Hs in Hp. split; [exact Hp|].
  clear. induction probed as [|d l IH]; [reflexivity|].
  cbn [flat_map]. rewrite length_app, IH. cbn. lia.
Qed.

(** ** Activation *)

Lemma lor_high_low hi lo k :
  0 <= k -> 0 <= lo < 2 ^ k -> Z.lor (hi * 2 ^ k) lo = hi * 2 ^ k + lo.
Proof.
  intros Hk Hlo. pose proof (lor_shiftl_low hi lo k Hk) as H.
  rewrite (Z.mod_small lo) in H by exact Hlo.
  rewrite Z.shiftl_mul_pow2 in H by exact Hk.
  rewrite H. ring.
Qed.

Lemma assemble_command b4 b5 :
  u32 (Z.lor (u32 (Z.lor 0 (Z.shiftl (u8 b5) (1 * 8)))) (Z.shiftl (u8 b4) (0 * 8)))
  = u8 b4 + 2 ^ 8 * u8 b5.
Proof.
  pose proof (u8_range b4) as H4. pose proof (u8_range b5) as H5.
  rewrite Z.lor_0_l. change (0 * 8) with 0. change (1 * 8) with 8.
  rewrite Z.shiftl_0_r, Z.shiftl_mul_pow2 by lia.
  rewrite (u32_small (u8 b5 * 2 ^ 8)) by lia.
  rewrite lor_high_low by lia. rewrite u32_small by lia. lia.
Qed.

Lemma assemble_bar b16 b17 b18 b19 :
  u32 (Z.lor
         (u32 (Z.lor
                 (u32 (Z.lor (u32 (Z.lor 0 (Z.shiftl (u8 b19) (3 * 8))))
                         (Z.shiftl (u8 b18) (2 * 8))))
                 (Z.shiftl (u8 b17) (1 * 8))))
         (Z.shiftl (u8 b16) (0 * 8)))
  = u8 b16 + 2 ^ 8 * u8 b17 + 2 ^ 16 * u8 b18 + 2 ^ 24 * u8 b19.
Proof.
  pose proof (u8_range b16) as H16. pose proof (u8_range b17) as H17.
  pose proof (u8_range b18) as H18. pose proof (u8_range b19) as H19.
  rewrite Z.lor_0_l.
  change (0 * 8) with 0. change (1 * 8) with 8.
  change (2 * 8) with 16. change (3 * 8) with 24.
  rewrite Z.shiftl_0_r, !Z.shiftl_mul_pow2 by lia.
  rewrite (u32_small (u8 b19 * 2 ^ 24)) by lia.
  rewrite (lor_high_low (u8 b19) (u8 b18 * 2 ^ 16) 24) by lia.
  rewrite (u32_small (u8 b19 * 2 ^ 24 + u8 b18 * 2 ^ 16)) by lia.
  replace (u8 b19 * 2 ^ 24 + u8 b18 * 2 ^ 16)
    with ((u8 b19 * 2 ^ 8 + u8 b18) * 2 ^ 16) by lia.
  rewrite (lor_high_low _ (u8 b17 * 2 ^ 8) 16) by lia.
  rewrite (u32_small ((u8 b19 * 2 ^ 8 + u8 b18) * 2 ^ 16 + u8 b17 * 2 ^ 8)) by lia.
  replace ((u8 b19 * 2 ^ 8 + u8 b18) * 2 ^ 16 + u8 b17 * 2 ^ 8)
    with ((u8 b19 * 2 ^ 16 + u8 b18 * 2 ^ 8 + u8 b17) * 2 ^ 8) by lia.
  rewrite (lor_high_low _ (u8 b16) 8) by lia.
  rewrite u32_small by lia. lia.
Qed.


Ltac step_outdw :=
  match goal with
  | |- context [@bind ?A ?B (outdw PCI_CONFIG_ADDR ?a) ?k ?w] =>
      rewrite (bind_done (outdw PCI_CONFIG_ADDR a) k w _ _ (outdw_addr_run a w))
  | |- context [@bind ?A ?B (outdw PCI_CONFIG_DATA ?a) ?k ?w] =>
      rewrite (bind_done (outdw PCI_CONFIG_DATA a) k w _ _ (outdw_data_run a w))
  end;
  unfold set_pci_addr, set_trace;
  cbn [e1000 memory pci_addr pci_space free_pages device trace
       mmio_base mac rx rx_count rx_buf tx packet_count];
  cbv beta zeta.

(** [e1000init] with a card in slot [t]: the activation, then either the
    panic on a zero base address or the rest of the bring-up. *)
Lemma e1000init_found (P : Platform) w :
  let t := first_match (pci_space w) [0; 1; 2; 3] in
  let dev := e1000 w in
  let bar := bar0_of (pci_space w) t in
  t <> -1 ->
  e1000init w
  = if bar =? 0
    then Panic "failed to determine base address" (activated w t dev)
    else bring_up
           (activated w t
              (mk_e1000 bar (mac dev) (rx dev) (rx_count dev) (rx_buf dev)
                 (tx dev) (packet_count dev))).
Proof.
  intros t dev bar Ht.
  destruct (probe_trace [0; 1; 2; 3] w) as (a & Hp). fold t in Hp.
  unfold e1000init. rewrite (bind_done _ _ _ _ _ Hp).
  rewrite (proj2 (Z.eqb_neq _ _) Ht).
  unfold pci_read_bytes. cbn [foldM].
  repeat (first [rewrite bind_assoc; cbv beta zeta | step | step_pci | step_outdw]).
  rewrite assemble_command, assemble_bar.
  fold (command_of (pci_space w) t). fold (bar0_of (pci_space w) t). fold bar.
  unfold activated, activation_writes, bring_up.
  destruct (bar =? 0).
  - unfold panic. rewrite <- !app_assoc. reflexivity.
  - repeat (first [rewrite bind_assoc; cbv beta zeta | step]).
    rewrite <- !app_assoc. reflexivity.
Qed.

(** ** Every outcome of the bring-up *)

Lemma bind_cases {A B} (c : M A) (k : A -> M B) w :
  (exists a w1, c w = Done a w1 /\ bind c k w = k a w1)
  \/ (returned (c w) = false
      /\ world_of (bind c k w) = world_of (c w)
      /\ returned (bind c k w) = false).
Proof.
  unfold bind. destruct (c w) as [a w1|m w1|w1|w1]; [left; eauto|..];
    right; repeat split.
Qed.

Lemma eerd_poll_any fuel : forall addr w,
  trace (world_of (eerd_poll fuel addr w)) = trace w
  /\ e1000 (world_of (eerd_poll fuel addr w)) = e1000 w.
Proof.
  induction fuel as [|fuel IH]; intros addr w; [split; reflexivity|].
  cbn [eerd_poll]. unfold bind.
  destruct (mmio_load addr w) as [v w1| | |] eqn:Hl;
    try (unfold mmio_load in Hl; destruct (device w) as [|[x|] r];
         discriminate Hl).
  destruct (mmio_load_inv _ _ _ _ Hl) as (He & Ht & _).
  destruct (Z.land v EEPROM_DONE =? 0).
  - destruct (IH addr w1) as (T & E). split; congruence.
  - cbn. split; assumption.
Qed.

(** One round of the MAC loop, however it ends, stores the request and
    nothing else, and keeps the register window. *)
Lemma read_mac_word_any i w :
  let w' := world_of (read_mac_word i w) in
  trace w' = trace w ++ [MmioStore (u32 (mmio_base (e1000 w) + EERD))
                            (u32 (eerd_request i))]
  /\ mmio_base (e1000 w') = mmio_base (e1000 w).
Proof.
  unfold read_mac_word. exec.
  match goal with |- context [@bind ?A ?B ?c ?k ?w1] =>
    destruct (bind_cases c k w1) as [(a & w2 & Hc & Hb)|(Hr & Hw & _)];
    pose proof (eerd_poll_any (S (List.length (device w1)))
                  (u32 (mmio_base (e1000 w) + EERD)) w1) as (Tp & Ep)
  end.
  - rewrite Hb. cbv beta in Hc. rewrite Hc in Tp, Ep. cbn [world_of] in Tp, Ep.
    cbn [trace e1000] in Tp, Ep.
    destruct (mmio_load (u32 (mmio_base (e1000 w) + EERD)) w2)
      as [v w3| | |] eqn:Hl;
      try (unfold mmio_load in Hl; destruct (device w2) as [|[x|] r];
           discriminate Hl).
    destruct (mmio_load_inv _ _ _ _ Hl) as (He & Ht & _).
    rewrite !(bind_done _ _ _ _ _ Hl).
    exec.
    match goal with |- context [put_dev ?d ?w] => finish (put_dev d) w end.
    cbn [world_of trace e1000 mmio_base].
    rewrite Ht, Tp, He, Ep, u32_u32. split; reflexivity.
  - cbv zeta. rewrite Hw. cbv beta. rewrite Tp, Ep.
    cbn [world_of trace e1000 mmio_base].
    rewrite u32_u32. split; reflexivity.
Qed.

Lemma returned_false_not_done {A} (o : outcome A) a w : returned o = false -> o <> Done a w.
Proof. intros H E. rewrite E in H. discriminate H. Qed.

(** The MAC loop, however it ends: the requests for words 0, 1, ... up to
    the round it stopped in, and all three if it returns. *)
Lemma mac_loop_any w :
  let w' := world_of (forM_ read_mac_word [0; 1; 2] w) in
  mmio_base (e1000 w') = mmio_base (e1000 w)
  /\ exists n,
       trace w' = trace w
                  ++ map (fun i => MmioStore (u32 (mmio_base (e1000 w) + EERD))
                                     (u32 (eerd_request i)))
                       (firstn n [0; 1; 2])
       /\ (returned (forM_ read_mac_word [0; 1; 2] w) = true -> n = 3%nat).
Proof.
  cbn [forM_].
  pose proof (read_mac_word_any 0 w) as (T0 & B0).
  destruct (bind_cases (read_mac_word 0)
              (fun _ => read_mac_word 1 ;; read_mac_word 2 ;; ret tt) w)
    as [(a0 & w1 & H0 & E0)|(R0 & W0 & N0)].
  2:{ cbv zeta. rewrite W0, N0. split; [exact B0|]. exists 1%nat.
      split; [exact T0|discriminate]. }
  rewrite E0. rewrite H0 in T0, B0. cbn [world_of] in T0, B0.
  pose proof (read_mac_word_any 1 w1) as (T1 & B1).
  destruct (bind_cases (read_mac_word 1) (fun _ => read_mac_word 2 ;; ret tt) w1)
    as [(a1 & w2 & H1 & E1)|(R1 & W1 & N1)].
  2:{ cbv zeta. rewrite W1, N1. split; [congruence|]. exists 2%nat.
      split; [|discriminate]. rewrite T1, T0, B0, <- app_assoc. reflexivity. }
  rewrite E1. rewrite H1 in T1, B1. cbn [world_of] in T1, B1.
  pose proof (read_mac_word_any 2 w2) as (T2 & B2).
  destruct (bind_cases (read_mac_word 2) (fun _ => ret tt) w2)
    as [(a2 & w3 & H2 & E2)|(R2 & W2 & N2)].
  2:{ cbv zeta. rewrite W2, N2. split; [congruence|]. exists 3%nat.
      split; [|reflexivity]. rewrite T2, T1, T0, B1, B0, <- !app_assoc.
      reflexivity. }
  rewrite E2. rewrite H2 in T2, B2. cbn [world_of ret] in T2, B2 |- *.
  split; [congruence|]. exists 3%nat. split; [|reflexivity].
  rewrite T2, T1, T0, B1, B0, <- !app_assoc. reflexivity.
Qed.

Lemma init_tx_outcomes {P : Platform} w :
  exists w',
    init_tx w
    = (if next_page w =? 0
       then Panic "failed to allocate transmission buffer\n" w'
       else Done tt w')
    /\ trace w'
       = trace w ++ (if next_page w =? 0 then []
                     else init_tx_stores (e1000 w) (next_page w))
    /\ free_pages w' = tl (free_pages w)
    /\ e1000 w'
       = mk_e1000 (mmio_base (e1000 w)) (mac (e1000 w)) (rx (e1000 w))
           (rx_count (e1000 w)) (rx_buf (e1000 w)) (next_page w)
           (packet_count (e1000 w)).
Proof.
  unfold init_tx, init_tx_stores, next_page. exec.
  destruct (first_page (free_pages w) =? 0); exec.
  - eexists. split; [reflexivity|]. cbn [trace free_pages e1000].
    rewrite app_nil_r. repeat split.
  - match goal with |- context [write_reg ?r ?v ?w] =>
      finish (write_reg r v) w end.
    eexists. split; [reflexivity|]. cbn [trace free_pages e1000].
    rewrite <- !app_assoc. repeat split.
Qed.

Lemma ioapic_calls_app t1 t2 :
  ioapic_calls (t1 ++ t2) = ioapic_calls t1 ++ ioapic_calls t2.
Proof.
  induction t1 as [|e t1 IH]; simpl; [reflexivity|].
  destruct e; simpl; rewrite ?IH; reflexivity.
Qed.

Lemma port_writes_app t1 t2 :
  port_writes (t1 ++ t2) = port_writes t1 ++ port_writes t2.
Proof.
  induction t1 as [|e t1 IH]; simpl; [reflexivity|].
  destruct e; simpl; rewrite ?IH; reflexivity.
Qed.

Lemma stores_elsewhere_app a e1 e2 :
  stores_elsewhere a e1 -> stores_elsewhere a e2 -> stores_elsewhere a (e1 ++ e2).
Proof.
  intros (A1 & B1 & C1) (A2 & B2 & C2). unfold stores_elsewhere.
  rewrite stores_to_app, ioapic_calls_app, port_writes_app.
  rewrite A1, A2, B1, B2, C1, C2. repeat split.
Qed.

Lemma stores_elsewhere_nil a : stores_elsewhere a [].
Proof. repeat split. Qed.

Lemma stores_elsewhere_cons a b v evs :
  (b =? a) = false -> stores_elsewhere a evs ->
  stores_elsewhere a (MmioStore b v :: evs).
Proof.
  intros Hne (A & B & C). unfold stores_elsewhere. cbn [stores_to ioapic_calls
    port_writes]. rewrite Hne. repeat split; assumption.
Qed.

Ltac elsewhere :=
  repeat first
    [ apply stores_elsewhere_nil
    | apply stores_elsewhere_cons;
      [ rewrite ?u32_u32; apply reg_addr_neq;
        unfold IMS, EERD, RCTL, RAL, RAH, RDBAL, RDBAH, RDLEN, RDH, RDT,
          TDBAL, TDBAH, TDLEN, TDH, TDT, TCTL, TIPG; lia
      | ] ].

Lemma mac_requests_elsewhere base l :
  stores_elsewhere (u32 (base + IMS))
    (map (fun i => MmioStore (u32 (base + EERD)) (u32 (eerd_request i))) l).
Proof. induction l as [|i l IH]; cbn [map]; elsewhere. exact IH. Qed.

Lemma init_rx_stores_elsewhere {P : Platform} dev ring :
  stores_elsewhere (u32 (mmio_base dev + IMS)) (init_rx_first_stores dev ring)
  /\ stores_elsewhere (u32 (mmio_base dev + IMS)) (init_rx_last_stores dev).
Proof.
  unfold init_rx_first_stores, init_rx_last_stores. split.
  - destruct (ring =? 0); cbn [app]; elsewhere.
  - elsewhere.
Qed.

Lemma init_tx_stores_elsewhere {P : Platform} dev ring :
  stores_elsewhere (u32 (mmio_base dev + IMS)) (init_tx_stores dev ring).
Proof. unfold init_tx_stores. elsewhere. Qed.

(** The bring-up, however it ends: the interrupt mask register is stored to
    and the interrupt line is routed only as the last two steps of a run
    that returns. *)
Lemma bring_up_any {P : Platform} v :
  let ims := u32 (mmio_base (e1000 v) + IMS) in
  exists evs,
    stores_elsewhere ims evs
    /\ trace (world_of (bring_up v))
       = trace v ++ evs
         ++ (if returned (bring_up v)
             then [MmioStore ims (u32 IMS_VALUE); Ioapicenable IRQ_PCI0 0]
             else [])
    /\ mmio_base (e1000 (world_of (bring_up v))) = mmio_base (e1000 v).
Proof.
  intros ims. unfold bring_up.
  pose proof (mac_loop_any v) as (B0 & n & T0 & _).
  pose proof (mac_requests_elsewhere (mmio_base (e1000 v)) (firstn n [0; 1; 2]))
    as S0. fold ims in S0.
  match goal with |- context [@bind ?A ?B ?c ?k v] =>
    destruct (bind_cases c k v) as [(a & w1 & H1 & E1)|(R & W & N)] end.
  2:{ rewrite W, N. eexists. split; [exact S0|].
      rewrite app_nil_r. split; assumption. }
  rewrite E1. rewrite H1 in B0, T0. cbn [world_of] in B0, T0. clear E1 H1.
  pose proof (init_rx_outcomes w1) as H. cbv zeta in H.
  destruct H as (w2 & H2 & T2 & B2 & _).
  destruct (init_rx_stores_elsewhere (e1000 w1) (next_page w1)) as (S1 & S2).
  rewrite B0 in S1, S2. fold ims in S1, S2.
  assert (S12 : stores_elsewhere ims
            (init_rx_first_stores (e1000 w1) (next_page w1)
             ++ (if negb (next_page w1 =? 0)
                    && pages_suffice (Z.to_nat (u32 (PGSIZE / sizeof_rx_desc)))
                         (tl (tl (free_pages w1)))
                 then init_rx_last_stores (e1000 w1) else []))).
  { apply stores_elsewhere_app; [exact S1|].
    destruct (_ && _); [exact S2|apply stores_elsewhere_nil]. }
  rewrite T0 in T2. rewrite <- app_assoc in T2.
  pose proof (stores_elsewhere_app _ _ _ S0 S12) as S012. clear S0 S1 S2 S12.
  rewrite B0 in B2. clear T0 B0.
  match type of T2 with _ = _ ++ ?e => set (evs2 := e) in * end.
  assert (Hstop : forall m, init_rx w1 = Panic m w2 ->
    exists evs,
      stores_elsewhere ims evs
      /\ trace (world_of ((init_rx ;; init_tx ;; init_intr ;;
                           ioapicenable IRQ_PCI0 0) w1))
         = trace v ++ evs
           ++ (if returned ((init_rx ;; init_tx ;; init_intr ;;
                             ioapicenable IRQ_PCI0 0) w1)
               then [MmioStore ims (u32 IMS_VALUE); Ioapicenable IRQ_PCI0 0]
               else [])
      /\ mmio_base (e1000 (world_of ((init_rx ;; init_tx ;; init_intr ;;
                           ioapicenable IRQ_PCI0 0) w1)))
         = mmio_base (e1000 v)).
  { intros m Hm. rewrite (bind_panic _ _ _ _ _ Hm). cbn [world_of returned].
    exists evs2. rewrite app_nil_r.
    split; [exact S012|split; [exact T2|exact B2]]. }
  destruct (next_page w1 =? 0); [exact (Hstop _ H2)|].
  destruct (pages_suffice _ _); [|exact (Hstop _ H2)]. clear Hstop.
  rewrite (bind_done _ _ _ _ _ H2).
  destruct (init_tx_outcomes w2) as (w3 & H3 & T3 & _ & E3).
  pose proof (init_tx_stores_elsewhere (e1000 w2) (next_page w2)) as S3.
  rewrite B2 in S3. fold ims in S3.
  destruct (next_page w2 =? 0).
  - rewrite (bind_panic _ _ _ _ _ H3). cbn [world_of returned].
    exists evs2. rewrite app_nil_r in *. rewrite E3. cbn [mmio_base].
    split; [exact S012|split; [congruence|exact B2]].
  - rewrite (bind_done _ _ _ _ _ H3). unfold init_intr, ioapicenable. exec.
    match goal with |- context [emit ?e ?w] => finish (emit e) w end.
    cbn [world_of returned trace e1000].
    exists (evs2 ++ init_tx_stores (e1000 w2) (next_page w2)).
    split; [apply stores_elsewhere_app; assumption|].
    rewrite T3, T2, E3. cbn [mmio_base]. rewrite u32_u32, B2. fold ims.
    rewrite <- !app_assoc. split; reflexivity.
Qed.

(** ** The whole of [e1000init] *)

Lemma port_writes_quiet a evs :
  forallb is_port_write evs = true ->
  stores_to a evs = [] /\ ioapic_calls evs = [].
Proof.
  induction evs as [|e evs IH]; [split; reflexivity|].
  destruct e; cbn [forallb is_port_write andb]; try discriminate.
  exact IH.
Qed.

Lemma probe_selects_are_selects l :
  forallb is_config_select (flat_map probe_selects l) = true.
Proof. induction l as [|d l IH]; [reflexivity|]. cbn. exact IH. Qed.

Lemma selects_are_port_writes evs :
  forallb is_config_select evs = true -> forallb is_port_write evs = true.
Proof.
  induction evs as [|e evs IH]; [reflexivity|].
  destruct e; cbn [forallb is_config_select is_port_write]; try discriminate.
  intros H. apply andb_true_iff in H. exact (IH (proj2 H)).
Qed.

Lemma config_writes_none evs :
  port_writes evs = [] -> forall sel, config_writes sel evs = [].
Proof.
  induction evs as [|e evs IH]; intros H sel; [reflexivity|].
  destruct e; cbn [port_writes config_writes] in *; try discriminate;
    apply IH; exact H.
Qed.

Lemma config_writes_quiet t2 :
  port_writes t2 = [] ->
  forall t1 sel, config_writes sel (t1 ++ t2) = config_writes sel t1.
Proof.
  intros H. induction t1 as [|e t1 IH]; intros sel.
  - apply config_writes_none. exact H.
  - destruct e; cbn [app config_writes]; try apply IH.
    destruct (port =? PCI_CONFIG_ADDR); [apply IH|].
    destruct (port =? PCI_CONFIG_DATA); [f_equal|]; apply IH.
Qed.

Lemma config_writes_selects t1 t2 :
  forallb is_config_select t1 = true ->
  forall sel, exists sel', config_writes sel (t1 ++ t2) = config_writes sel' t2.
Proof.
  induction t1 as [|e t1 IH]; intros H sel; [exists sel; reflexivity|].
  destruct e; cbn [forallb is_config_select] in H; try discriminate.
  apply andb_true_iff in H. destruct H as (Hp & H).
  cbn [app config_writes]. rewrite Hp. apply IH. exact H.
Qed.

(** The run of [e1000init] on a machine with the card in slot [t]. *)
Lemma e1000init_card_trace {P : Platform} w :
  let t := first_match (pci_space w) [0; 1; 2; 3] in
  let bar := bar0_of (pci_space w) t in
  let ims := u32 (bar + IMS) in
  let w' := world_of (e1000init w) in
  t <> -1 ->
  exists evs,
    stores_elsewhere ims evs
    /\ trace w'
       = trace w ++ flat_map probe_selects (scanned (pci_space w) [0; 1; 2; 3])
         ++ activation_writes (pci_space w) t ++ evs
         ++ (if returned (e1000init w)
             then [MmioStore ims (u32 IMS_VALUE); Ioapicenable IRQ_PCI0 0]
             else [])
    /\ (bar <> 0 -> mmio_base (e1000 w') = bar)
    /\ (bar = 0 ->
        e1000init w = Panic "failed to determine base address" w'
        /\ evs = [] /\ e1000 w' = e1000 w /\ memory w' = memory w
        /\ free_pages w' = free_pages w /\ device w' = device w).
Proof.
  intros t bar ims w' Ht. subst w'.
  rewrite (e1000init_found P w Ht). fold t. fold bar.
  destruct (Z.eqb_spec bar 0) as [E|E].
  - exists []. cbn [world_of returned activated trace e1000 memory free_pages device].
    rewrite !app_nil_r.
    split; [apply stores_elsewhere_nil|]. split; [reflexivity|].
    split; [contradiction|]. intros _. repeat split.
  - match goal with |- context [bring_up ?v] =>
      destruct (bring_up_any v) as (evs & S & T & B) end.
    cbn [activated e1000 trace mmio_base] in S, T, B.
    exists evs. split; [exact S|]. split.
    + rewrite T. fold ims. rewrite <- !app_assoc. reflexivity.
    + split; [intros _; exact B|contradiction].
Qed.

Lemma e1000init_no_card {P : Platform} w :
  first_match (pci_space w) [0; 1; 2; 3] = -1 ->
  exists a,
    e1000init w
    = Done tt
        (mk_world (e1000 w) (memory w) a (pci_space w) (free_pages w) (device w)
           (trace w ++ flat_map probe_selects (scanned (pci_space w) [0; 1; 2; 3]))).
Proof.
  intros Ht. destruct (probe_trace [0; 1; 2; 3] w) as (a & Hp).
  exists a. unfold e1000init. rewrite (bind_done _ _ _ _ _ Hp), Ht. reflexivity.
Qed.

Lemma activation_are_port_writes space t :
  forallb is_port_write (activation_writes space t) = true.
Proof. reflexivity. Qed.

(** X8. [e1000init] unmasks the card's interrupts and routes its interrupt
    line only as its last two steps, and only in a run that found the card
    and returns: whenever it stops earlier (no card, no base address, a
    failed allocation, a card that never answers) the interrupt mask
    register has not been stored to and [ioapicenable] has not been
    called. *)
Theorem e1000init_enables_interrupts_last (P : Platform) w :
  let t := first_match (pci_space w) [0; 1; 2; 3] in
  let ims := u32 (bar0_of (pci_space w) t + IMS) in
  exists evs,
    trace (world_of (e1000init w))
    = trace w ++ evs
      ++ (if negb (t =? -1) && returned (e1000init w)
          then [MmioStore ims (u32 IMS_VALUE); Ioapicenable IRQ_PCI0 0]
          else [])
    /\ stores_to ims evs = []
    /\ ioapic_calls evs = [].
Proof.
  intros t ims. subst ims t.
  set (t := first_match (pci_space w) [0; 1; 2; 3]).
  set (ims := u32 (bar0_of (pci_space w) t + IMS)).
  pose proof (probe_selects_are_selects (scanned (pci_space w) [0; 1; 2; 3]))
    as Hsel.
  apply selects_are_port_writes in Hsel.
  destruct (Z.eqb_spec t (-1)) as [E|E].
  - destruct (e1000init_no_card w E) as (a & Hr). rewrite Hr.
    cbn [negb andb world_of trace]. eexists. rewrite app_nil_r.
    split; [reflexivity|]. exact (port_writes_quiet ims _ Hsel).
  - destruct (e1000init_card_trace w E) as (evs & (S1 & S2 & _) & T & _).
    fold t in S1, T. fold ims in S1, T. cbn [negb andb].
    exists (flat_map probe_selects (scanned (pci_space w) [0; 1; 2; 3])
            ++ activation_writes (pci_space w) t ++ evs).
    split; [rewrite T, <- !app_assoc; reflexivity|].
    destruct (port_writes_quiet ims _ Hsel) as (A1 & A2).
    destruct (port_writes_quiet ims _
                (activation_are_port_writes (pci_space w) t)) as (A3 & A4).
    rewrite !stores_to_app, !ioapic_calls_app, A1, A2, A3, A4, S1, S2.
    split; reflexivity.
Qed.

Lemma command_of_range space t : 0 <= command_of space t < 2 ^ 16.
Proof.
  unfold command_of.
  pose proof (u8_range (space (Z.lor (pci_dev_addr t) 4))).
  pose proof (u8_range (space (Z.lor (pci_dev_addr t) 5))). lia.
Qed.

(** X9. The one write [e1000init] makes to configuration space goes to the
    command register (offset 4) of the slot the probe found, and its value
    is the command word read from bytes 4 and 5 with bit 2, the bus master
    bit, set: bit 2 is set and every other bit is as it was read, bits 16
    and up being zero. Without a card nothing is written. Later stages
    add no write, however the run ends. *)
Theorem e1000init_sets_bus_master (P : Platform) w :
  let t := first_match (pci_space w) [0; 1; 2; 3] in
  let command := command_of (pci_space w) t in
  exists evs value,
    trace (world_of (e1000init w)) = trace w ++ evs
    /\ config_writes (pci_addr w) evs
       = (if t =? -1 then [] else [(Z.lor (pci_dev_addr t) 4, value)])
    /\ Z.testbit value 2 = true
    /\ (forall k, k <> 2 -> Z.testbit value k = Z.testbit command k)
    /\ 0 <= value < 2 ^ 16.
Proof.
  intros t command. subst command t.
  set (t := first_match (pci_space w) [0; 1; 2; 3]).
  set (command := command_of (pci_space w) t).
  pose proof (probe_selects_are_selects (scanned (pci_space w) [0; 1; 2; 3]))
    as Hsel.
  assert (Hbits : Z.testbit (Z.lor command (Z.shiftl 1 2)) 2 = true
                  /\ (forall k, k <> 2 ->
                      Z.testbit (Z.lor command (Z.shiftl 1 2)) k
                      = Z.testbit command k)
                  /\ 0 <= Z.lor command (Z.shiftl 1 2) < 2 ^ 16).
  { split; [rewrite Z.lor_spec; apply orb_true_r|]. split.
    - intros k Hk. rewrite Z.lor_spec.
      change (Z.shiftl 1 2) with (2 ^ 2).
      destruct (Z.lt_ge_cases k 0) as [Hn|Hn].
      + rewrite !Z.testbit_neg_r by lia. reflexivity.
      + rewrite Z.pow2_bits_eqb by lia.
        rewrite (proj2 (Z.eqb_neq 2 k)) by lia. apply orb_false_r.
    - pose proof (command_of_range (pci_space w) t) as Hc. fold command in Hc.
      split; [apply Z.lor_nonneg; split; [lia|cbn; lia]|].
      destruct (Z.eq_dec (Z.lor command (Z.shiftl 1 2)) 0) as [Z0|Z0];
        [rewrite Z0; lia|].
      apply Z.log2_lt_pow2; [|rewrite Z.log2_lor by (cbn; lia)].
      + assert (0 <= Z.lor command (Z.shiftl 1 2))
          by (apply Z.lor_nonneg; split; [lia|cbn; lia]). lia.
      + apply Z.max_lub_lt; [|cbn; lia].
        destruct (Z.eq_dec command 0) as [C0|C0]; [rewrite C0; cbn; lia|].
        apply Z.log2_lt_pow2; lia. }
  destruct (Z.eqb_spec t (-1)) as [E|E].
  - destruct (e1000init_no_card w E) as (a & Hr). rewrite Hr.
    cbn [world_of trace]. eexists. exists (Z.lor command (Z.shiftl 1 2)).
    split; [reflexivity|]. split; [|exact Hbits].
    destruct (config_writes_selects _ [] Hsel (pci_addr w)) as (s & Hs).
    rewrite app_nil_r in Hs. exact Hs.
  - destruct (e1000init_card_trace w E) as (evs & (_ & _ & S3) & T & _).
    fold t in T.
    match type of T with _ = _ ++ _ ++ _ ++ evs ++ ?tl0 => set (tl := tl0) in * end.
    exists (flat_map probe_selects (scanned (pci_space w) [0; 1; 2; 3])
            ++ activation_writes (pci_space w) t ++ evs ++ tl).
    exists (Z.lor command (Z.shiftl 1 2)).
    split; [exact T|]. split; [|exact Hbits].
    destruct (config_writes_selects _
                (activation_writes (pci_space w) t ++ evs ++ tl) Hsel
                (pci_addr w)) as (s & Hs).
    rewrite Hs.
    assert (Hq : port_writes (evs ++ tl) = []).
    { rewrite port_writes_app, S3. subst tl.
      destruct (returned _); reflexivity. }
    rewrite (config_writes_quiet _ Hq). reflexivity.
Qed.

Lemma bar0_of_range space t : 0 <= bar0_of space t < 2 ^ 32.
Proof.
  unfold bar0_of.
  pose proof (u8_range (space (Z.lor (pci_dev_addr t) 16))).
  pose proof (u8_range (space (Z.lor (pci_dev_addr t) 17))).
  pose proof (u8_range (space (Z.lor (pci_dev_addr t) 18))).
  pose proof (u8_range (space (Z.lor (pci_dev_addr t) 19))). lia.
Qed.

(** X10. Once the card is found and its first base address register is not
    zero, the driver's register window is that register's four bytes
    (configuration bytes 16 to 19, low byte first), flag bits included,
    and it stays so through the rest of [e1000init], whether the run
    returns, panics in a later stage or waits for the EEPROM for ever. *)
Theorem e1000init_register_window (P : Platform) w :
  let t := first_match (pci_space w) [0; 1; 2; 3] in
  let bar := bar0_of (pci_space w) t in
  t <> -1 -> bar <> 0 ->
  mmio_base (e1000 (world_of (e1000init w))) = bar /\ 0 < bar < 2 ^ 32.
Proof.
  intros t bar Ht Hb.
  destruct (e1000init_card_trace w Ht) as (evs & _ & _ & B & _).
  split; [exact (B Hb)|].
  pose proof (bar0_of_range (pci_space w) t). fold bar in H. lia.
Qed.

Lemma e1000init_register_window_witness :
  first_match (pci_space (card_world (space_with_window 2 0xFEBC0000))) [0; 1; 2; 3] <> -1
  /\ bar0_of (pci_space (card_world (space_with_window 2 0xFEBC0000))) 2 <> 0
  /\ mmio_base (e1000 (world_of (e1000init (P := xv6_platform)
                                   (card_world (space_with_window 2 0xFEBC0000)))))
     = 0xFEBC0000.
Proof.
  assert (H1 : first_match (pci_space (card_world (space_with_window 2 0xFEBC0000)))
                 [0; 1; 2; 3] <> -1) by (vm_compute; discriminate).
  assert (H2 : bar0_of (pci_space (card_world (space_with_window 2 0xFEBC0000)))
                 (first_match (pci_space (card_world (space_with_window 2 0xFEBC0000)))
                    [0; 1; 2; 3]) <> 0) by (vm_compute; discriminate).
  split; [exact H1|]. split; [vm_compute; discriminate|].
  rewrite (proj1 (e1000init_register_window xv6_platform
                    (card_world (space_with_window 2 0xFEBC0000)) H1 H2)).
  vm_compute. reflexivity.
Defined.

(** X11. A card whose first base address register reads zero stops
    [e1000init] with a panic before anything touches the driver's record,
    memory, the allocator or the card's registers; by then the card has
    already been made a bus master, the command register write being the
    last but four of the port writes. *)
Theorem e1000init_zero_bar_panics (P : Platform) w :
  let t := first_match (pci_space w) [0; 1; 2; 3] in
  t <> -1 -> bar0_of (pci_space w) t = 0 ->
  exists w',
    e1000init w = Panic "failed to determine base address" w'
    /\ e1000 w' = e1000 w /\ memory w' = memory w
    /\ free_pages w' = free_pages w /\ device w' = device w
    /\ exists evs,
         trace w' = trace w ++ evs
         /\ forallb is_port_write evs = true
         /\ config_writes (pci_addr w) evs
            = [(Z.lor (pci_dev_addr t) 4,
                Z.lor (command_of (pci_space w) t) (Z.shiftl 1 2))].
Proof.
  intros t Ht Hb.
  destruct (e1000init_card_trace w Ht) as (evs & _ & T & _ & Z0).
  destruct (Z0 Hb) as (Hr & -> & He & Hm & Hf & Hd).
  exists (world_of (e1000init w)). split; [exact Hr|].
  repeat (split; [assumption|]).
  rewrite Hr in T. cbn [returned app] in T. rewrite app_nil_r in T.
  fold t in T. rewrite <- Hr in T.
  pose proof (probe_selects_are_selects (scanned (pci_space w) [0; 1; 2; 3]))
    as Hsel.
  exists (flat_map probe_selects (scanned (pci_space w) [0; 1; 2; 3])
          ++ activation_writes (pci_space w) t).
  split; [exact T|]. split.
  - rewrite forallb_app, (selects_are_port_writes _ Hsel). reflexivity.
  - destruct (config_writes_selects _ (activation_writes (pci_space w) t)
                Hsel (pci_addr w)) as (s & Hs).
    rewrite Hs. reflexivity.
Qed.

Lemma e1000init_zero_bar_panics_witness :
  exists w',
    e1000init (P := xv6_platform) (card_world (space_with_window 1 0))
    = Panic "failed to determine base address" w'
    /\ e1000 w' = e1000 (card_world (space_with_window 1 0)).
Proof.
  destruct (e1000init_zero_bar_panics xv6_platform
              (card_world (space_with_window 1 0))) as (w' & Hr & He & _).
  - vm_compute; discriminate.
  - vm_compute; reflexivity.
  - exists w'. split; [exact Hr|exact He].
Defined.

(** ** The transmit ring *)

Lemma u32_neg z : - 2 ^ 32 <= z < 0 -> u32 z = z + 2 ^ 32.
Proof.
  intros H. unfold u32. symmetry.
  apply (Z.mod_unique_pos z (2 ^ 32) (-1) (z + 2 ^ 32)); lia.
Qed.

(** A byte below a register of the window is outside the register. *)
Lemma below_register x base r :
  0 <= x < base -> 0 <= r -> base + r + 4 <= 2 ^ 32 ->
  4 <= u32 (x - u32 (base + r)).
Proof.
  intros Hx Hr Hb. rewrite u32_sub_u32_r, u32_neg; lia.
Qed.

Lemma load32_store32_other m base r1 r2 v :
  0 <= base -> 0 <= r1 -> 0 <= r2 ->
  base + r1 + 4 <= 2 ^ 32 -> base + r2 + 4 <= 2 ^ 32 ->
  r1 + 4 <= r2 \/ r2 + 4 <= r1 ->
  load32 (store32 m (u32 (base + r2)) v) (u32 (base + r1))
  = load32 m (u32 (base + r1)).
Proof.
  intros Hb H1 H2 B1 B2 Hd. apply load32_store32_outside.
  rewrite (u32_small (base + r1)), (u32_small (base + r2)) by lia.
  destruct Hd as [Hd|Hd].
  - rewrite u32_neg by lia. lia.
  - rewrite u32_small by lia. lia.
Qed.

Lemma init_tx_memory {P : Platform} w :
  next_page w <> 0 ->
  let reg r := u32 (mmio_base (e1000 w) + r) in
  memory (world_of (init_tx w))
  = store32 (store32 (store32 (store32 (store32 (store32 (store32
      (memset (memory w) (next_page w) 0 PGSIZE)
      (reg TDBAL) (V2P (next_page w))) (reg TDBAH) 0) (reg TDLEN) PGSIZE)
      (reg TDH) 0) (reg TDT) 0) (reg TCTL) TCTL_VALUE) (reg TIPG) 0xA.
Proof.
  intros Hp reg. unfold init_tx, next_page in *. exec.
  rewrite (proj2 (Z.eqb_neq _ _) Hp). exec.
  match goal with |- context [write_reg ?r ?v ?w] =>
    finish (write_reg r v) w end.
  reflexivity.
Qed.

(** X12. When the allocator has a page, [init_tx] returns with the page as
    the transmit ring: provided the page lies below the register window,
    every byte of it reads zero afterwards, and the card's registers hold
    the ring's physical address, its length in bytes ([PGSIZE]) and a head
    and tail of zero, an empty ring. *)
Theorem init_tx_ring_zeroed (P : Platform) w :
  let page := next_page w in
  let base := mmio_base (e1000 w) in
  page <> 0 ->
  0 < PGSIZE -> page + PGSIZE <= base -> base + 2 ^ 14 <= 2 ^ 32 ->
  exists w',
    init_tx w = Done tt w'
    /\ tx (e1000 w') = page
    /\ (forall x, 0 <= x < PGSIZE -> load8 (memory w') (page + x) = 0)
    /\ load32 (memory w') (u32 (base + TDBAL)) = u32 (V2P page)
    /\ load32 (memory w') (u32 (base + TDBAH)) = 0
    /\ load32 (memory w') (u32 (base + TDLEN)) = u32 PGSIZE
    /\ load32 (memory w') (u32 (base + TDH)) = 0
    /\ load32 (memory w') (u32 (base + TDT)) = 0.
Proof.
  intros page base Hp Hs Hlow Hwin.
  destruct (init_tx_outcomes w) as (w' & Hr & _ & _ & He).
  pose proof (init_tx_memory w Hp) as Hm. cbv zeta in Hm.
  fold page in Hr, He, Hm. fold base in Hm.
  rewrite (proj2 (Z.eqb_neq _ _) Hp) in Hr. rewrite Hr in Hm.
  cbn [world_of] in Hm.
  assert (Hpage : 0 <= page).
  { subst page. unfold next_page, first_page.
    destruct (free_pages w); [lia|apply u32_range]. }
  exists w'. split; [exact Hr|]. split; [rewrite He; reflexivity|].
  rewrite Hm. unfold TDBAL, TDBAH, TDLEN, TDH, TDT, TCTL, TIPG.
  split.
  { intros x Hx.
    rewrite !load8_store32_outside by (apply below_register; lia).
    rewrite load8_memset_inside; [reflexivity|].
    replace (page + x - page) with x by lia. rewrite u32_small; lia. }
  repeat split;
    rewrite ?(load32_store32_other _ base) by lia;
    rewrite load32_store32; rewrite ?u32_small by lia; reflexivity.
Qed.

Lemma init_tx_ring_zeroed_witness :
  exists w',
    init_tx (P := xv6_platform) (probed_world (sample_pages 4096 1) [])
    = Done tt w'
    /\ tx (e1000 w') = 0x80400000
    /\ load32 (memory w') (u32 (sample_mmio_base + TDLEN)) = 4096.
Proof.
  destruct (init_tx_ring_zeroed xv6_platform
              (probed_world (sample_pages 4096 1) []))
    as (w' & Hr & Ht & _ & _ & _ & Hl & _).
  - vm_compute; discriminate.
  - vm_compute; reflexivity.
  - vm_compute; discriminate.
  - vm_compute; discriminate.
  - exists w'. split; [exact Hr|]. split; [exact Ht|exact Hl].
Defined.

(** X13. When the allocator has nothing to give, [init_tx] panics before
    it touches memory or any register of the card: the transmit ring
    pointer is null and nothing else has changed. *)
Theorem init_tx_allocation_failure (P : Platform) w :
  next_page w = 0 ->
  exists w',
    init_tx w = Panic "failed to allocate transmission buffer\n" w'
    /\ trace w' = trace w /\ memory w' = memory w /\ device w' = device w
    /\ e1000 w'
       = mk_e1000 (mmio_base (e1000 w)) (mac (e1000 w)) (rx (e1000 w))
           (rx_count (e1000 w)) (rx_buf (e1000 w)) 0 (packet_count (e1000 w)).
Proof.
  intros Hp. unfold init_tx, next_page in *. exec. rewrite Hp. exec.
  eexists. split; [reflexivity|]. repeat split.
Qed.

Lemma init_tx_allocation_failure_witness :
  exists w',
    init_tx (P := xv6_platform) (probed_world [] [])
    = Panic "failed to allocate transmission buffer\n" w'
    /\ trace w' = [].
Proof.
  destruct (init_tx_allocation_failure xv6_platform (probed_world [] []) eq_refl)
    as (w' & Hr & Ht & _).
  exists w'. split; [exact Hr|exact Ht].
Defined.

(** ** The station address registers *)

(** X14. Whatever happens later in [init_rx], its first two register
    stores program the receive address: the low register gets the first
    four bytes of the station address, low byte first, the high register
    the last two. Bits 16 to 31 of the value stored in the high register
    are zero, bit 31 (address valid) among them, and neither register is
    stored to again. *)
Theorem init_rx_programs_station_address (P : Platform) w :
  let dev := e1000 w in
  let ral := u32 (mmio_base dev + RAL) in
  let rah := u32 (mmio_base dev + RAH) in
  let low := mac_byte dev 0 + 2 ^ 8 * mac_byte dev 1
             + 2 ^ 16 * mac_byte dev 2 + 2 ^ 24 * mac_byte dev 3 in
  let high := mac_byte dev 4 + 2 ^ 8 * mac_byte dev 5 in
  exists rest,
    trace (world_of (init_rx w))
    = trace w ++ [MmioStore ral low; MmioStore rah high] ++ rest
    /\ stores_to ral rest = [] /\ stores_to rah rest = []
    /\ 0 <= high < 2 ^ 16
    /\ (forall k, 16 <= k -> Z.testbit high k = false).
Proof.
  intros dev ral rah low high.
  assert (Hlow : 0 <= low < 2 ^ 32).
  { subst low. unfold mac_byte.
    pose proof (u8_range (nth 0 (mac dev) 0)).
    pose proof (u8_range (nth 1 (mac dev) 0)).
    pose proof (u8_range (nth 2 (mac dev) 0)).
    pose proof (u8_range (nth 3 (mac dev) 0)). lia. }
  assert (Hhigh : 0 <= high < 2 ^ 16).
  { subst high. unfold mac_byte.
    pose proof (u8_range (nth 4 (mac dev) 0)).
    pose proof (u8_range (nth 5 (mac dev) 0)). lia. }
  pose proof (init_rx_outcomes w) as H. cbv zeta in H.
  destruct H as (w' & Hr & T & _).
  assert (Hw : world_of (init_rx w) = w').
  { rewrite Hr. destruct (next_page w =? 0); [reflexivity|].
    destruct (pages_suffice _ _); reflexivity. }
  rewrite Hw, T. unfold init_rx_first_stores, init_rx_last_stores. fold dev.
  rewrite !u32_u32. fold ral rah low high.
  rewrite (u32_small low), (u32_small high) by lia.
  rewrite <- !app_assoc. cbn [app].
  eexists. split; [reflexivity|].
  assert (Hne : forall r1 r2 v l,
            0 <= r1 < 2 ^ 32 -> 0 <= r2 < 2 ^ 32 -> r1 <> r2 ->
            stores_to (u32 (mmio_base dev + r2)) l = [] ->
            stores_to (u32 (mmio_base dev + r2))
              (MmioStore (u32 (mmio_base dev + r1)) v :: l) = []).
  { intros r1 r2 v l H1 H2 Hd Hl. cbn [stores_to].
    rewrite (reg_addr_neq _ r1 r2 H1 H2 Hd). exact Hl. }
  split; [|split; [|split; [exact Hhigh|]]].
  - subst ral.
    destruct (next_page w =? 0); cbn [app negb andb];
      [reflexivity|].
    destruct (pages_suffice _ _); cbn [app];
      repeat (apply Hne; [unfold RDBAL, RDBAH, RDLEN, RDH, RDT, RCTL; lia
                         |unfold RAL; lia
                         |unfold RAL, RDBAL, RDBAH, RDLEN, RDH, RDT, RCTL; lia|]);
      reflexivity.
  - subst rah.
    destruct (next_page w =? 0); cbn [app negb andb];
      [reflexivity|].
    destruct (pages_suffice _ _); cbn [app];
      repeat (apply Hne; [unfold RDBAL, RDBAH, RDLEN, RDH, RDT, RCTL; lia
                         |unfold RAH; lia
                         |unfold RAH, RDBAL, RDBAH, RDLEN, RDH, RDT, RCTL; lia|]);
      reflexivity.
  - intros k Hk.
    destruct (Z.eq_dec high 0) as [E|E]; [rewrite E; apply Z.bits_0|].
    apply Z.bits_above_log2; [lia|].
    assert (Z.log2 high < 16) by (apply Z.log2_lt_pow2; lia). lia.
Qed.

(** ** The receive ring that [init_rx] builds *)

Lemma u32_away n x a :
  0 <= a -> 0 <= n -> a + n <= 2 ^ 32 -> 0 <= x < 2 ^ 32 ->
  x < a \/ a + n <= x -> n <= u32 (x - a).
Proof.
  intros Ha Hn Hb Hx [H|H].
  - rewrite u32_neg by lia. lia.
  - rewrite u32_small by lia. lia.
Qed.

Lemma load8_store32_far m a v x :
  0 <= a -> a + 4 <= 2 ^ 32 -> 0 <= x < 2 ^ 32 -> x < a \/ a + 4 <= x ->
  load8 (store32 m a v) x = load8 m x.
Proof.
  intros Ha Hb Hx H. apply load8_store32_outside.
  apply (u32_away 4); lia.
Qed.

Lemma load8_memset_far m a c n x :
  0 <= a -> 0 <= n -> a + n <= 2 ^ 32 -> 0 <= x < 2 ^ 32 ->
  x < a \/ a + n <= x ->
  load8 (memset m a c n) x = load8 m x.
Proof.
  intros Ha Hn Hb Hx H. apply load8_memset_outside.
  apply (u32_away n); lia.
Qed.

Lemma load8_memset_in m a c n x :
  0 <= a -> a <= x < a + n -> a + n <= 2 ^ 32 ->
  load8 (memset m a c n) x = u8 c.
Proof.
  intros Ha Hx Hb. apply load8_memset_inside. rewrite u32_small; lia.
Qed.

Lemma load32_bytes_eq m m' a :
  (forall k, 0 <= k < 4 -> load8 m (a + k) = load8 m' (a + k)) ->
  load32 m a = load32 m' a.
Proof.
  intros H. unfold load32.
  rewrite <- (H 1), <- (H 2), <- (H 3) by lia.
  pose proof (H 0 ltac:(lia)) as H0. rewrite Z.add_0_r in H0.
  rewrite H0. reflexivity.
Qed.

Lemma load32_zero m a :
  (forall k, 0 <= k < 4 -> load8 m (a + k) = 0) -> load32 m a = 0.
Proof.
  intros H. unfold load32.
  rewrite (H 1), (H 2), (H 3) by lia.
  pose proof (H 0 ltac:(lia)) as H0. rewrite Z.add_0_r in H0.
  rewrite H0. reflexivity.
Qed.

Lemma load32_store32_far m a v x :
  0 <= a -> a + 4 <= 2 ^ 32 -> 0 <= x -> x + 4 <= 2 ^ 32 ->
  x + 4 <= a \/ a + 4 <= x ->
  load32 (store32 m a v) x = load32 m x.
Proof.
  intros Ha Hb Hx Hy H. apply load32_bytes_eq. intros k Hk.
  apply load8_store32_far; lia.
Qed.

Lemma load32_memset_far m a c n x :
  0 <= a -> 0 <= n -> a + n <= 2 ^ 32 -> 0 <= x -> x + 4 <= 2 ^ 32 ->
  x + 4 <= a \/ a + n <= x ->
  load32 (memset m a c n) x = load32 m x.
Proof.
  intros Ha Hn Hb Hx Hy H. apply load32_bytes_eq. intros k Hk.
  apply load8_memset_far; lia.
Qed.

Lemma next_page_range w : 0 <= next_page w < 2 ^ 32.
Proof.
  unfold next_page, first_page. destruct (free_pages w); [lia|apply u32_range].
Qed.

(** One round of the buffer loop with a page at hand and the list slot,
    the descriptor and the page in three separate places. *)
Lemma init_rx_slot_post {P : Platform} i w :
  let p := next_page w in
  let s := rx_buf (e1000 w) + 4 * i in
  let d := rx (e1000 w) + sizeof_rx_desc * i in
  p <> 0 -> 0 < PGSIZE -> p + PGSIZE <= 2 ^ 32 ->
  0 <= s -> s + 4 <= 2 ^ 32 -> 0 <= d -> d + 16 <= 2 ^ 32 ->
  apart p PGSIZE s 4 -> apart p PGSIZE d 16 -> apart s 4 d 16 ->
  exists w',
    init_rx_slot i w = Done tt w'
    /\ e1000 w' = e1000 w /\ trace w' = trace w
    /\ free_pages w' = tl (free_pages w) /\ device w' = device w
    /\ slot_linked (memory w') (rx (e1000 w)) (rx_buf (e1000 w)) i p
    /\ (forall a, 0 <= a < 2 ^ 32 ->
          ~ s <= a < s + 4 -> ~ d <= a < d + 16 -> ~ p <= a < p + PGSIZE ->
          load8 (memory w') a = load8 (memory w) a).
Proof.
  intros p s d Hp Hs Hpb Hs0 Hs1 Hd0 Hd1 Aps Apd Asd.
  pose proof (next_page_range w) as Hpr. fold p in Hpr.
  unfold init_rx_slot. exec.
  rewrite load32_store32, first_page_u32.
  fold (next_page w). fold p.
  rewrite (proj2 (Z.eqb_neq _ _) Hp). exec.
  match goal with |- context [ram_store32 ?a ?v ?w] =>
    finish (ram_store32 a v) w end.
  eexists. split; [reflexivity|].
  cbn [e1000 memory free_pages device trace]. unfold slot_linked.
  fold (next_page w). fold p. fold s. fold d.
  rewrite (u32_small s), (u32_small d) by lia.
  rewrite !load32_store32, (u32_small p) by lia.
  assert (Hre : load32 (memset (store32 (memory w) s p) p 0 PGSIZE) s = p).
  { rewrite load32_memset_far by (unfold apart in Aps; lia).
    rewrite load32_store32. apply u32_small. lia. }
  rewrite Hre. unfold apart in Aps, Apd, Asd.
  assert (HV : 0 <= V2P p < 2 ^ 32) by apply u32_range.
  repeat split.
  - rewrite !load32_store32_far by lia.
    rewrite load32_memset_far by lia.
    rewrite load32_store32. apply u32_small. lia.
  - rewrite !load32_store32_far by lia.
    rewrite load32_store32. apply u32_small. lia.
  - rewrite !load32_store32_far by lia. apply load32_store32.
  - rewrite !load32_store32_far by lia. apply load32_store32.
  - intros x Hx. rewrite !load8_store32_far by lia.
    apply load8_memset_in; lia.
  - intros a Ha Hns Hnd Hnp. rewrite !load8_store32_far by lia.
    rewrite load8_memset_far by lia. apply load8_store32_far; lia.
Qed.

Lemma slot_linked_frame {P : Platform} m m' ring list j p :
  0 <= list + 4 * j -> list + 4 * j + 4 <= 2 ^ 32 ->
  0 <= ring + sizeof_rx_desc * j -> ring + sizeof_rx_desc * j + 16 <= 2 ^ 32 ->
  0 <= p -> p + PGSIZE <= 2 ^ 32 ->
  (forall a, 0 <= a < 2 ^ 32 ->
     list + 4 * j <= a < list + 4 * j + 4
     \/ ring + sizeof_rx_desc * j <= a < ring + sizeof_rx_desc * j + 16
     \/ p <= a < p + PGSIZE ->
     load8 m' a = load8 m a) ->
  slot_linked m ring list j p -> slot_linked m' ring list j p.
Proof.
  intros Hl0 Hl1 Hr0 Hr1 Hp0 Hp1 Hf (A & B & C & D & E & F).
  assert (Hw : forall x, 0 <= x -> x + 4 <= 2 ^ 32 ->
            list + 4 * j <= x /\ x + 4 <= list + 4 * j + 4
            \/ ring + sizeof_rx_desc * j <= x
               /\ x + 4 <= ring + sizeof_rx_desc * j + 16 ->
            load32 m' x = load32 m x).
  { intros x Hx0 Hx1 Hx. apply load32_bytes_eq. intros k Hk. apply Hf; lia. }
  unfold slot_linked.
  rewrite !Hw by lia.
  repeat split; try assumption.
  intros x Hx. rewrite Hf by lia. apply F. exact Hx.
Qed.

Lemma init_rx_slots_post {P : Platform} n : forall i w,
  let L := rx_buf (e1000 w) in
  let R := rx (e1000 w) in
  let pages := firstn n (free_pages w) in
  let hi := i + Z.of_nat n in
  List.length pages = n ->
  0 <= i -> 0 < PGSIZE ->
  distinct_pages PGSIZE (2 ^ 32) pages ->
  0 <= L -> L + 4 * hi <= 2 ^ 32 -> 0 <= R -> R + 16 * hi <= 2 ^ 32 ->
  apart L (4 * hi) R (16 * hi) ->
  Forall (fun p => apart p PGSIZE L (4 * hi) /\ apart p PGSIZE R (16 * hi))
    pages ->
  exists w',
    init_rx_slots n i w = Done tt w'
    /\ e1000 w' = e1000 w /\ trace w' = trace w
    /\ free_pages w' = skipn n (free_pages w) /\ device w' = device w
    /\ (forall k, (k < n)%nat ->
          slot_linked (memory w') R L (i + Z.of_nat k) (nth k pages 0))
    /\ (forall a, 0 <= a < 2 ^ 32 ->
          ~ L + 4 * i <= a < L + 4 * hi ->
          ~ R + 16 * i <= a < R + 16 * hi ->
          Forall (fun p => ~ p <= a < p + PGSIZE) pages ->
          load8 (memory w') a = load8 (memory w) a).
Proof.
  induction n as [|n IH]; intros i w L R pages hi Hlen Hi Hs Hdp HL0 HL1 HR0 HR1
    HLR Hsep.
  - exists w. cbn [init_rx_slots ret skipn]. repeat split; [lia..].
  - subst pages. destruct (free_pages w) as [|p0 rest] eqn:Hfree;
      [discriminate Hlen|].
    cbn [firstn] in *. injection Hlen as Hlen.
    destruct Hdp as (Hall & Hord).
    apply Forall_cons_iff in Hall. destruct Hall as ((Hp0 & Hp1) & Hall).
    inversion Hord as [|x l Hfst Hord' E]; subst x l. clear Hord.
    apply Forall_cons_iff in Hsep. destruct Hsep as ((HpL & HpR) & Hsep).
    assert (Hnp : next_page w = p0).
    { unfold next_page. rewrite Hfree. apply u32_small. lia. }
    assert (Hhi : hi = i + 1 + Z.of_nat n) by (subst hi; lia).
    unfold apart in HLR, HpL, HpR. unfold sizeof_rx_desc in *.
    destruct (init_rx_slot_post i w) as
      (w1 & R1 & E1 & T1 & F1 & D1 & S1 & Fr1);
      rewrite ?Hnp; fold L R; unfold apart, sizeof_rx_desc; try lia.
    unfold sizeof_rx_desc in Fr1.
    rewrite Hnp in S1, Fr1. fold L R in S1, Fr1. rewrite Hfree in F1.
    cbn [tl] in F1.
    destruct (IH (i + 1) w1) as (w2 & R2 & E2 & T2 & F2 & D2 & S2 & Fr2);
      rewrite ?E1, ?F1; fold L R; rewrite <- ?Hhi;
      try assumption; try lia; [split; assumption|].
    rewrite E1 in S2, Fr2. rewrite F1 in F2, S2, Fr2. fold L R in S2, Fr2.
    rewrite <- Hhi in Fr2.
    exists w2. cbn [init_rx_slots]. rewrite (bind_done _ _ _ _ _ R1).
    split; [exact R2|]. split; [congruence|]. split; [congruence|].
    split; [exact F2|]. split; [congruence|]. split.
    + intros [|k] Hk; cbn [nth].
      * rewrite Z.add_0_r.
        apply (slot_linked_frame (memory w1)); unfold sizeof_rx_desc;
          try lia.
        -- intros a Ha Hin. apply Fr2; try lia.
           destruct Hin as [Hin|[Hin|Hin]].
           ++ eapply Forall_impl; [|exact Hsep].
              cbv beta. unfold apart. intros q Hq. lia.
           ++ eapply Forall_impl; [|exact Hsep].
              cbv beta. unfold apart. intros q Hq. lia.
           ++ eapply Forall_impl; [|exact Hfst].
              cbv beta. unfold apart. intros q Hq. lia.
        -- exact S1.
      * replace (i + Z.of_nat (S k)) with (i + 1 + Z.of_nat k) by lia.
        apply S2. lia.
    + intros a Ha HaL HaR Hap.
      apply Forall_cons_iff in Hap. destruct Hap as (Hap0 & Hap).
      rewrite Fr2 by (try assumption; lia).
      apply Fr1; try assumption; lia.
Qed.

Lemma firstn_length_app {A} (l r : list A) :
  firstn (List.length l) (l ++ r) = l.
Proof. induction l as [|a l IH]; [reflexivity|]. cbn. rewrite IH. reflexivity. Qed.

Lemma skipn_length_app {A} (l r : list A) :
  skipn (List.length l) (l ++ r) = r.
Proof. induction l as [|a l IH]; [reflexivity|]. exact IH. Qed.

(** [init_rx] with the allocator handing out a ring page, a list page and
    one page per descriptor, all distinct and below the register window. *)
Lemma init_rx_layout_run {P : Platform} w ring list bufs rest :
  let count := PGSIZE / sizeof_rx_desc in
  let base := mmio_base (e1000 w) in
  0 < PGSIZE ->
  free_pages w = ring :: list :: bufs ++ rest ->
  Z.of_nat (List.length bufs) = count ->
  distinct_pages PGSIZE base (ring :: list :: bufs) ->
  base + 2 ^ 14 <= 2 ^ 32 ->
  exists w',
    init_rx w = Done tt w'
    /\ e1000 w'
       = mk_e1000 base (mac (e1000 w)) ring count list (tx (e1000 w))
           (packet_count (e1000 w))
    /\ free_pages w' = rest /\ device w' = device w
    /\ (forall k, (k < List.length bufs)%nat ->
          slot_linked (memory w') ring list (Z.of_nat k) (nth k bufs 0))
    /\ load32 (memory w') (base + RDBAL) = V2P ring
    /\ load32 (memory w') (base + RDLEN) = PGSIZE
    /\ load32 (memory w') (base + RDH) = 0
    /\ load32 (memory w') (base + RDT) = u32 (count - 1).
Proof.
  intros count base Hpg Hfree Hlen (Hall & Hord) Hwin.
  apply Forall_cons_iff in Hall. destruct Hall as ((Hr0 & Hr1) & Hall).
  apply Forall_cons_iff in Hall. destruct Hall as ((Hl0 & Hl1) & Hall).
  inversion Hord as [|x l Hring Hord1 E]; subst x l. clear Hord.
  inversion Hord1 as [|x l Hlist Hord2 E]; subst x l. clear Hord1.
  apply Forall_cons_iff in Hring. destruct Hring as (Hrl & Hring).
  unfold apart in Hrl.
  assert (Hcnt : 16 * count <= PGSIZE /\ 0 <= count).
  { subst count. unfold sizeof_rx_desc in *.
    pose proof (Z.mul_div_le PGSIZE 16 ltac:(lia)).
    assert (0 <= PGSIZE / 16) by (apply Z.div_pos; lia). lia. }
  destruct Hcnt as (Hcnt & Hc0).
  unfold init_rx. exec.
  rewrite Hfree. cbn [first_page tl].
  rewrite (u32_small ring) by lia.
  rewrite (proj2 (Z.eqb_neq ring 0)) by lia. exec.
  cbn [first_page tl]. rewrite (u32_small list) by lia.
  rewrite (u32_small (PGSIZE / sizeof_rx_desc)) by (fold count; lia).
  fold count. fold base.
  assert (Hu : forall r, 0 <= r -> r + 4 <= 2 ^ 14 -> u32 (base + r) = base + r)
    by (intros r Hra Hrb; apply u32_small; lia).
  rewrite (Hu RDBAL), (Hu RDBAH), (Hu RDLEN), (Hu RDH), (Hu RDT)
    by (unfold RDBAL, RDBAH, RDLEN, RDH, RDT; lia).
  assert (Hn : Z.to_nat count = List.length bufs)
    by (rewrite <- Hlen; apply Nat2Z.id).
  rewrite Hn.
  assert (Hbufs : Forall (fun p => 0 < p /\ p + PGSIZE <= base
                                   /\ apart ring PGSIZE p PGSIZE
                                   /\ apart list PGSIZE p PGSIZE) bufs).
  { apply Forall_forall. intros q Hq.
    pose proof (proj1 (Forall_forall _ _) Hall q Hq) as (Q0 & Q1).
    pose proof (proj1 (Forall_forall _ _) Hring q Hq) as Q2.
    pose proof (proj1 (Forall_forall _ _) Hlist q Hq) as Q3.
    repeat split; assumption. }
  match goal with |- context [mk_world _ ?m _ _ _ _ ?t] =>
    set (m1 := m); set (t1 := t) end.
  match goal with |- context [bind (init_rx_slots ?n ?i) _ ?w1] =>
    destruct (init_rx_slots_post n i w1)
      as (w2 & R2 & E2 & T2 & F2 & D2 & S2 & Fr2)
  end; cbn [e1000 rx rx_buf free_pages];
    rewrite ?firstn_length_app, ?Z.add_0_l, ?Hlen;
    try lia.
  { split; [|exact Hord2].
    eapply Forall_impl; [|exact Hbufs]. cbv beta. intros q Hq. lia. }
  { unfold apart. lia. }
  { eapply Forall_impl; [|exact Hbufs]. cbv beta. unfold apart.
    intros q Hq. lia. }
  rewrite (bind_done _ _ _ _ _ R2). clear R2.
  cbn [e1000 rx rx_buf free_pages device trace memory] in E2, T2, F2, D2, S2, Fr2.
  rewrite skipn_length_app in F2. rewrite firstn_length_app in S2, Fr2.
  rewrite Hlen in Fr2.
  exec.
  match goal with |- context [write_reg ?r ?v ?w] =>
    finish (write_reg r v) w end.
  eexists. split; [reflexivity|].
  cbn [e1000 memory free_pages device]. rewrite E2.
  cbn [rx rx_buf rx_count mmio_base].
  split; [reflexivity|]. split; [exact F2|]. split; [exact D2|].
  rewrite (Hu RDT), (Hu RCTL) by (unfold RDT, RCTL; lia).
  assert (Hreg : forall r, 0 <= r -> r + 4 <= 2 ^ 14 ->
            load32 (memory w2) (base + r) = load32 m1 (base + r)).
  { intros r Hra Hrb. apply load32_bytes_eq. intros k Hk.
    apply Fr2; try lia.
    eapply Forall_impl; [|exact Hbufs]. cbv beta. intros q Hq. lia. }
  unfold RDT, RCTL, RDBAL, RDBAH, RDLEN, RDH in *.
  split; [|repeat split].
  - intros k Hk.
    pose proof (proj1 (Forall_forall _ _) Hbufs (nth k bufs 0)
                  (nth_In bufs 0 Hk)) as (Q0 & Q1 & _).
    apply (slot_linked_frame (memory w2)); unfold sizeof_rx_desc; try lia.
    + intros a Ha Hin. rewrite !load8_store32_far by lia. reflexivity.
    + specialize (S2 k Hk). rewrite Z.add_0_l in S2. exact S2.
  - rewrite !load32_store32_far by lia. rewrite Hreg by lia. subst m1.
    rewrite !load32_store32_far by lia. rewrite load32_store32.
    apply u32_small. apply u32_range.
  - rewrite !load32_store32_far by lia. rewrite Hreg by lia. subst m1.
    rewrite !load32_store32_far by lia. rewrite load32_store32.
    apply u32_small. lia.
  - rewrite !load32_store32_far by lia. rewrite Hreg by lia. subst m1.
    rewrite !load32_store32_far by lia. rewrite load32_store32.
    reflexivity.
  - rewrite !load32_store32_far by lia. rewrite load32_store32.
    apply u32_u32.
Qed.

(** ** The station address, from the EEPROM to the receive address
    registers *)

Lemma stores_to_cons_other a b v l :
  (b =? a) = false -> stores_to a (MmioStore b v :: l) = stores_to a l.
Proof. intros H. cbn [stores_to]. rewrite H. reflexivity. Qed.

Ltac nostore :=
  repeat (rewrite stores_to_cons_other
            by (rewrite ?u32_u32; apply reg_addr_neq;
                unfold IMS, EERD, RCTL, RAL, RAH, RDBAL, RDBAH, RDLEN, RDH,
                  RDT, TDBAL, TDBAH, TDLEN, TDH, TDT, TCTL, TIPG; lia));
  try reflexivity.

(** After the station address is in the record: the first two stores
    program it, and neither register is stored to again, however the run
    ends. *)
Lemma finish_up_trace {P : Platform} v :
  let dev := e1000 v in
  let reg r := u32 (mmio_base dev + r) in
  exists evs,
    trace (world_of (finish_up v))
    = trace v
      ++ [MmioStore (reg RAL)
            (u32 (mac_byte dev 0 + 2 ^ 8 * mac_byte dev 1
                  + 2 ^ 16 * mac_byte dev 2 + 2 ^ 24 * mac_byte dev 3));
          MmioStore (reg RAH) (u32 (mac_byte dev 4 + 2 ^ 8 * mac_byte dev 5))]
      ++ evs
    /\ stores_to (reg RAL) evs = [] /\ stores_to (reg RAH) evs = [].
Proof.
  intros dev reg. subst reg. cbv beta. unfold finish_up.
  pose proof (init_rx_outcomes v) as H. cbv zeta in H.
  destruct H as (w2 & H2 & T2 & B2 & _).
  unfold init_rx_first_stores, init_rx_last_stores in T2.
  fold dev in T2, B2. rewrite !u32_u32 in T2.
  rewrite <- !app_assoc in T2. cbn [app] in T2.
  set (rx1 := if next_page v =? 0 then []
              else [MmioStore (u32 (mmio_base dev + RDBAL))
                      (u32 (V2P (next_page v)));
                    MmioStore (u32 (mmio_base dev + RDBAH)) (u32 0);
                    MmioStore (u32 (mmio_base dev + RDLEN)) (u32 PGSIZE);
                    MmioStore (u32 (mmio_base dev + RDH)) (u32 0);
                    MmioStore (u32 (mmio_base dev + RDT)) (u32 0)]) in T2.
  match type of T2 with context [rx1 ++ ?l] => set (rx2 := l) in T2 end.
  assert (S1 : forall r, r = RAL \/ r = RAH ->
            stores_to (u32 (mmio_base dev + r)) (rx1 ++ rx2) = []).
  { intros r Hr. rewrite stores_to_app. subst rx1 rx2.
    destruct (next_page v =? 0); cbn [negb andb app];
      [destruct Hr as [-> | ->]; reflexivity|].
    destruct (pages_suffice _ _);
      destruct Hr as [-> | ->]; nostore. }
  assert (Hstop : forall m, init_rx v = Panic m w2 ->
    exists evs,
      trace (world_of ((init_rx ;; init_tx ;; init_intr ;;
                        ioapicenable IRQ_PCI0 0) v))
      = trace v
        ++ [MmioStore (u32 (mmio_base dev + RAL))
              (u32 (mac_byte dev 0 + 2 ^ 8 * mac_byte dev 1
                    + 2 ^ 16 * mac_byte dev 2 + 2 ^ 24 * mac_byte dev 3));
            MmioStore (u32 (mmio_base dev + RAH))
              (u32 (mac_byte dev 4 + 2 ^ 8 * mac_byte dev 5))]
        ++ evs
      /\ stores_to (u32 (mmio_base dev + RAL)) evs = []
      /\ stores_to (u32 (mmio_base dev + RAH)) evs = []).
  { intros m Hm. rewrite (bind_panic _ _ _ _ _ Hm). cbn [world_of].
    exists (rx1 ++ rx2). split; [exact T2|].
    split; apply S1; [left|right]; reflexivity. }
  destruct (next_page v =? 0) eqn:E1; [exact (Hstop _ H2)|].
  destruct (pages_suffice _ _) eqn:E2; [|exact (Hstop _ H2)]. clear Hstop.
  rewrite (bind_done _ _ _ _ _ H2).
  destruct (init_tx_outcomes w2) as (w3 & H3 & T3 & _ & E3).
  assert (S3 : forall r, r = RAL \/ r = RAH ->
            stores_to (u32 (mmio_base dev + r))
              (init_tx_stores (e1000 w2) (next_page w2)
               ++ [MmioStore (u32 (mmio_base dev + IMS)) (u32 IMS_VALUE);
                   Ioapicenable IRQ_PCI0 0]) = []).
  { intros r Hr. unfold init_tx_stores. rewrite B2. cbn [app].
    destruct Hr as [-> | ->]; nostore. }
  destruct (next_page w2 =? 0).
  - rewrite (bind_panic _ _ _ _ _ H3). cbn [world_of].
    exists (rx1 ++ rx2). rewrite T3, app_nil_r. split; [exact T2|].
    split; apply S1; [left|right]; reflexivity.
  - rewrite (bind_done _ _ _ _ _ H3). unfold init_intr, ioapicenable. exec.
    match goal with |- context [emit ?e ?w] => finish (emit e) w end.
    cbn [world_of trace]. rewrite T3, T2, E3. cbn [mmio_base].
    rewrite B2, u32_u32.
    exists ((rx1 ++ rx2)
            ++ init_tx_stores (e1000 w2) (next_page w2)
            ++ [MmioStore (u32 (mmio_base dev + IMS)) (u32 IMS_VALUE);
                Ioapicenable IRQ_PCI0 0]).
    split; [rewrite <- !app_assoc; cbn [app]; reflexivity|].
    split; rewrite stores_to_app, S1, S3 by auto; reflexivity.
Qed.

Lemma stores_to_cons_same a v l :
  stores_to a (MmioStore a v :: l) = v :: stores_to a l.
Proof. cbn [stores_to]. rewrite Z.eqb_refl. reflexivity. Qed.

Lemma mac_loop_run w busy0 ready0 data0 busy1 ready1 data1
    busy2 ready2 data2 rest :
  List.length (mac (e1000 w)) = 6%nat ->
  device w = eerd_answers busy0 ready0 data0 ++ eerd_answers busy1 ready1 data1
             ++ eerd_answers busy2 ready2 data2 ++ rest ->
  Forall (fun b => Z.testbit b 4 = false) (busy0 ++ busy1 ++ busy2) ->
  Z.testbit ready0 4 = true ->
  Z.testbit ready1 4 = true ->
  Z.testbit ready2 4 = true ->
  exists w',
    forM_ read_mac_word [0; 1; 2] w = Done tt w'
    /\ trace w'
       = trace w
         ++ map (fun i => MmioStore (u32 (mmio_base (e1000 w) + EERD))
                            (u32 (eerd_request i))) [0; 1; 2]
    /\ mmio_base (e1000 w') = mmio_base (e1000 w)
    /\ mac (e1000 w')
       = [u8 (Z.shiftr data0 16); u8 (Z.shiftr data0 24);
          u8 (Z.shiftr data1 16); u8 (Z.shiftr data1 24);
          u8 (Z.shiftr data2 16); u8 (Z.shiftr data2 24)]
    /\ device w' = rest.
Proof.
  intros Hlen Hd Hb H0 H1 H2.
  apply Forall_app in Hb. destruct Hb as (Hb0 & Hb12).
  apply Forall_app in Hb12. destruct Hb12 as (Hb1 & Hb2).
  destruct (read_mac_word_run 0 w busy0 ready0 data0 _ Hd Hb0 H0)
    as (w1 & R1 & T1 & D1 & B1 & M1).
  destruct (read_mac_word_run 1 w1 busy1 ready1 data1 _ D1 Hb1 H1)
    as (w2 & R2 & T2 & D2 & B2 & M2).
  destruct (read_mac_word_run 2 w2 busy2 ready2 data2 _ D2 Hb2 H2)
    as (w3 & R3 & T3 & D3 & B3 & M3).
  exists w3. cbn [forM_].
  rewrite (bind_done _ _ _ _ _ R1), (bind_done _ _ _ _ _ R2),
    (bind_done _ _ _ _ _ R3).
  split; [reflexivity|]. split; [|split; [congruence|split; [|exact D3]]].
  - rewrite T3, T2, T1, B2, B1. rewrite <- !app_assoc. reflexivity.
  - rewrite M3, M2, M1.
    destruct (mac (e1000 w)) as [|m0 [|m1 [|m2 [|m3 [|m4 [|m5 [|m6 l]]]]]]];
      try discriminate Hlen.
    reflexivity.
Qed.

(** X15. The station address goes from the EEPROM to the receive address
    registers unchanged: with the card found, a base address and an EEPROM
    that answers, [e1000init] stores to the low receive address register
    exactly once, the low and high byte of EEPROM words 0 and 1, and to the
    high one exactly once, those of word 2, whatever the allocator does
    afterwards. *)
Theorem e1000init_programs_eeprom_address (P : Platform) w
    busy0 ready0 data0 busy1 ready1 data1 busy2 ready2 data2 rest :
  let t := first_match (pci_space w) [0; 1; 2; 3] in
  let bar := bar0_of (pci_space w) t in
  t <> -1 -> bar <> 0 ->
  List.length (mac (e1000 w)) = 6%nat ->
  device w = eerd_answers busy0 ready0 data0 ++ eerd_answers busy1 ready1 data1
             ++ eerd_answers busy2 ready2 data2 ++ rest ->
  Forall (fun b => Z.testbit b 4 = false) (busy0 ++ busy1 ++ busy2) ->
  Z.testbit ready0 4 = true ->
  Z.testbit ready1 4 = true ->
  Z.testbit ready2 4 = true ->
  exists evs,
    trace (world_of (e1000init w)) = trace w ++ evs
    /\ stores_to (u32 (bar + RAL)) evs
       = [u8 (Z.shiftr data0 16) + 2 ^ 8 * u8 (Z.shiftr data0 24)
          + 2 ^ 16 * u8 (Z.shiftr data1 16) + 2 ^ 24 * u8 (Z.shiftr data1 24)]
    /\ stores_to (u32 (bar + RAH)) evs
       = [u8 (Z.shiftr data2 16) + 2 ^ 8 * u8 (Z.shiftr data2 24)].
Proof.
  intros t bar Ht Hbar Hlen Hd Hb H0 H1 H2.
  rewrite (e1000init_found P w Ht). fold t. fold bar.
  rewrite (proj2 (Z.eqb_neq _ _) Hbar).
  match goal with |- context [bring_up ?v0] =>
    destruct (mac_loop_run v0 busy0 ready0 data0 busy1 ready1 data1
                busy2 ready2 data2 rest) as (v3 & R3 & T3 & B3 & M3 & _);
      try assumption
  end.
  cbn [activated trace e1000 mmio_base] in T3, B3.
  unfold bring_up. rewrite (bind_done _ _ _ _ _ R3). fold (@finish_up P).
  destruct (finish_up_trace v3) as (evs & T & S1 & S2).
  rewrite B3 in T, S1, S2.
  unfold mac_byte in T. rewrite M3 in T. cbn [nth] in T.
  rewrite !u8_u8 in T.
  pose proof (u8_range (Z.shiftr data0 16)).
  pose proof (u8_range (Z.shiftr data0 24)).
  pose proof (u8_range (Z.shiftr data1 16)).
  pose proof (u8_range (Z.shiftr data1 24)).
  pose proof (u8_range (Z.shiftr data2 16)).
  pose proof (u8_range (Z.shiftr data2 24)).
  rewrite (u32_small (_ + _ + _ + _)), (u32_small (u8 _ + _)) in T by lia.
  rewrite T3 in T. cbn [map] in T.
  rewrite <- !app_assoc in T. cbn [app] in T.
  eexists. split; [exact T|].
  pose proof (probe_selects_are_selects (scanned (pci_space w) [0; 1; 2; 3]))
    as Hsel.
  apply selects_are_port_writes in Hsel.
  pose proof (activation_are_port_writes (pci_space w) t) as Hact.
  rewrite !stores_to_app.
  rewrite (proj1 (port_writes_quiet (u32 (bar + RAL)) _ Hsel)).
  rewrite (proj1 (port_writes_quiet (u32 (bar + RAL)) _ Hact)).
  rewrite (proj1 (port_writes_quiet (u32 (bar + RAH)) _ Hsel)).
  rewrite (proj1 (port_writes_quiet (u32 (bar + RAH)) _ Hact)).
  cbn [app]. split.
  - nostore. rewrite stores_to_cons_same. nostore.
    rewrite S1. reflexivity.
  - nostore. rewrite stores_to_cons_same, S2. reflexivity.
Qed.

Lemma e1000init_programs_eeprom_address_witness :
  exists evs,
    trace (world_of (e1000init (P := xv6_platform)
                       (card_world (space_with_window 2 0xFEBC0000))))
    = trace (card_world (space_with_window 2 0xFEBC0000)) ++ evs
    /\ stores_to
         (u32 (bar0_of (pci_space (card_world (space_with_window 2 0xFEBC0000)))
                 (first_match
                    (pci_space (card_world (space_with_window 2 0xFEBC0000)))
                    [0; 1; 2; 3]) + RAL)) evs
       = [u8 (Z.shiftr 0x54520011 16) + 2 ^ 8 * u8 (Z.shiftr 0x54520011 24)
          + 2 ^ 16 * u8 (Z.shiftr 0x12000111 16)
          + 2 ^ 24 * u8 (Z.shiftr 0x12000111 24)]
    /\ stores_to
         (u32 (bar0_of (pci_space (card_world (space_with_window 2 0xFEBC0000)))
                 (first_match
                    (pci_space (card_world (space_with_window 2 0xFEBC0000)))
                    [0; 1; 2; 3]) + RAH)) evs
       = [u8 (Z.shiftr 0x56340211 16) + 2 ^ 8 * u8 (Z.shiftr 0x56340211 24)].
Proof.
  apply (e1000init_programs_eeprom_address xv6_platform
           (card_world (space_with_window 2 0xFEBC0000))
           [] 0x54520011 0x54520011 [] 0x12000111 0x12000111
           [] 0x56340211 0x56340211 []).
  - vm_compute; discriminate.
  - vm_compute; discriminate.
  - reflexivity.
  - vm_compute; reflexivity.
  - constructor.
  - reflexivity.
  - reflexivity.
  - reflexivity.
Defined.

(** X16. Given a ring page, a list page and one page per descriptor, all
    distinct, non-null and below the register window, [init_rx] returns
    with a complete receive ring: every slot [k] of the [PGSIZE / 16]
    descriptors is linked to the [k]-th buffer page (the list entry holds
    the page, the descriptor its physical address with length, checksum,
    status and error fields zero, and the page is blank), later rounds of
    the loop and the final register stores leave earlier slots intact, and
    the card is told the ring's physical address and its size in bytes. *)
Theorem init_rx_builds_ring (P : Platform) w ring list bufs rest :
  let count := PGSIZE / sizeof_rx_desc in
  let base := mmio_base (e1000 w) in
  0 < PGSIZE ->
  free_pages w = ring :: list :: bufs ++ rest ->
  Z.of_nat (List.length bufs) = count ->
  distinct_pages PGSIZE base (ring :: list :: bufs) ->
  base + 2 ^ 14 <= 2 ^ 32 ->
  exists w',
    init_rx w = Done tt w'
    /\ rx (e1000 w') = ring /\ rx_buf (e1000 w') = list
    /\ rx_count (e1000 w') = count
    /\ free_pages w' = rest
    /\ (forall k, (k < List.length bufs)%nat ->
          slot_linked (memory w') ring list (Z.of_nat k) (nth k bufs 0))
    /\ load32 (memory w') (base + RDBAL) = V2P ring
    /\ load32 (memory w') (base + RDLEN) = PGSIZE.
Proof.
  intros count base Hpg Hfree Hlen Hd Hwin.
  destruct (init_rx_layout_run w ring list bufs rest Hpg Hfree Hlen Hd Hwin)
    as (w' & Hr & He & Hf & _ & Hs & Hbal & Hrlen & _).
  exists w'. rewrite He. cbn [rx rx_buf rx_count].
  repeat (split; [first [assumption|reflexivity]|]). exact Hrlen.
Qed.

Lemma sample_layout :
  distinct_pages (PGSIZE (Platform := tiny_platform)) sample_mmio_base
    (descending_pages 64 6).
Proof.
  assert (E : descending_pages 64 6
              = [0x80400140; 0x80400100; 0x804000C0; 0x80400080; 0x80400040;
                 0x80400000]) by (vm_compute; reflexivity).
  rewrite E. unfold distinct_pages, apart, sample_mmio_base.
  cbn [PGSIZE tiny_platform].
  split;
    repeat first [apply Forall_cons | apply Forall_nil
                 | apply FOP_cons | apply FOP_nil];
    lia.
Qed.

Lemma init_rx_builds_ring_witness :
  exists w',
    init_rx (P := tiny_platform) (probed_world (descending_pages 64 6) [])
    = Done tt w'
    /\ rx (e1000 w') = 0x80400140 /\ rx_buf (e1000 w') = 0x80400100
    /\ rx_count (e1000 w') = 4
    /\ slot_linked (P := tiny_platform) (memory w') 0x80400140 0x80400100 3
         0x80400000.
Proof.
  destruct (init_rx_builds_ring tiny_platform
              (probed_world (descending_pages 64 6) [])
              0x80400140 0x80400100
              [0x804000C0; 0x80400080; 0x80400040; 0x80400000] [])
    as (w' & Hr & H1 & H2 & H3 & _ & Hs & _).
  - reflexivity.
  - vm_compute; reflexivity.
  - reflexivity.
  - exact sample_layout.
  - vm_compute; discriminate.
  - exists w'. split; [exact Hr|]. split; [exact H1|]. split; [exact H2|].
    split; [exact H3|]. exact (Hs 3%nat ltac:(cbn; lia)).
Defined.

(** ** The first drain of a fresh ring *)

Lemma read_reg_quiet reg w :
  device w = [] ->
  read_reg reg w
  = Done (load32 (memory w) (u32 (mmio_base (e1000 w) + reg))) w.
Proof.
  intros Hd. unfold read_reg, mmio_load. run. rewrite Hd. reflexivity.
Qed.

(** X17. A drain of the ring just as [init_rx] left it, with the card
    still quiet, finds nothing: [read_packets] reads no descriptor, prints
    nothing, leaves the packet counter alone and stores the value the tail
    register already holds, the number of descriptors less one. *)
Theorem read_packets_idle_after_init_rx (P : Platform) w ring list bufs rest :
  let count := PGSIZE / sizeof_rx_desc in
  let base := mmio_base (e1000 w) in
  2 * sizeof_rx_desc <= PGSIZE ->
  free_pages w = ring :: list :: bufs ++ rest ->
  Z.of_nat (List.length bufs) = count ->
  distinct_pages PGSIZE base (ring :: list :: bufs) ->
  base + 2 ^ 14 <= 2 ^ 32 ->
  device w = [] ->
  exists w1 w2,
    init_rx w = Done tt w1
    /\ read_packets w1 = Done tt w2
    /\ trace w2 = trace w1 ++ [MmioStore (base + RDT) (count - 1)]
    /\ e1000 w2 = e1000 w1
    /\ load32 (memory w1) (base + RDT) = count - 1
    /\ load32 (memory w2) (base + RDT) = count - 1.
Proof.
  intros count base Hpg Hfree Hlen Hd Hwin Hq.
  unfold sizeof_rx_desc in Hpg.
  assert (Hpos : 0 < PGSIZE) by lia.
  destruct (init_rx_layout_run w ring list bufs rest Hpos Hfree Hlen Hd Hwin)
    as (w1 & Hr & He & _ & Hdev & _ & _ & _ & Hrdh & Hrdt).
  fold count base in He, Hrdh, Hrdt. rewrite Hq in Hdev.
  assert (Hc : 2 <= count /\ 16 * count <= PGSIZE).
  { subst count. unfold sizeof_rx_desc.
    pose proof (Z.mul_div_le PGSIZE 16 ltac:(lia)).
    assert (2 <= PGSIZE / 16) by (apply Z.div_le_lower_bound; lia). lia. }
  assert (Hb : 0 < base /\ PGSIZE <= base).
  { destruct Hd as (Hall & _). apply Forall_cons_iff in Hall.
    destruct Hall as ((H0 & H1) & _). lia. }
  assert (Hu : forall r, 0 <= r -> r + 4 <= 2 ^ 14 -> u32 (base + r) = base + r)
    by (intros r Hra Hrb; apply u32_small; lia).
  rewrite (u32_small (count - 1)) in Hrdt by lia.
  exists w1. eexists. split; [exact Hr|].
  unfold read_packets.
  rewrite (bind_done _ _ _ _ _ (read_reg_quiet RDT w1 Hdev)).
  rewrite (bind_done _ _ _ _ _ (read_reg_quiet RDH w1 Hdev)).
  rewrite He. cbn [mmio_base]. 
  rewrite (Hu RDT), (Hu RDH) by (unfold RDT, RDH; lia).
  rewrite Hrdt, Hrdh. exec. rewrite He. cbn [rx_count].
  rewrite (u32_small (count - 1)) by lia.
  rewrite (proj2 (Z.eqb_neq (count - 1) 0)) by lia.
  assert (Ha : rx_avail count 0 (count - 1) = 0).
  { unfold rx_avail. destruct (Z.gtb_spec 0 (count - 1)) as [G|G]; [lia|].
    replace (count - (count - 1)) with 1 by lia. reflexivity. }
  rewrite Ha. cbn [Z.to_nat read_packet_loop]. exec.
  rewrite He. cbn [rx_count mmio_base].
  match goal with |- context [write_reg ?r ?v ?w] =>
    finish (write_reg r v) w end.
  split; [reflexivity|]. cbn [trace e1000 memory].
  unfold rx_new_tail. cbn [Z.eqb]. rewrite He. cbn [mmio_base].
  rewrite (Hu RDT) by (unfold RDT; lia).
  rewrite !(u32_small (count - 1)) by lia.
  rewrite (u32_small (base + RDT)) by (unfold RDT; lia).
  split; [reflexivity|]. split; [reflexivity|]. split; [reflexivity|].
  rewrite load32_store32. apply u32_small. lia.
Qed.

Lemma read_packets_idle_after_init_rx_witness :
  exists w1 w2,
    init_rx (P := tiny_platform) (probed_world (descending_pages 64 6) [])
    = Done tt w1
    /\ read_packets (P := tiny_platform) w1 = Done tt w2
    /\ e1000 w2 = e1000 w1.
Proof.
  destruct (read_packets_idle_after_init_rx tiny_platform
              (probed_world (descending_pages 64 6) [])
              0x80400140 0x80400100
              [0x804000C0; 0x80400080; 0x80400040; 0x80400000] [])
    as (w1 & w2 & H1 & H2 & _ & He & _).
  - vm_compute; discriminate.
  - vm_compute; reflexivity.
  - reflexivity.
  - exact sample_layout.
  - vm_compute; discriminate.
  - reflexivity.
  - exists w1, w2. split; [exact H1|]. split; [exact H2|exact He].
Defined.

(** ** A run of [e1000init] that succeeds *)

Lemma mmio_load_pages a w :
  free_pages (world_of (mmio_load a w)) = free_pages w.
Proof. unfold mmio_load. destruct (device w) as [|[x|] r]; reflexivity. Qed.

Lemma eerd_poll_pages fuel : forall addr w,
  free_pages (world_of (eerd_poll fuel addr w)) = free_pages w.
Proof.
  induction fuel as [|fuel IH]; intros addr w; [reflexivity|].
  cbn [eerd_poll]. pose proof (mmio_load_pages addr w) as Hl.
  unfold bind.
  destruct (mmio_load addr w) as [v w1|m w1|w1|w1]; cbn [world_of] in *;
    try exact Hl.
  destruct (Z.land v EEPROM_DONE =? 0); [rewrite IH|]; exact Hl.
Qed.

Lemma read_mac_word_pages i w :
  free_pages (world_of (read_mac_word i w)) = free_pages w.
Proof.
  unfold read_mac_word. exec.
  match goal with |- context [@bind ?A ?B ?c ?k ?w1] =>
    destruct (bind_cases c k w1) as [(a & w2 & Hc & Hb)|(Hr & Hw & _)];
    pose proof (eerd_poll_pages (S (List.length (device w1)))
                  (u32 (mmio_base (e1000 w) + EERD)) w1) as Hp
  end.
  - rewrite Hb. cbv beta in Hc. rewrite Hc in Hp. cbn [world_of] in Hp.
    cbn [free_pages] in Hp.
    pose proof (mmio_load_pages (u32 (mmio_base (e1000 w) + EERD)) w2) as Hl.
    destruct (mmio_load (u32 (mmio_base (e1000 w) + EERD)) w2)
      as [v w3|m w3|w3|w3] eqn:El; cbn [world_of] in Hl.
    + rewrite (bind_done _ _ _ _ _ El). exec.
      match goal with |- context [put_dev ?d ?w] => finish (put_dev d) w end.
      cbn [world_of free_pages]. congruence.
    + rewrite (bind_panic _ _ _ _ _ El). cbn [world_of]. congruence.
    + unfold bind. rewrite El. cbn [world_of]. congruence.
    + unfold bind. rewrite El. cbn [world_of]. congruence.
  - rewrite Hw. cbv beta. rewrite Hp. reflexivity.
Qed.

Lemma mac_loop_pages l : forall w,
  free_pages (world_of (forM_ read_mac_word l w)) = free_pages w.
Proof.
  induction l as [|i l IH]; intros w; [reflexivity|].
  cbn [forM_]. pose proof (read_mac_word_pages i w) as Hi.
  destruct (bind_cases (read_mac_word i) (fun _ => forM_ read_mac_word l) w)
    as [(a & w1 & Hc & Hb)|(_ & Hw & _)].
  - rewrite Hb, IH. rewrite Hc in Hi. exact Hi.
  - rewrite Hw. exact Hi.
Qed.

(** X18. With the card in one of the four slots, a base address, an EEPROM
    that answers each of the three reads, and an allocator that hands out
    a ring page, a list page, one distinct buffer page per descriptor and
    then a page for the transmit ring, [e1000init] returns. The driver's
    record then holds the base address, the station address read from the
    EEPROM, the ring with [PGSIZE / 16] descriptors, the buffer list and
    the transmit ring, and the allocator has handed out exactly
    [PGSIZE / 16 + 3] pages. *)
Theorem e1000init_succeeds (P : Platform) w
    busy0 ready0 data0 busy1 ready1 data1 busy2 ready2 data2 answers
    ring list bufs txring rest :
  let t := first_match (pci_space w) [0; 1; 2; 3] in
  let bar := bar0_of (pci_space w) t in
  let count := PGSIZE / sizeof_rx_desc in
  t <> -1 -> bar <> 0 -> bar + 2 ^ 14 <= 2 ^ 32 ->
  List.length (mac (e1000 w)) = 6%nat ->
  device w = eerd_answers busy0 ready0 data0 ++ eerd_answers busy1 ready1 data1
             ++ eerd_answers busy2 ready2 data2 ++ answers ->
  Forall (fun b => Z.testbit b 4 = false) (busy0 ++ busy1 ++ busy2) ->
  Z.testbit ready0 4 = true ->
  Z.testbit ready1 4 = true ->
  Z.testbit ready2 4 = true ->
  0 < PGSIZE ->
  free_pages w = ring :: list :: bufs ++ txring :: rest ->
  Z.of_nat (List.length bufs) = count ->
  distinct_pages PGSIZE bar (ring :: list :: bufs) ->
  0 < txring < 2 ^ 32 ->
  exists w',
    e1000init w = Done tt w'
    /\ mmio_base (e1000 w') = bar
    /\ mac (e1000 w')
       = [u8 (Z.shiftr data0 16); u8 (Z.shiftr data0 24);
          u8 (Z.shiftr data1 16); u8 (Z.shiftr data1 24);
          u8 (Z.shiftr data2 16); u8 (Z.shiftr data2 24)]
    /\ rx (e1000 w') = ring /\ rx_count (e1000 w') = count
    /\ rx_buf (e1000 w') = list /\ tx (e1000 w') = txring
    /\ free_pages w' = rest.
Proof.
  intros t bar count Ht Hbar Hwin Hlen Hd Hb H0 H1 H2 Hpg Hfree Hn Hdist Htx.
  rewrite (e1000init_found P w Ht). fold t. fold bar.
  rewrite (proj2 (Z.eqb_neq _ _) Hbar).
  match goal with |- context [bring_up ?v0] =>
    destruct (mac_loop_run v0 busy0 ready0 data0 busy1 ready1 data1
                busy2 ready2 data2 answers) as (v3 & R3 & _ & B3 & M3 & _);
      try assumption;
    pose proof (mac_loop_pages [0; 1; 2] v0) as F3
  end.
  rewrite R3 in F3. cbn [world_of activated free_pages] in F3.
  cbn [activated e1000 mmio_base] in B3.
  unfold bring_up. rewrite (bind_done _ _ _ _ _ R3). clear R3.
  rewrite Hfree in F3.
  destruct (init_rx_layout_run v3 ring list bufs (txring :: rest))
    as (w2 & R2 & E2 & F2 & _); rewrite ?B3; try assumption.
  rewrite B3, M3 in E2.
  rewrite (bind_done _ _ _ _ _ R2). clear R2.
  destruct (init_tx_outcomes w2) as (w3 & R4 & _ & F4 & E4).
  assert (Hnp : next_page w2 = txring).
  { unfold next_page. rewrite F2. apply u32_small. lia. }
  rewrite Hnp in R4, E4. rewrite (proj2 (Z.eqb_neq _ _)) in R4 by lia.
  rewrite (bind_done _ _ _ _ _ R4). clear R4.
  rewrite F2 in F4. cbn [tl] in F4. rewrite E2 in E4.
  cbn [mmio_base mac rx rx_count rx_buf packet_count] in E4.
  unfold init_intr, ioapicenable. exec.
  match goal with |- context [emit ?e ?w] => finish (emit e) w end.
  eexists. split; [reflexivity|]. cbn [e1000 free_pages].
  rewrite E4. cbn [mmio_base mac rx rx_count rx_buf tx].
  repeat split. exact F4.
Qed.

Lemma e1000init_succeeds_witness :
  exists w',
    e1000init (P := tiny_platform) tiny_card_world = Done tt w'
    /\ mac (e1000 w') = [0x52; 0x54; 0x00; 0x12; 0x34; 0x56]
    /\ free_pages w' = [].
Proof.
  assert (Ebar : bar0_of (pci_space tiny_card_world)
                   (first_match (pci_space tiny_card_world) [0; 1; 2; 3])
                 = sample_mmio_base) by (vm_compute; reflexivity).
  destruct (e1000init_succeeds tiny_platform tiny_card_world
              [] 0x54520011 0x54520011 [] 0x12000111 0x12000111
              [] 0x56340211 0x56340211 []
              0x80400140 0x80400100
              [0x804000C0; 0x80400080; 0x80400040; 0x80400000]
              0x80500000 [])
    as (w' & Hr & _ & Hm & _ & _ & _ & _ & Hf).
  - vm_compute; discriminate.
  - vm_compute; discriminate.
  - vm_compute; discriminate.
  - reflexivity.
  - vm_compute; reflexivity.
  - constructor.
  - reflexivity.
  - reflexivity.
  - reflexivity.
  - reflexivity.
  - vm_compute; reflexivity.
  - reflexivity.
  - rewrite Ebar. exact sample_layout.
  - vm_compute. split; reflexivity.
  - exists w'. split; [exact Hr|]. split; [|exact Hf].
    rewrite Hm. vm_compute. reflexivity.
Defined.
